(** * Universal Trust Model for the iterated prisoner's dilemma

    A shallow embedding of [utm/trust_meter.py] and of the three gated
    strategies of [strategies/] ([utm_tft.py], [utm_wsls.py],
    [utm_tft_wsls.py]), with the properties of the specification proved
    or refuted over it.

    Python [float] is IEEE-754 binary64.  The update rule is written over
    an interface of the float operations the source uses, and read at
    Rocq's primitive binary64 floats, which is what the interpreter
    computes. *)

From Stdlib Require Import ZArith QArith Floats Bool List String Sorted Lia Lqa.
From stdpp Require Import gmap strings.
Import ListNotations.

Set Warnings "-inexact-float".
Local Open Scope Z_scope.
Local Open Scope string_scope.

(** ** Python exceptions and mutable objects *)

Inductive exn : Set :=
| ValueError (msg : string)
| KeyError
| IndexError
| OverflowError.

Inductive outcome (A : Type) : Type :=
| Return (a : A)
| Raise (e : exn).
Arguments Return {A} a.
Arguments Raise {A} e.

(** A method of an object whose attributes form a state [S]: it returns or
    raises, and leaves the attributes as they were at that point. *)
Definition Py (S A : Type) : Type := S -> outcome A * S.

Definition ret {S A} (a : A) : Py S A := fun s => (Return a, s).
Definition raise {S A} (e : exn) : Py S A := fun s => (Raise e, s).
Definition bind {S A B} (m : Py S A) (k : A -> Py S B) : Py S B :=
  fun s => match m s with
           | (Return a, s') => k a s'
           | (Raise e, s') => (Raise e, s')
           end.
Definition get {S} : Py S S := fun s => (Return s, s).
Definition put {S} (s : S) : Py S unit := fun _ => (Return tt, s).
Definition modify {S} (f : S -> S) : Py S unit := fun s => (Return tt, f s).
Definition lift {S A} (o : outcome A) : Py S A := fun s => (o, s).

(** Run a method of the attribute [proj self], storing the attribute back:
    the attribute is an object owned by [self] and mutated in place. *)
Definition on_attr {S T A} (proj : S -> T) (upd : T -> S -> S) (m : Py T A)
  : Py S A :=
  fun s => let '(r, t') := m (proj s) in (r, upd t' s).

Notation "x <- m ;; k" := (bind m (fun x => k))
  (at level 100, m at next level, right associativity).
Notation "m ;;; k" := (bind m (fun _ => k))
  (at level 100, right associativity).

(** [try: body except KeyError: raise e] for a pure body. *)
Definition except_KeyError {A} (body : outcome A) (e : exn) : outcome A :=
  match body with
  | Raise KeyError => Raise e
  | r => r
  end.

(** [xs[-1]] *)
Definition index_last {A} (xs : list A) : outcome A :=
  match last xs with
  | Some x => Return x
  | None => Raise IndexError
  end.

(** [d[k]] for a dict *)
Definition dict_getitem `{Countable K} {V} (d : gmap K V) (k : K) : outcome V :=
  match d !! k with
  | Some v => Return v
  | None => Raise KeyError
  end.

(** ** The float operations of the source *)

Class PyFloat (F : Type) := {
  lit : Q -> F;               (* a decimal literal, [0.05] is [lit (5 # 100)] *)
  of_int : Z -> outcome F;    (* an [int] operand of a float operation *)
  fadd : F -> F -> F;
  fsub : F -> F -> F;
  fmul : F -> F -> F;
  flt : F -> F -> bool;
  fle : F -> F -> bool;
  feq : F -> F -> bool;
}.

Notation "x +. y" := (fadd x y) (at level 50, left associativity).
Notation "x -. y" := (fsub x y) (at level 50, left associativity).
Notation "x *. y" := (fmul x y) (at level 40, left associativity).
Notation "x <. y" := (flt x y) (at level 70, no associativity).
Notation "x >. y" := (flt y x) (at level 70, no associativity, only parsing).
Notation "x <=. y" := (fle x y) (at level 70, no associativity).
Notation "x ==. y" := (feq x y) (at level 70, no associativity).

(** The correctly rounded binary64 value of an integer. *)
Definition Z2SF (n : Z) : spec_float := binary_normalize prec emax n 0 false.

Definition is_finite_SF (x : spec_float) : bool :=
  match x with
  | S754_zero _ | S754_finite _ _ _ => true
  | _ => false
  end.

Definition is_finite (x : float) : bool := is_finite_SF (Prim2SF x).

(** IEEE-754 binary64: what CPython computes.  A decimal literal is the
    nearest double; an [int] converts with round-to-nearest-even and
    [OverflowError] beyond the double range. *)
#[export] Instance binary64 : PyFloat float := {
  lit q := (SF2Prim (Z2SF (Qnum q)) / SF2Prim (Z2SF (Zpos (Qden q))))%float;
  of_int n := if is_finite_SF (Z2SF n) then Return (SF2Prim (Z2SF n))
              else Raise OverflowError;
  fadd := PrimFloat.add;
  fsub := PrimFloat.sub;
  fmul := PrimFloat.mul;
  flt := PrimFloat.ltb;
  fle := PrimFloat.leb;
  feq := PrimFloat.eqb;
}.

(** [max(a, b)] and [min(a, b)] of the interpreter: the first argument is
    kept unless the second compares strictly greater (smaller). *)
Definition pymax `{PyFloat F} (a b : F) : F := if b >. a then b else a.
Definition pymin `{PyFloat F} (a b : F) : F := if b <. a then b else a.

(** ** utm/trust_meter.py *)

Inductive Action : Set := C | D.

(** [str(action)] *)
Definition str (a : Action) : string :=
  match a with C => "C" | D => "D" end.

Section trust_meter.
Context {F : Type} `{PyFloat F}.

Definition ALPHA_POS : F := lit (5 # 100).
Definition ALPHA_NEG : F := lit (50 # 100).
Definition DELTA : F := lit (30 # 100).

Definition _REWARD_TABLE : gmap (string * string) F :=
  <[("C", "C") := lit 1]>
  (<[("D", "C") := lit (5 # 10)]>
  (<[("D", "D") := lit (-2 # 10)]>
  (<[("C", "D") := lit (-1)]> ∅))).

Definition payoff_to_signed_reward (my_move opp_move : string) : outcome F :=
  except_KeyError
    (dict_getitem _REWARD_TABLE (my_move, opp_move))
    (ValueError "move must be 'C' or 'D'").

Record TrustMeter : Type := {
  theta : F;
  alpha_pos : F;
  alpha_neg : F;
  delta : F;
  _betrayals : Z;
  _trust : F;
}.

(** [TrustMeter(theta, alpha_pos, alpha_neg, delta)], with [__post_init__]. *)
Definition TrustMeter_init (theta alpha_pos alpha_neg delta : F) : TrustMeter :=
  {| theta := theta; alpha_pos := alpha_pos; alpha_neg := alpha_neg;
     delta := delta; _betrayals := 0; _trust := theta |}.

Definition value (self : TrustMeter) : F := _trust self.

Definition set_betrayals (n : Z) (self : TrustMeter) : TrustMeter :=
  {| theta := theta self; alpha_pos := alpha_pos self;
     alpha_neg := alpha_neg self; delta := delta self;
     _betrayals := n; _trust := _trust self |}.

Definition set_trust (t : F) (self : TrustMeter) : TrustMeter :=
  {| theta := theta self; alpha_pos := alpha_pos self;
     alpha_neg := alpha_neg self; delta := delta self;
     _betrayals := _betrayals self; _trust := t |}.

(** [s * (1 + n * delta)], with [n] the counter as the call finds it. *)
Definition factor (severity : F) : Py TrustMeter F :=
  self <- get ;;
  n <- lift (of_int (_betrayals self)) ;;
  ret (severity *. (lit 1 +. n *. delta self)).

Definition observe (reward severity : F) : Py TrustMeter unit :=
  if reward ==. lit 0 then raise (ValueError "reward must be non-zero")
  else
    self <- get ;;
    let alpha := if reward >. _trust self then alpha_pos self
                 else alpha_neg self in
    (if reward <. _trust self
     then modify (fun self => set_betrayals (_betrayals self + 1) self)
     else ret tt) ;;;
    factor <- factor severity ;;
    self <- get ;;
    let delta_t := alpha *. factor *. (reward -. _trust self) in
    put (set_trust (pymax (lit 0) (pymin (lit 1) (_trust self +. delta_t))) self).

Definition observe_moves (my_move opp_move : string) (severity : F)
  : Py TrustMeter unit :=
  reward <- lift (payoff_to_signed_reward my_move opp_move) ;;
  observe reward severity.

Definition reset : Py TrustMeter unit :=
  modify (fun self => set_betrayals 0 (set_trust (theta self) self)).

End trust_meter.

Arguments TrustMeter F : clear implicits.

(** ** The axelrod library, as far as the strategies touch it *)

Inductive axl_class : Set := TitForTat | WinStayLoseShift.

Definition axl_class_eqb (c d : axl_class) : bool :=
  match c, d with
  | TitForTat, TitForTat | WinStayLoseShift, WinStayLoseShift => true
  | _, _ => false
  end.

Section strategies.
Context {F : Type} `{PyFloat F}.

(** The library is not part of the repository: an opponent is any object
    with a [history], a library player any object of one of the two
    classes with attributes of its own, a [strategy] and a [reset]. *)
Variable Opponent : Type.
Variable opp_history : Opponent -> list Action.
Variable axl_attrs : Type.
Variable axl_init : axl_class -> axl_attrs.
Variable axl_strategy : axl_class -> Opponent -> Py axl_attrs Action.
Variable axl_reset : axl_class -> Py axl_attrs unit.

Record axl_Player : Type := { cls : axl_class; attrs : axl_attrs }.

(** [axl.TitForTat()], [axl.WinStayLoseShift()] *)
Definition axl_new (c : axl_class) : axl_Player :=
  {| cls := c; attrs := axl_init c |}.

Definition set_attrs (a : axl_attrs) (p : axl_Player) : axl_Player :=
  {| cls := cls p; attrs := a |}.

Definition inner_strategy (opponent : Opponent) : Py axl_Player Action :=
  p <- get ;; on_attr attrs set_attrs (axl_strategy (cls p) opponent).

Definition inner_reset : Py axl_Player unit :=
  p <- get ;; on_attr attrs set_attrs (axl_reset (cls p)).

Definition isinstance (p : axl_Player) (c : axl_class) : bool :=
  axl_class_eqb (cls p) c.

(** *** strategies/utm_tft.py and strategies/utm_wsls.py

    The attributes of a [UTMTFT] and of a [UTMWSLS] are the same. *)
Record UTMPlayer : Type := {
  history : list Action;
  trust : TrustMeter F;
  threshold : F;
  inner : axl_Player;
}.

Definition set_history (h : list Action) (self : UTMPlayer) : UTMPlayer :=
  {| history := h; trust := trust self; threshold := threshold self;
     inner := inner self |}.
Definition set_trust_of (t : TrustMeter F) (self : UTMPlayer) : UTMPlayer :=
  {| history := history self; trust := t; threshold := threshold self;
     inner := inner self |}.
Definition set_inner (p : axl_Player) (self : UTMPlayer) : UTMPlayer :=
  {| history := history self; trust := trust self;
     threshold := threshold self; inner := p |}.

(** [if xs:] *)
Definition nonempty {A} (xs : list A) : bool :=
  match xs with [] => false | _ => true end.

Definition UTMTFT_init (theta alpha_pos alpha_neg delta threshold : F)
  : UTMPlayer :=
  {| history := [];
     trust := TrustMeter_init theta alpha_pos alpha_neg delta;
     threshold := threshold;
     inner := axl_new TitForTat |}.

Definition UTMTFT_strategy (opponent : Opponent) : Py UTMPlayer Action :=
  self <- get ;;
  (if nonempty (history self) then
     last_my <- lift (index_last (history self)) ;;
     last_opp <- lift (index_last (opp_history opponent)) ;;
     reward <- lift (payoff_to_signed_reward (str last_my) (str last_opp)) ;;
     on_attr trust set_trust_of (observe reward (lit 1))
   else ret tt) ;;;
  proposed_move <- on_attr inner set_inner (inner_strategy opponent) ;;
  self <- get ;;
  let current_trust := value (trust self) in
  if current_trust <. threshold self then
    let decision := D in ret decision
  else
    let decision := proposed_move in ret decision.

(** [Player.reset] of the library, on the attributes modelled here. *)
Definition Player_reset : Py UTMPlayer unit := modify (set_history []).

Definition UTMTFT_reset : Py UTMPlayer unit :=
  Player_reset ;;;
  on_attr trust set_trust_of reset ;;;
  on_attr inner set_inner inner_reset.

Definition UTMWSLS_init (theta alpha_pos alpha_neg delta threshold : F)
  : UTMPlayer :=
  {| history := [];
     trust := TrustMeter_init theta alpha_pos alpha_neg delta;
     threshold := threshold;
     inner := axl_new WinStayLoseShift |}.

Definition UTMWSLS_strategy (opponent : Opponent) : Py UTMPlayer Action :=
  self <- get ;;
  (if nonempty (history self) then
     last_my <- lift (index_last (history self)) ;;
     last_opp <- lift (index_last (opp_history opponent)) ;;
     reward <- lift (payoff_to_signed_reward (str last_my) (str last_opp)) ;;
     on_attr trust set_trust_of (observe reward (lit 1))
   else ret tt) ;;;
  proposed <- on_attr inner set_inner (inner_strategy opponent) ;;
  self <- get ;;
  ret (if value (trust self) <. threshold self then D else proposed).

Definition UTMWSLS_reset : Py UTMPlayer unit :=
  Player_reset ;;;
  on_attr trust set_trust_of reset ;;;
  on_attr inner set_inner inner_reset.

(** *** strategies/utm_tft_wsls.py *)
Record UTMTFT_WSLS : Type := {
  h_history : list Action;
  h_trust : TrustMeter F;
  h_threshold : F;
  promote_at : F;
  h_inner : axl_Player;
}.

Definition h_set_history (h : list Action) (self : UTMTFT_WSLS) : UTMTFT_WSLS :=
  {| h_history := h; h_trust := h_trust self;
     h_threshold := h_threshold self; promote_at := promote_at self;
     h_inner := h_inner self |}.
Definition h_set_trust (t : TrustMeter F) (self : UTMTFT_WSLS) : UTMTFT_WSLS :=
  {| h_history := h_history self; h_trust := t;
     h_threshold := h_threshold self; promote_at := promote_at self;
     h_inner := h_inner self |}.
Definition h_set_inner (p : axl_Player) (self : UTMTFT_WSLS) : UTMTFT_WSLS :=
  {| h_history := h_history self; h_trust := h_trust self;
     h_threshold := h_threshold self; promote_at := promote_at self;
     h_inner := p |}.

Definition UTMTFT_WSLS_init
  (theta alpha_pos alpha_neg delta threshold promote_at : F) : UTMTFT_WSLS :=
  {| h_history := [];
     h_trust := TrustMeter_init theta alpha_pos alpha_neg delta;
     h_threshold := threshold;
     promote_at := promote_at;
     h_inner := axl_new TitForTat |}.

Definition UTMTFT_WSLS_strategy (opponent : Opponent)
  : Py UTMTFT_WSLS Action :=
  self <- get ;;
  (if nonempty (h_history self) then
     last_my <- lift (index_last (h_history self)) ;;
     last_opp <- lift (index_last (opp_history opponent)) ;;
     r <- lift (payoff_to_signed_reward (str last_my) (str last_opp)) ;;
     on_attr h_trust h_set_trust (observe r (lit 1))
   else ret tt) ;;;
  self <- get ;;
  (if (value (h_trust self) >. promote_at self)
      && negb (isinstance (h_inner self) WinStayLoseShift)
   then modify (h_set_inner (axl_new WinStayLoseShift))
   else ret tt) ;;;
  move <- on_attr h_inner h_set_inner (inner_strategy opponent) ;;
  self <- get ;;
  ret (if value (h_trust self) <. h_threshold self then D else move).

Definition UTMTFT_WSLS_reset : Py UTMTFT_WSLS unit :=
  modify (h_set_history []) ;;;
  on_attr h_trust h_set_trust reset ;;;
  modify (h_set_inner (axl_new TitForTat)).

End strategies.


Arguments axl_Player axl_attrs : clear implicits.
Arguments cls {axl_attrs} _.
Arguments attrs {axl_attrs} _.
Arguments axl_new {axl_attrs} axl_init c.
Arguments set_attrs {axl_attrs} a p.
Arguments inner_strategy {Opponent axl_attrs} axl_strategy opponent _.
Arguments inner_reset {axl_attrs} axl_reset _.
Arguments isinstance {axl_attrs} p c.

Arguments UTMPlayer F axl_attrs : clear implicits.
Arguments history {F axl_attrs} _.
Arguments trust {F axl_attrs} _.
Arguments threshold {F axl_attrs} _.
Arguments inner {F axl_attrs} _.
Arguments set_history {F axl_attrs} h self.
Arguments set_trust_of {F axl_attrs} t self.
Arguments set_inner {F axl_attrs} p self.
Arguments Player_reset {F axl_attrs} _.
Arguments UTMTFT_init {F axl_attrs} axl_init theta alpha_pos alpha_neg delta threshold.
Arguments UTMTFT_strategy {F H Opponent} opp_history {axl_attrs} axl_strategy opponent _.
Arguments UTMTFT_reset {F axl_attrs} axl_reset _.
Arguments UTMWSLS_init {F axl_attrs} axl_init theta alpha_pos alpha_neg delta threshold.
Arguments UTMWSLS_strategy {F H Opponent} opp_history {axl_attrs} axl_strategy opponent _.
Arguments UTMWSLS_reset {F axl_attrs} axl_reset _.

Arguments UTMTFT_WSLS F axl_attrs : clear implicits.
Arguments h_history {F axl_attrs} _.
Arguments h_trust {F axl_attrs} _.
Arguments h_threshold {F axl_attrs} _.
Arguments promote_at {F axl_attrs} _.
Arguments h_inner {F axl_attrs} _.
Arguments h_set_history {F axl_attrs} h self.
Arguments h_set_trust {F axl_attrs} t self.
Arguments h_set_inner {F axl_attrs} p self.
Arguments UTMTFT_WSLS_init {F axl_attrs} axl_init
  theta alpha_pos alpha_neg delta threshold promote_at.
Arguments UTMTFT_WSLS_strategy {F H Opponent} opp_history {axl_attrs}
  axl_init axl_strategy opponent _.
Arguments UTMTFT_WSLS_reset {F axl_attrs} axl_init _.
(** ** Vocabulary of the statements *)

(** [0.0 <= x <= 1.0] *)
Definition in_unit `{PyFloat F} (x : F) : bool :=
  (lit 0 <=. x) && (x <=. lit 1).

(** [max(0.0, min(1.0, x))] *)
Definition clamp `{PyFloat F} (x : F) : F := pymax (lit 0) (pymin (lit 1) x).

(** A sequence of [observe(reward, severity)] calls on one meter: the
    outcome of each call and the meter after it.  A call that raises leaves
    the meter to the next call as the exception left it. *)
Fixpoint observe_each `{PyFloat F} (calls : list (F * F)) (self : TrustMeter F)
  : list (outcome unit * TrustMeter F) :=
  match calls with
  | [] => []
  | (reward, severity) :: rest =>
      let res := observe reward severity self in
      res :: observe_each rest (snd res)
  end.

(** The meter as [observe] has it when the factor is computed. *)
Definition bump `{PyFloat F} (reward : F) (self : TrustMeter F) : TrustMeter F :=
  if reward <. _trust self
  then set_betrayals (_betrayals self + 1) self else self.

(** The learning rate [observe] picks. *)
Definition pick_alpha `{PyFloat F} (reward : F) (self : TrustMeter F) : F :=
  if reward >. _trust self then alpha_pos self else alpha_neg self.

(** The keys of [_REWARD_TABLE]. *)
Definition reward_keys : list (string * string) :=
  [("C", "C"); ("D", "C"); ("D", "D"); ("C", "D")].

(** The counter after each call of a sequence, the starting one first. *)
Definition betrayal_counts `{PyFloat F} (calls : list (F * F))
  (self : TrustMeter F) : list Z :=
  _betrayals self :: map (fun res => _betrayals (snd res)) (observe_each calls self).

(** [_REWARD_TABLE] on the moves of a round. *)
Definition reward_of `{PyFloat F} (my_move opp_move : Action) : F :=
  match my_move, opp_move with
  | C, C => lit 1
  | D, C => lit (5 # 10)
  | D, D => lit (-2 # 10)
  | C, D => lit (-1)
  end.

(** The move the threshold lets through: Defect when the value of the
    meter is strictly below the threshold, the proposed move otherwise. *)
Definition gate `{PyFloat F} (t : TrustMeter F) (threshold : F)
  (proposed : Action) : Action :=
  if value t <. threshold then D else proposed.

Section strategy_vocabulary.
Context {F : Type} `{PyFloat F}.
Variable Opponent : Type.
Variable opp_history : Opponent -> list Action.
Variable axl_attrs : Type.
Variable axl_strategy : axl_class -> Opponent -> Py axl_attrs Action.

(** What one call of a gated [strategy] does, on every player and every
    opponent.  On the first round the meter is left as it is.  On a later
    round the meter is the one a single [observe] of the mapped reward of
    the last round leaves.  When that call and the inner strategy return,
    the move is the gate's, at the meter after the update. *)
Definition gated_round
  (strategy : Opponent -> Py (UTMPlayer F axl_attrs) Action) : Prop :=
  forall (opponent : Opponent) (self : UTMPlayer F axl_attrs),
    (history self = [] ->
     trust (snd (strategy opponent self)) = trust self
     /\ forall proposed p',
          inner_strategy axl_strategy opponent (inner self)
          = (Return proposed, p') ->
          fst (strategy opponent self)
          = Return (gate (trust self) (threshold self) proposed))
    /\ (forall (h : list Action) last_my (ho : list Action) last_opp,
          history self = (h ++ [last_my])%list ->
          opp_history opponent = (ho ++ [last_opp])%list ->
          let updated := observe (reward_of last_my last_opp) (lit 1) (trust self) in
          payoff_to_signed_reward (str last_my) (str last_opp)
          = Return (reward_of last_my last_opp)
          /\ trust (snd (strategy opponent self)) = snd updated
          /\ forall proposed p',
               fst updated = Return tt ->
               inner_strategy axl_strategy opponent (inner self)
               = (Return proposed, p') ->
               fst (strategy opponent self)
               = Return (gate (snd updated) (threshold self) proposed)).

End strategy_vocabulary.

Arguments gated_round {F H Opponent} opp_history {axl_attrs} axl_strategy strategy.

Section hybrid_vocabulary.
Context {F : Type} `{PyFloat F}.
Variable Opponent : Type.
Variable opp_history : Opponent -> list Action.
Variable axl_attrs : Type.
Variable axl_init : axl_class -> axl_attrs.
Variable axl_strategy : axl_class -> Opponent -> Py axl_attrs Action.

(** The class of the inner player. *)
Definition inner_class (self : UTMTFT_WSLS F axl_attrs) : axl_class :=
  cls (h_inner self).

(** [trust.value > promote_at] *)
Definition above_promote (self : UTMTFT_WSLS F axl_attrs) : bool :=
  value (h_trust self) >. promote_at self.

(** The first statement of [strategy]: the update of the meter. *)
Definition hybrid_update (opponent : Opponent)
  : Py (UTMTFT_WSLS F axl_attrs) unit :=
  self <- get ;;
  if nonempty (h_history self) then
    last_my <- lift (index_last (h_history self)) ;;
    last_opp <- lift (index_last (opp_history opponent)) ;;
    r <- lift (payoff_to_signed_reward (str last_my) (str last_opp)) ;;
    on_attr h_trust h_set_trust (observe r (lit 1))
  else ret tt.

(** The second statement: the promotion of the inner player. *)
Definition hybrid_promote (self : UTMTFT_WSLS F axl_attrs)
  : UTMTFT_WSLS F axl_attrs :=
  if (value (h_trust self) >. promote_at self)
     && negb (isinstance (h_inner self) WinStayLoseShift)
  then h_set_inner (axl_new axl_init WinStayLoseShift) self
  else self.

(** One match: before each call of [strategy] the framework has set the
    history of the player and brings the opponent; the outcome of each
    call and the player after it. *)
Fixpoint play (rounds : list (list Action * Opponent))
  (self : UTMTFT_WSLS F axl_attrs)
  : list (outcome Action * UTMTFT_WSLS F axl_attrs) :=
  match rounds with
  | [] => []
  | (h, opponent) :: rest =>
      let res := UTMTFT_WSLS_strategy opp_history axl_init axl_strategy
                   opponent (h_set_history h self) in
      res :: play rest (snd res)
  end.

(** The classes of the inner player after each call of a match. *)
Definition classes (trace : list (outcome Action * UTMTFT_WSLS F axl_attrs))
  : list axl_class :=
  map (fun res => inner_class (snd res)) trace.

Definition returned {A S} (res : outcome A * S) : bool :=
  match fst res with Return _ => true | Raise _ => false end.

End hybrid_vocabulary.

Arguments inner_class {F axl_attrs} self.
Arguments hybrid_update {F H Opponent} opp_history {axl_attrs} opponent _.
Arguments hybrid_promote {F H axl_attrs} axl_init self.
Arguments above_promote {F H axl_attrs} self.
Arguments play {F H Opponent} opp_history {axl_attrs} axl_init axl_strategy rounds self.
Arguments classes {F axl_attrs} trace.

(** How many times the class changes along a sequence that starts at [c]. *)
Fixpoint switches (c : axl_class) (cs : list axl_class) : nat :=
  match cs with
  | [] => 0
  | c' :: rest => (if axl_class_eqb c c' then 0 else 1) + switches c' rest
  end.

(** [TrustMeter(theta=0.5, alpha_pos=0.0)], the other rates the defaults. *)
Definition zero_rate_meter : TrustMeter float :=
  TrustMeter_init 0.5%float 0%float ALPHA_NEG DELTA.

(** [TrustMeter(theta=0.9)] *)
Definition trusting_meter : TrustMeter float :=
  TrustMeter_init 0.9%float ALPHA_POS ALPHA_NEG DELTA.

(** [TrustMeter(theta=1.5)] *)
Definition overfull_meter : TrustMeter float :=
  TrustMeter_init 1.5%float ALPHA_POS ALPHA_NEG DELTA.

(** The meter after [observe(reward, severity)], whatever the outcome. *)
Definition after `{PyFloat F} (reward severity : F) (self : TrustMeter F)
  : TrustMeter F :=
  snd (observe reward severity self).

(** The change [delta_t] that [observe] adds to the trust when the counter
    converts to [n]. *)
Definition delta_t `{PyFloat F} (reward severity n : F) (self : TrustMeter F)
  : F :=
  pick_alpha reward self *. (severity *. (lit 1 +. n *. delta self))
  *. (reward -. _trust self).

(** ** Concrete players for the examples *)

(** The two strategies of the axelrod library as the library defines them,
    with the history of the library player as its only attribute and the
    history of the opponent for the opponent.  They are not part of the
    repository; the examples run the strategies against them. *)
Definition lib_init (c : axl_class) : list Action := [].

Definition lib_strategy (c : axl_class) (opponent : list Action)
  : Py (list Action) Action :=
  self_history <- get ;;
  if nonempty self_history then
    last_my <- lift (index_last self_history) ;;
    last_opp <- lift (index_last opponent) ;;
    match c with
    | TitForTat => ret (match last_opp with D => D | C => C end)
    | WinStayLoseShift =>
        ret (match last_my, last_opp with
             | C, C | D, D => C
             | _, _ => D
             end)
    end
  else ret C.

Definition lib_history (opponent : list Action) : list Action := opponent.

(** [UTMTFT()] with the defaults of its constructor. *)
Definition default_UTMTFT : UTMPlayer float (list Action) :=
  UTMTFT_init lib_init (lit (45 # 100)) (lit (5 # 100)) (lit (5 # 10))
    (lit (6 # 10)) (lit (45 # 100)).

(** [UTMTFT_WSLS()] with the defaults of its constructor. *)
Definition default_hybrid : UTMTFT_WSLS float (list Action) :=
  UTMTFT_WSLS_init lib_init (lit (45 # 100)) (lit (5 # 100)) (lit (50 # 100))
    (lit (55 # 100)) (lit (45 # 100)) (lit (55 # 100)).

(** Six rounds of mutual cooperation, as the framework presents them. *)
Definition cooperative_rounds : list (list Action * list Action) :=
  [([], []); ([C], [C]); ([C; C], [C; C]); ([C; C; C], [C; C; C]);
   ([C; C; C; C], [C; C; C; C]); ([C; C; C; C; C], [C; C; C; C; C])].

(** [TrustMeter(theta=0.5)] *)
Definition default_meter : TrustMeter float :=
  TrustMeter_init 0.5%float ALPHA_POS ALPHA_NEG DELTA.

(** * The rest of the meter, the strategies and the trust game

    What follows covers the methods and the callers that the statements
    above do not reach: [reset] and [observe_moves] of the meter, the
    resets of the three strategies, the failures of a call, the update on
    doubles with its rounding, and the investment game of
    [dash/pages/03_Trust_Game.py], which drives the meter of a [UTMTFT]
    directly. *)

(** ** The constructor of the meter with all its fields

    [TrustMeter(theta, alpha_pos, alpha_neg, delta, _betrayals, _trust)]:
    the [__init__] of the dataclass takes the six fields, the last two
    with the defaults [0] and [None], and [__post_init__] then sets
    [_trust] to [theta], whatever was passed for it. *)
Definition TrustMeter_new {F} (theta alpha_pos alpha_neg delta : F)
  (_betrayals : Z) (_trust : option F) : TrustMeter F :=
  {| theta := theta; alpha_pos := alpha_pos; alpha_neg := alpha_neg;
     delta := delta; _betrayals := _betrayals; _trust := theta |}.

(** ** Sequences of calls on one object *)

(** The public methods of a meter that write it. *)
Inductive meter_call (F : Type) : Type :=
| call_observe (reward severity : F)
| call_observe_moves (my_move opp_move : string) (severity : F)
| call_reset.
Arguments call_observe {F} reward severity.
Arguments call_observe_moves {F} my_move opp_move severity.
Arguments call_reset {F}.

Definition do_call `{PyFloat F} (c : meter_call F) : Py (TrustMeter F) unit :=
  match c with
  | call_observe reward severity => observe reward severity
  | call_observe_moves my_move opp_move severity =>
      observe_moves my_move opp_move severity
  | call_reset => reset
  end.

(** The meter after a sequence of calls, each one made whatever the
    outcome of the calls before it. *)
Definition after_calls `{PyFloat F} (cs : list (meter_call F))
  (self : TrustMeter F) : TrustMeter F :=
  fold_left (fun m c => snd (do_call c m)) cs self.

(** The object a trace of calls ends with. *)
Definition state_after {A S} (trace : list (outcome A * S)) (start : S) : S :=
  match last trace with
  | Some res => snd res
  | None => start
  end.

Section match_vocabulary.
Context {F : Type} `{PyFloat F}.
Variable Opponent : Type.
Variable axl_attrs : Type.

(** One match of a [UTMTFT] or a [UTMWSLS], as [play] is one of the
    hybrid. *)
Fixpoint play_gated
  (strategy : Opponent -> Py (UTMPlayer F axl_attrs) Action)
  (rounds : list (list Action * Opponent)) (self : UTMPlayer F axl_attrs)
  : list (outcome Action * UTMPlayer F axl_attrs) :=
  match rounds with
  | [] => []
  | (h, opponent) :: rest =>
      let res := strategy opponent (set_history h self) in
      res :: play_gated strategy rest (snd res)
  end.

End match_vocabulary.

Arguments play_gated {F Opponent axl_attrs} strategy rounds self.

(** [Player.reset] of the two library strategies of the examples. *)
Definition lib_reset (c : axl_class) : Py (list Action) unit := put [].

(** ** dash/pages/03_Trust_Game.py *)

Section trust_game.
Variable axl_attrs : Type.

(** The parameters of [run_trust_game] the loop reads. *)
Variables send ret_good betray_prob ret_bad tau : float.

(** The body of the loop, for the value [random.random()] returned.  The
    [int] operands [3], [0], [+1] and [-1] meet a float in every operation
    and convert to it exactly. *)
Definition trust_game_round (draw : float)
  : Py (UTMPlayer float axl_attrs) float :=
  let betrayed := draw <. betray_prob in
  agent <- get ;;
  let sent := if tau <=. value (trust agent) then send else lit 0 in
  three <- lift (of_int 3) ;;
  let returned := sent *. three *. (if betrayed then ret_bad else ret_good) in
  let payoff := (PrimFloat.opp sent +. returned)%float in
  on_attr trust set_trust_of
    (observe (if lit 0 <=. payoff then lit 1 else lit (-1)) (lit 1)) ;;;
  ret payoff.

(** [for _ in range(n)], the draws of the generator being [draws]; the two
    lists grow by [append]. *)
Fixpoint trust_game_loop (draws : list float)
  (trust_vals payoffs : list float)
  : Py (UTMPlayer float axl_attrs) (list float * list float) :=
  match draws with
  | [] => ret (trust_vals, payoffs)
  | draw :: rest =>
      payoff <- trust_game_round draw ;;
      agent <- get ;;
      trust_game_loop rest (trust_vals ++ [value (trust agent)])%list
        (payoffs ++ [payoff])%list
  end.

End trust_game.

Arguments trust_game_round {axl_attrs} send ret_good betray_prob ret_bad tau draw _.
Arguments trust_game_loop {axl_attrs} send ret_good betray_prob ret_bad tau
  draws trust_vals payoffs _.

(** [run_trust_game]: the generator is read once per round, [random]
    giving the value of round [i]; a negative [rounds] is an empty range. *)
Definition run_trust_game {axl_attrs} (axl_init : axl_class -> axl_attrs)
  (random : nat -> float)
  (rounds : Z) (send ret_good betray_prob ret_bad alpha_pos alpha_neg delta tau
   : float)
  : outcome (list float * list float) :=
  let agent := UTMTFT_init axl_init (lit (5 # 10)) alpha_pos alpha_neg delta tau in
  fst (trust_game_loop send ret_good betray_prob ret_bad tau
         (map random (seq 0 (Z.to_nat rounds))) [] [] agent).

(** The parameters of two meters are the same. *)
Definition same_parameters {F} (t t' : TrustMeter F) : Prop :=
  theta t' = theta t /\ alpha_pos t' = alpha_pos t
  /\ alpha_neg t' = alpha_neg t /\ delta t' = delta t.

(** What a strategy of a [UTMPlayer] never writes. *)
Definition keeps_attrs {F Opponent axl_attrs}
  (strategy : Opponent -> Py (UTMPlayer F axl_attrs) Action) : Prop :=
  forall opponent self,
    same_parameters (trust self) (trust (snd (strategy opponent self)))
    /\ threshold (snd (strategy opponent self)) = threshold self
    /\ cls (inner (snd (strategy opponent self))) = cls (inner self).

(** ** More concrete objects for the examples *)

(** [TrustMeter(theta=1.0)] *)
Definition full_meter : TrustMeter float :=
  TrustMeter_init 1%float ALPHA_POS ALPHA_NEG DELTA.

(** The investor of the trust game with [tau = 0.6], above the starting
    trust of 0.5. *)
Definition wary_investor : UTMPlayer float (list Action) :=
  UTMTFT_init lib_init (lit (5 # 10)) ALPHA_POS ALPHA_NEG DELTA (lit (6 # 10)).

(** [UTMTFT(theta=0.5, threshold=1.5)], with one round of mutual
    cooperation behind it. *)
Definition unforgiving_player : UTMPlayer float (list Action) :=
  set_history [C]
    (UTMTFT_init lib_init (lit (5 # 10)) ALPHA_POS ALPHA_NEG DELTA 1.5%float).

(** [TrustMeter(theta=0.5 + 3 * 2**-53)], three places above one half. *)
Definition near_half_meter : TrustMeter float :=
  TrustMeter_init 0x1.0000000000003p-1%float ALPHA_POS ALPHA_NEG DELTA.

(** [TrustMeter(theta=0.5, alpha_pos=1e-17, alpha_neg=1e-17)] *)
Definition tiny_rate_meter : TrustMeter float :=
  TrustMeter_init 0.5%float 1e-17%float 1e-17%float DELTA.

(** ** binary64 on scaled integers

    A double is read as the integer [W x], its value scaled by
    [2^bias]: every finite double, the subnormal ones included, is then
    an integer, an infinity is [cap], and the operations of the update are
    integer operations followed by [rnd], the rounding to nearest even
    with 53 significant bits. *)

Local Close Scope string_scope.

(** Round-half-even of [w / 2^t]. *)
Definition RN (w t : Z) : Z :=
  match 2 * (w mod 2 ^ t) ?= 2 ^ t with
  | Lt => w / 2 ^ t
  | Eq => if Z.even (w / 2 ^ t) then w / 2 ^ t else w / 2 ^ t + 1
  | Gt => w / 2 ^ t + 1
  end.

(** The weight of the last place kept for a positive scaled value. *)
Definition ulp_exp (w : Z) : Z := Z.max (Z.log2 w - 52) 1074.

(** The positive scaled value rounded to 53 significant bits. *)
Definition round53 (w : Z) : Z := RN w (ulp_exp w) * 2 ^ ulp_exp w.

Definition bias : Z := 2148.

Definition cap : Z := 2 ^ (1024 + bias).

Definition W (x : spec_float) : Z :=
  match x with
  | S754_zero _ => 0
  | S754_infinity s => cond_Zopp s cap
  | S754_nan => 0
  | S754_finite s m e => cond_Zopp s (Zpos m * 2 ^ (e + bias))
  end.

Definition rnd_pos (w : Z) : Z := Z.min (round53 w) cap.

(** The float that the rounding returns for the rounded mantissa [m1] at
    the exponent [E]. *)
Definition rounded (s : bool) (m1 E : Z) : spec_float :=
  match m1 with
  | Z0 => S754_zero s
  | Zpos p =>
      if m1 =? 2 ^ 53 then
        if E + 1 <=? emax - prec then S754_finite s (2 ^ 52) (E + 1)
        else S754_infinity s
      else if E <=? emax - prec then S754_finite s p E
      else S754_infinity s
  | Zneg _ => S754_nan
  end.

(** The scaled value rounded to binary64, overflow going to [cap]. *)
Definition rnd (w : Z) : Z :=
  if w <? 0 then - rnd_pos (- w) else rnd_pos w.

(** The scaled value of a double. *)
Definition Wf (x : float) : Z := W (Prim2SF x).

Definition not_nan (x : float) : bool :=
  match Prim2SF x with S754_nan => false | _ => true end.

Ltac solve_cmp :=
  cbn [cond_Zopp]; symmetry;
  first [ apply Z.compare_eq_iff; lia
        | apply Z.compare_lt_iff; lia
        | apply Z.compare_gt_iff; lia ].

Local Open Scope string_scope.
(** ** Facts on binary64 comparisons *)

Lemma SFcompare_antisym x y :
  SFcompare y x = option_map CompOpp (SFcompare x y).
Proof.
  destruct x as [sx|sx| |sx mx ex], y as [sy|sy| |sy my ey]; simpl;
    try reflexivity;
    try (destruct sx; reflexivity); try (destruct sy; reflexivity);
    try (destruct sx, sy; reflexivity).
  destruct sx, sy; simpl; try reflexivity.
  all: rewrite (Z.compare_antisym ex ey);
    destruct (ex ?= ey)%Z; simpl; try reflexivity.
  all: change (Pos.compare_cont Eq my mx) with (Pos.compare my mx);
    change (Pos.compare_cont Eq mx my) with (Pos.compare mx my);
    rewrite (Pos.compare_antisym mx my);
    destruct (mx ?= my)%positive; reflexivity.
Qed.

Lemma ltb_leb (x y : float) : PrimFloat.ltb x y = true -> PrimFloat.leb x y = true.
Proof.
  rewrite ltb_spec, leb_spec. unfold SFltb, SFleb.
  destruct (SFcompare _ _) as [[]|]; congruence.
Qed.

Lemma ltb_asym (x y : float) : PrimFloat.ltb x y = true -> PrimFloat.ltb y x = false.
Proof.
  rewrite !ltb_spec. unfold SFltb.
  rewrite (SFcompare_antisym (Prim2SF x) (Prim2SF y)).
  destruct (SFcompare _ _) as [[]|]; simpl; congruence.
Qed.

Lemma flt_asym (x y : float) : (x <. y) = true -> (y <. x) = false.
Proof. exact (ltb_asym x y). Qed.

Lemma lit0_binary64 : lit (F := float) 0 = 0%float.
Proof. reflexivity. Qed.

Lemma lit1_binary64 : lit (F := float) 1 = 1%float.
Proof. reflexivity. Qed.

(** The clamp of any double, NaN and the infinities included, is in [0, 1]. *)
Lemma clamp_in_unit (x : float) : in_unit (clamp x) = true.
Proof.
  unfold in_unit, clamp, pymax, pymin. cbn [fle flt binary64].
  rewrite lit0_binary64, lit1_binary64.
  destruct (PrimFloat.ltb x 1) eqn:E1.
  - destruct (PrimFloat.ltb 0 x) eqn:E2.
    + now rewrite (ltb_leb _ _ E1), (ltb_leb _ _ E2).
    + reflexivity.
  - reflexivity.
Qed.

(** ** The update rule, unfolded *)

Section observe_facts.
Context {F : Type} `{PyFloat F}.

Lemma observe_eq (reward severity : F) (self : TrustMeter F) :
  observe reward severity self =
  if reward ==. lit 0
  then (Raise (ValueError "reward must be non-zero"), self)
  else match of_int (_betrayals (bump reward self)) with
       | Raise e => (Raise e, bump reward self)
       | Return n =>
           (Return tt,
            set_trust
              (clamp (_trust self +.
                      pick_alpha reward self
                      *. (severity *. (lit 1 +. n *. delta self))
                      *. (reward -. _trust self)))
              (bump reward self))
       end.
Proof.
  unfold observe, bump, pick_alpha, clamp, factor.
  destruct (reward ==. lit 0); [reflexivity|].
  unfold bind, get, modify, lift, ret, put; simpl.
  destruct (reward <. _trust self); simpl;
    destruct (of_int _); reflexivity.
Qed.

Lemma bump_trust reward self : _trust (bump reward self) = _trust self.
Proof. unfold bump. now destruct (reward <. _trust self). Qed.

Lemma bump_betrayals reward self :
  _betrayals (bump reward self) =
  if reward <. _trust self then _betrayals self + 1 else _betrayals self.
Proof. unfold bump. now destruct (reward <. _trust self). Qed.

End observe_facts.

(** ** Boundedness *)

Lemma observe_in_unit_success (reward severity : float) self self' :
  observe reward severity self = (Return tt, self') ->
  in_unit (value self') = true.
Proof.
  rewrite observe_eq. destruct (reward ==. lit 0); [discriminate|].
  destruct (of_int _); [|discriminate].
  intros [= <-]. apply clamp_in_unit.
Qed.

Lemma observe_in_unit (reward severity : float) self :
  in_unit (value self) = true ->
  in_unit (value (snd (observe reward severity self))) = true.
Proof.
  intros Hin. rewrite observe_eq.
  destruct (reward ==. lit 0); [exact Hin|].
  destruct (of_int _); simpl.
  - apply clamp_in_unit.
  - unfold value. now rewrite bump_trust.
Qed.

(** C1. A meter built with a baseline in [0, 1] keeps its value in
    [0.0, 1.0] after every call of any finite sequence of [observe] calls
    with a non-zero reward, whatever the severities. *)
Theorem trust_bounded (theta alpha_pos alpha_neg delta : float)
  (calls : list (float * float)) :
  in_unit theta = true ->
  Forall (fun c => (fst c ==. lit 0) = false) calls ->
  Forall (fun res => in_unit (value (snd res)) = true)
         (observe_each calls (TrustMeter_init theta alpha_pos alpha_neg delta)).
Proof.
  intros Htheta _.
  assert (Hinit : in_unit (value (TrustMeter_init theta alpha_pos alpha_neg delta))
                  = true) by exact Htheta.
  revert Hinit. generalize (TrustMeter_init theta alpha_pos alpha_neg delta).
  induction calls as [|[reward severity] rest IH]; intros self Hin; simpl.
  - constructor.
  - constructor.
    + now apply observe_in_unit.
    + apply IH. now apply observe_in_unit.
Qed.

(** ** Zero reward *)

(** C4. [observe(0.0, severity)] raises [ValueError] for every meter and
    every severity, and the meter it leaves is the meter it found: trust
    and betrayal count are untouched.  The negative zero compares equal to
    [0] and is rejected alike. *)
Theorem zero_reward_rejected (severity : float) (self : TrustMeter float) :
  observe 0%float severity self
  = (Raise (ValueError "reward must be non-zero"), self)
  /\ observe (-0)%float severity self
     = (Raise (ValueError "reward must be non-zero"), self).
Proof. split; rewrite observe_eq; reflexivity. Qed.

(** ** The reward table *)

Lemma payoff_outside {F} `{PyFloat F} (my_move opp_move : string) :
  (my_move, opp_move) ∉ reward_keys ->
  payoff_to_signed_reward (F := F) my_move opp_move
  = Raise (ValueError "move must be 'C' or 'D'").
Proof.
  unfold reward_keys. rewrite !not_elem_of_cons. intros (H1 & H2 & H3 & H4 & _).
  unfold payoff_to_signed_reward, dict_getitem, _REWARD_TABLE.
  rewrite !lookup_insert_ne by congruence.
  now rewrite lookup_empty.
Qed.

(** C6. The table is exact on its four keys and every other pair of
    strings raises [ValueError]. *)
Theorem reward_table_exact :
  payoff_to_signed_reward "C" "C" = Return 1%float
  /\ payoff_to_signed_reward "D" "C" = Return 0.5%float
  /\ payoff_to_signed_reward "D" "D" = Return (-0.2)%float
  /\ payoff_to_signed_reward "C" "D" = Return (-1)%float
  /\ forall my_move opp_move : string,
       (my_move, opp_move) ∉ reward_keys ->
       payoff_to_signed_reward (F := float) my_move opp_move
       = Raise (ValueError "move must be 'C' or 'D'").
Proof.
  repeat split; try (vm_compute; reflexivity).
  intros my_move opp_move. apply payoff_outside.
Qed.

Lemma reward_table_exact_witness :
  (("X", "C") ∉ reward_keys)
  /\ payoff_to_signed_reward (F := float) "X" "C"
     = Raise (ValueError "move must be 'C' or 'D'").
Proof.
  assert (Hout : ("X", "C") ∉ reward_keys).
  { unfold reward_keys. rewrite !not_elem_of_cons.
    repeat split; try discriminate. apply not_elem_of_nil. }
  split; [exact Hout|].
  exact (proj2 (proj2 (proj2 (proj2 reward_table_exact))) "X" "C" Hout).
Defined.

(** ** The betrayal counter *)

Lemma observe_betrayals_le {F} `{PyFloat F} (reward severity : F) self :
  _betrayals self <= _betrayals (snd (observe reward severity self)).
Proof.
  rewrite observe_eq. destruct (reward ==. lit 0); simpl; [lia|].
  destruct (of_int _); simpl; rewrite bump_betrayals;
    destruct (reward <. _trust self); lia.
Qed.

Lemma betrayal_counts_sorted {F} `{PyFloat F} (calls : list (F * F)) self :
  StronglySorted Z.le (betrayal_counts calls self).
Proof.
  unfold betrayal_counts. revert self.
  induction calls as [|[reward severity] rest IH]; intros self; simpl.
  - repeat constructor.
  - pose proof (observe_betrayals_le reward severity self) as Hle.
    specialize (IH (snd (observe reward severity self))).
    constructor; [exact IH|].
    inversion IH as [|? ? _ Hall]; subst.
    constructor; [exact Hle|].
    eapply Forall_impl; [exact Hall|]. simpl. intros; lia.
Qed.

(** C7. The counter is 0 after [reset()]; along any sequence of [observe]
    calls it never decreases; a call that returns has added exactly 1 when
    the reward was strictly below the trust it found and nothing otherwise;
    and in the first case the new trust is computed with [alpha_neg] and
    the factor [severity * (1 + n * delta)] in which [n] is the counter
    already incremented. *)
Theorem betrayal_counter (self : TrustMeter float) :
  _betrayals (snd (reset self)) = 0
  /\ (forall calls, StronglySorted Z.le (betrayal_counts calls self))
  /\ (forall reward severity self',
        observe reward severity self = (Return tt, self') ->
        _betrayals self'
        = (if reward <. _trust self then _betrayals self + 1
           else _betrayals self)
        /\ ((reward <. _trust self) = true ->
            exists n, of_int (_betrayals self + 1) = Return n
              /\ _trust self'
                 = clamp (_trust self +.
                          alpha_neg self
                          *. (severity *. (lit 1 +. n *. delta self))
                          *. (reward -. _trust self)))).
Proof.
  split; [reflexivity|]. split; [intros; apply betrayal_counts_sorted|].
  intros reward severity self'. rewrite observe_eq.
  destruct (reward ==. lit 0); [discriminate|].
  destruct (of_int _) as [n|] eqn:En; [|discriminate].
  intros [= <-]. split.
  - exact (bump_betrayals reward self).
  - intros Hlt. rewrite bump_betrayals, Hlt in En.
    exists n. split; [exact En|].
    cbn [_trust set_trust]. unfold pick_alpha.
    now rewrite (flt_asym _ _ Hlt).
Qed.

(** ** Construction *)

(** C10. The constructor stores any baseline as the trust, unclamped, so a
    baseline outside [0, 1] breaks the bound before the first update; and
    whatever the baseline, the trust is in [0, 1] after one [observe] call
    that returns. *)
Theorem construction_unvalidated :
  (forall theta alpha_pos alpha_neg delta : float,
      value (TrustMeter_init theta alpha_pos alpha_neg delta) = theta)
  /\ in_unit (value (TrustMeter_init 1.5%float ALPHA_POS ALPHA_NEG DELTA)) = false
  /\ in_unit (value (TrustMeter_init (-0.5)%float ALPHA_POS ALPHA_NEG DELTA)) = false
  /\ (forall (theta alpha_pos alpha_neg delta reward severity : float) self',
        observe reward severity (TrustMeter_init theta alpha_pos alpha_neg delta)
        = (Return tt, self') ->
        in_unit (value self') = true).
Proof.
  split; [reflexivity|]. split; [reflexivity|]. split; [reflexivity|].
  intros theta alpha_pos alpha_neg delta reward severity self'.
  apply observe_in_unit_success.
Qed.

(** ** Conversion of the counter *)

Lemma digits2_pos_size p : digits2_pos p = Pos.size p.
Proof. induction p; simpl; congruence. Qed.

Lemma digits2_pos_iter m d :
  digits2_pos (Pos.iter xO m d) = (digits2_pos m + d)%positive.
Proof.
  induction d using Pos.peano_ind.
  - simpl. lia.
  - rewrite Pos.iter_succ. simpl. rewrite IHd. lia.
Qed.

Lemma size_bound p k : Zpos p < 2 ^ k -> 0 <= k -> Zpos (Pos.size p) <= k.
Proof.
  intros Hp Hk.
  pose proof (Pos.size_le p) as Hle.
  assert (H2 : 2 ^ Zpos (Pos.size p) <= 2 * Zpos p).
  { rewrite <- Pos2Z.inj_pow. change 2 with (Zpos 2).
    rewrite <- Pos2Z.inj_mul. apply Pos2Z.pos_le_pos. exact Hle. }
  destruct (Z_le_gt_dec (Zpos (Pos.size p)) k) as [|Hgt]; [assumption|].
  exfalso.
  assert (Hpow : 2 ^ (k + 1) <= 2 ^ Zpos (Pos.size p))
    by (apply Z.pow_le_mono_r; lia).
  replace (k + 1) with (Z.succ k) in Hpow by lia.
  rewrite Z.pow_succ_r in Hpow by lia. lia.
Qed.

(** A mantissa already in canonical position is rounded to itself. *)
Lemma binary_round_aux_canonical s m e :
  fexp prec emax (Zpos (digits2_pos m) + e) = e ->
  e <= emax - prec ->
  binary_round_aux prec emax s (Zpos m) e loc_Exact = S754_finite s m e.
Proof.
  intros Hc He.
  unfold binary_round_aux, shr_fexp.
  change (Zdigits2 (Z.pos m)) with (Zpos (digits2_pos m)).
  rewrite Hc, Z.sub_diag.
  cbv beta iota delta [shr shr_record_of_loc shr_m loc_of_shr_record
                       round_nearest_even shr_r shr_s].
  change (Zdigits2 (Z.pos m)) with (Zpos (digits2_pos m)).
  rewrite Hc, Z.sub_diag.
  cbv beta iota.
  apply Z.leb_le in He. now rewrite He.
Qed.

Lemma Z2SF_small n : 0 <= n < 2 ^ 53 -> is_finite_SF (Z2SF n) = true.
Proof.
  intros [H0 H1]. destruct n as [|p|p]; [reflexivity| |lia].
  unfold Z2SF, binary_normalize, binary_round.
  assert (Hd : Zpos (digits2_pos p) <= 53).
  { rewrite digits2_pos_size. apply size_bound; lia. }
  assert (Hf : fexp prec emax (Zpos (digits2_pos p) + 0)
               = Zpos (digits2_pos p) - 53).
  { unfold fexp, emin, prec, emax. lia. }
  rewrite Hf. unfold shl_align.
  destruct (Z.pos (digits2_pos p) - 53 - 0) as [|q|q] eqn:Eq; try lia.
  - rewrite binary_round_aux_canonical; [reflexivity| |unfold emax, prec; lia].
    unfold fexp, emin, prec, emax. lia.
  - rewrite binary_round_aux_canonical; [reflexivity| |unfold emax, prec; lia].
    rewrite digits2_pos_iter. unfold fexp, emin, prec, emax. lia.
Qed.

(** Below [2^53] the counter converts, and exactly. *)
Lemma of_int_small n :
  0 <= n < 2 ^ 53 -> of_int (F := float) n = Return (SF2Prim (Z2SF n)).
Proof. intros Hn. cbn [of_int binary64]. now rewrite Z2SF_small. Qed.

(** With a non-zero reward and a counter below [2^53 - 1], [observe]
    returns. *)
Lemma observe_returns (reward severity : float) self :
  (reward ==. lit 0) = false ->
  0 <= _betrayals self < 2 ^ 53 - 1 ->
  fst (observe reward severity self) = Return tt.
Proof.
  intros Hnz Hn. rewrite observe_eq, Hnz.
  rewrite of_int_small; [reflexivity|].
  rewrite bump_betrayals. destruct (reward <. _trust self); lia.
Qed.

(** ** The gated strategies *)

Lemma payoff_of_actions {F} `{PyFloat F} (my_move opp_move : Action) :
  payoff_to_signed_reward (str my_move) (str opp_move)
  = Return (reward_of my_move opp_move).
Proof. destruct my_move, opp_move; reflexivity. Qed.

Lemma reward_of_nonzero (my_move opp_move : Action) :
  (reward_of (F := float) my_move opp_move ==. lit 0) = false.
Proof. destruct my_move, opp_move; reflexivity. Qed.

Lemma index_last_snoc {A} (xs : list A) (x : A) :
  index_last (xs ++ [x])%list = Return x.
Proof. unfold index_last. now rewrite last_snoc. Qed.

Lemma nonempty_snoc {A} (xs : list A) (x : A) : nonempty (xs ++ [x])%list = true.
Proof. now destruct xs. Qed.

Section gated_strategies.
Context {F : Type} `{PyFloat F}.
Variable Opponent : Type.
Variable opp_history : Opponent -> list Action.
Variable axl_attrs : Type.
Variable axl_strategy : axl_class -> Opponent -> Py axl_attrs Action.

Lemma UTMTFT_gated_round :
  gated_round opp_history axl_strategy
    (UTMTFT_strategy opp_history axl_strategy).
Proof.
  intros opponent self. split.
  - intros Hh. unfold UTMTFT_strategy, bind, get, on_attr, ret, gate.
    rewrite Hh. cbn [nonempty].
    destruct (inner_strategy axl_strategy opponent (inner self)) as [[m|e] p] eqn:Ei.
    + cbn. split; [now destruct (_ <. _)|].
      intros proposed p' [= <- <-]. now destruct (_ <. _).
    + cbn. split; [reflexivity|]. intros; discriminate.
  - intros h last_my ho last_opp Hh Ho updated.
    split; [apply payoff_of_actions|].
    unfold UTMTFT_strategy, bind, get, on_attr, ret, lift, gate.
    rewrite Hh, Ho, nonempty_snoc, !index_last_snoc, payoff_of_actions.
    fold updated.
    destruct updated as [[[]|e] t'] eqn:Eu;
      cbn [fst snd inner trust threshold set_trust_of].
    + destruct (inner_strategy axl_strategy opponent (inner self)) as [[m|e] p] eqn:Ei.
      * cbn. split; [now destruct (_ <. _)|].
        intros proposed p' _ [= <- <-]. now destruct (_ <. _).
      * cbn. split; [reflexivity|]. intros; discriminate.
    + split; [reflexivity|]. intros; discriminate.
Qed.

Lemma UTMWSLS_gated_round :
  gated_round opp_history axl_strategy
    (UTMWSLS_strategy opp_history axl_strategy).
Proof.
  intros opponent self. split.
  - intros Hh. unfold UTMWSLS_strategy, bind, get, on_attr, ret, gate.
    rewrite Hh. cbn [nonempty].
    destruct (inner_strategy axl_strategy opponent (inner self)) as [[m|e] p] eqn:Ei.
    + cbn. split; [reflexivity|].
      now intros proposed p' [= <- <-].
    + cbn. split; [reflexivity|]. intros; discriminate.
  - intros h last_my ho last_opp Hh Ho updated.
    split; [apply payoff_of_actions|].
    unfold UTMWSLS_strategy, bind, get, on_attr, ret, lift, gate.
    rewrite Hh, Ho, nonempty_snoc, !index_last_snoc, payoff_of_actions.
    fold updated.
    destruct updated as [[[]|e] t'] eqn:Eu;
      cbn [fst snd inner trust threshold set_trust_of].
    + destruct (inner_strategy axl_strategy opponent (inner self)) as [[m|e] p] eqn:Ei.
      * cbn. split; [reflexivity|].
        now intros proposed p' _ [= <- <-].
      * cbn. split; [reflexivity|]. intros; discriminate.
    + split; [reflexivity|]. intros; discriminate.
Qed.

End gated_strategies.

(** C2. For [UTMTFT] and [UTMWSLS] alike, a call of [strategy] with an
    empty history leaves the meter alone; with a history it leaves the meter
    a single [observe] of the mapped reward of the last round leaves; the
    move returned is Defect when the trust after that update is strictly
    below the threshold and the move of the inner strategy otherwise.  The
    mapped reward is never zero, so with a counter below [2^53 - 1] the
    update returns. *)
Theorem gated_strategy_round (Opponent : Type)
  (opp_history : Opponent -> list Action) (axl_attrs : Type)
  (axl_strategy : axl_class -> Opponent -> Py axl_attrs Action) :
  gated_round (F := float) opp_history axl_strategy
    (UTMTFT_strategy opp_history axl_strategy)
  /\ gated_round (F := float) opp_history axl_strategy
       (UTMWSLS_strategy opp_history axl_strategy)
  /\ forall (last_my last_opp : Action) (meter : TrustMeter float),
       0 <= _betrayals meter < 2 ^ 53 - 1 ->
       fst (observe (reward_of last_my last_opp) (lit 1) meter) = Return tt.
Proof.
  split; [apply UTMTFT_gated_round|]. split; [apply UTMWSLS_gated_round|].
  intros last_my last_opp meter Hn.
  apply observe_returns; [apply reward_of_nonzero|exact Hn].
Qed.

(** ** The hybrid strategy *)

Section hybrid.
Context {F : Type} `{PyFloat F}.
Variable Opponent : Type.
Variable opp_history : Opponent -> list Action.
Variable axl_attrs : Type.
Variable axl_init : axl_class -> axl_attrs.
Variable axl_strategy : axl_class -> Opponent -> Py axl_attrs Action.

Local Abbreviation strategy :=
  (UTMTFT_WSLS_strategy opp_history axl_init axl_strategy).

Lemma inner_strategy_cls opponent (p : axl_Player axl_attrs) :
  cls (snd (inner_strategy axl_strategy opponent p)) = cls p.
Proof.
  unfold inner_strategy, bind, get, on_attr.
  now destruct (axl_strategy (cls p) opponent (attrs p)) as [[m|e] a].
Qed.

Lemma strategy_eq opponent (self : UTMTFT_WSLS F axl_attrs) :
  strategy opponent self =
  match hybrid_update opp_history opponent self with
  | (Raise e, self1) => (Raise e, self1)
  | (Return _, self1) =>
      let self2 := hybrid_promote axl_init self1 in
      match inner_strategy axl_strategy opponent (h_inner self2) with
      | (Return move, p') =>
          (Return (if value (h_trust self2) <. h_threshold self2
                   then D else move),
           h_set_inner p' self2)
      | (Raise e, p') => (Raise e, h_set_inner p' self2)
      end
  end.
Proof.
  unfold UTMTFT_WSLS_strategy, hybrid_update, hybrid_promote.
  unfold bind, get, modify, ret, lift, on_attr.
  destruct (nonempty (h_history self)).
  - destruct (index_last (h_history self)); [|reflexivity].
    destruct (index_last (opp_history opponent)); [|reflexivity].
    destruct (payoff_to_signed_reward _ _); [|reflexivity].
    destruct (observe _ _ _) as [[[]|e] t']; [|reflexivity].
    destruct (_ && _);
      match goal with
      | |- context [inner_strategy axl_strategy opponent ?p] =>
          destruct (inner_strategy axl_strategy opponent p) as [[m|e'] p']
      end; reflexivity.
  - destruct (_ && _);
      match goal with
      | |- context [inner_strategy axl_strategy opponent ?p] =>
          destruct (inner_strategy axl_strategy opponent p) as [[m|e'] p']
      end; reflexivity.
Qed.

Lemma hybrid_update_keeps opponent (self : UTMTFT_WSLS F axl_attrs) :
  promote_at (snd (hybrid_update opp_history opponent self)) = promote_at self
  /\ h_inner (snd (hybrid_update opp_history opponent self)) = h_inner self.
Proof.
  unfold hybrid_update, bind, get, lift, on_attr.
  destruct (nonempty (h_history self)); [|now split].
  destruct (index_last (h_history self)); [|now split].
  destruct (index_last (opp_history opponent)); [|now split].
  destruct (payoff_to_signed_reward _ _); [|now split].
  now destruct (observe _ _ _).
Qed.

(** One call: the threshold of promotion is an attribute no call writes;
    a Win-Stay-Lose-Shift inner player stays one; a Tit-for-Tat inner
    player is replaced only with the value above [promote_at], and is
    replaced whenever the call returns with the value above it. *)
Lemma hybrid_call opponent (self : UTMTFT_WSLS F axl_attrs) :
  promote_at (snd (strategy opponent self)) = promote_at self
  /\ (inner_class self = WinStayLoseShift ->
      inner_class (snd (strategy opponent self)) = WinStayLoseShift)
  /\ (inner_class self = TitForTat ->
      inner_class (snd (strategy opponent self)) = WinStayLoseShift ->
      above_promote (snd (strategy opponent self)) = true)
  /\ (returned (strategy opponent self) = true ->
      above_promote (snd (strategy opponent self)) = true ->
      inner_class (snd (strategy opponent self)) = WinStayLoseShift).
Proof.
  rewrite strategy_eq.
  destruct (hybrid_update_keeps opponent self) as [Hp Hi].
  unfold inner_class, above_promote, returned.
  destruct (hybrid_update opp_history opponent self) as [[[]|e] self1];
    cbn [fst snd] in *;
    [|repeat split; intros; rewrite ?Hi in *; congruence].
  cbv zeta. unfold hybrid_promote, isinstance. rewrite Hi.
  destruct (value (h_trust self1) >. promote_at self1) eqn:Ev;
    destruct (cls (h_inner self)) eqn:Ec; cbn [andb negb axl_class_eqb];
    match goal with
    | |- context [inner_strategy axl_strategy opponent ?p] =>
        pose proof (inner_strategy_cls opponent p) as Hc;
        destruct (inner_strategy axl_strategy opponent p) as [[m|e'] p']
    end;
    cbn [fst snd cls h_inner h_set_inner h_trust promote_at axl_new] in *;
    unfold value in *; rewrite ?Hi, ?Ec in *;
    repeat split; intros; congruence.
Qed.

Lemma class_cases (c : axl_class) : c = TitForTat \/ c = WinStayLoseShift.
Proof. destruct c; auto. Qed.

(** Along a match the class changes at most once, and not at all after
    the promotion. *)
Lemma play_switches rounds (self : UTMTFT_WSLS F axl_attrs) :
  (switches (inner_class self)
     (classes (play opp_history axl_init axl_strategy rounds self))
   <= if axl_class_eqb (inner_class self) WinStayLoseShift then 0 else 1)%nat.
Proof.
  revert self. induction rounds as [|[h opponent] rest IH]; intros self.
  - simpl. destruct (axl_class_eqb _ _); lia.
  - cbn [play classes map switches].
    set (self0 := h_set_history h self).
    destruct (hybrid_call opponent self0) as (_ & Hstay & _ & _).
    specialize (IH (snd (strategy opponent self0))).
    fold (classes (play opp_history axl_init axl_strategy rest
                     (snd (strategy opponent self0)))).
    change (inner_class self0) with (inner_class self) in Hstay.
    cbn [snd] in * .
    destruct (inner_class self) eqn:Ec.
    + destruct (inner_class (snd (strategy opponent self0)));
        cbn [axl_class_eqb] in *; lia.
    + rewrite (Hstay eq_refl) in * . cbn [axl_class_eqb] in * . lia.
Qed.

(** Along a match the inner player is Win-Stay-Lose-Shift after a call
    only if it was before the match or the value was above [promote_at]
    in that call or an earlier one; and it is Win-Stay-Lose-Shift after
    every call from the first that returns with the value above
    [promote_at]. *)
Lemma play_classes rounds (self : UTMTFT_WSLS F axl_attrs) i res :
  play opp_history axl_init axl_strategy rounds self !! i = Some res ->
  (inner_class (snd res) = WinStayLoseShift ->
   inner_class self = WinStayLoseShift
   \/ exists j res_j, (j <= i)%nat
        /\ play opp_history axl_init axl_strategy rounds self !! j = Some res_j
        /\ above_promote (snd res_j) = true)
  /\ (inner_class self = WinStayLoseShift
      \/ (exists j res_j, (j <= i)%nat
           /\ play opp_history axl_init axl_strategy rounds self !! j = Some res_j
           /\ returned res_j = true
           /\ above_promote (snd res_j) = true) ->
      inner_class (snd res) = WinStayLoseShift).
Proof.
  revert self i. induction rounds as [|[h opponent] rest IH]; intros self i.
  - intros Hi. discriminate.
  - cbn [play]. set (self0 := h_set_history h self).
    destruct (hybrid_call opponent self0) as (_ & Hstay & Honly & Hfire).
    change (inner_class self0) with (inner_class self) in Hstay, Honly.
    set (res0 := strategy opponent self0) in * .
    destruct i as [|i]; cbn [lookup list_lookup].
    + intros [= <-]. split.
      * intros Hw. destruct (class_cases (inner_class self)) as [Ht|Hw0];
          [right|now left].
        exists 0%nat, res0. split; [lia|]. split; [reflexivity|].
        now apply Honly.
      * intros [Hw0|(j & res_j & Hj & Hlook & Hret & Hab)]; [now apply Hstay|].
        assert (j = 0%nat) by lia. subst j. injection Hlook as <-.
        now apply Hfire.
    + intros Hi. destruct (IH (snd res0) i Hi) as [Hfwd Hbwd]. split.
      * intros Hw. destruct (Hfwd Hw) as [Hw1|(j & res_j & Hj & Hlook & Hab)].
        -- destruct (class_cases (inner_class self)) as [Ht|Hw0];
             [right|now left].
           exists 0%nat, res0. split; [lia|]. split; [reflexivity|].
           now apply Honly.
        -- right. exists (S j), res_j. split; [lia|]. now split.
      * intros [Hw0|(j & res_j & Hj & Hlook & Hret & Hab)].
        -- apply Hbwd. left. now apply Hstay.
        -- apply Hbwd. destruct j as [|j].
           ++ injection Hlook as <-. left. now apply Hfire.
           ++ right. exists j, res_j. split; [lia|]. now split.
Qed.

(** C5. A hybrid player starts with a Tit-for-Tat inner player, at
    construction and after every [reset()].  Along one match that starts
    so, the class of the inner player changes at most once; after any call
    it is Win-Stay-Lose-Shift only if the value of the meter was strictly
    above [promote_at] in that call or an earlier one, and it is
    Win-Stay-Lose-Shift after every call from the first one that returns
    with the value strictly above [promote_at]. *)
Theorem promotion_one_way :
  (forall theta alpha_pos alpha_neg delta threshold promote_at : F,
      inner_class (UTMTFT_WSLS_init axl_init theta alpha_pos alpha_neg delta
                     threshold promote_at) = TitForTat)
  /\ (forall self : UTMTFT_WSLS F axl_attrs,
        inner_class (snd (UTMTFT_WSLS_reset axl_init self)) = TitForTat)
  /\ (forall (self : UTMTFT_WSLS F axl_attrs) rounds,
        inner_class self = TitForTat ->
        let trace := play opp_history axl_init axl_strategy rounds self in
        (switches TitForTat (classes trace) <= 1)%nat
        /\ forall i res,
             trace !! i = Some res ->
             (inner_class (snd res) = WinStayLoseShift ->
              exists j res_j, (j <= i)%nat /\ trace !! j = Some res_j
                /\ above_promote (snd res_j) = true)
             /\ ((exists j res_j, (j <= i)%nat /\ trace !! j = Some res_j
                   /\ returned res_j = true
                   /\ above_promote (snd res_j) = true) ->
                 inner_class (snd res) = WinStayLoseShift)).
Proof.
  split; [reflexivity|]. split; [reflexivity|].
  intros self rounds Hstart trace. split.
  - pose proof (play_switches rounds self) as Hs.
    rewrite Hstart in Hs. exact Hs.
  - intros i res Hi. destruct (play_classes rounds self i res Hi) as [Hfwd Hbwd].
    split.
    + intros Hw. destruct (Hfwd Hw) as [Hw0|Hex]; [congruence|exact Hex].
    + intros Hex. apply Hbwd. now right.
Qed.

End hybrid.

(** ** Directionality *)

(** With [alpha_pos = 0.0], a rate inside [0, 1], [observe(1.0)] at trust
    0.5 leaves the trust at 0.5. *)
Lemma directionality_fails_at_zero_rate :
  in_unit (alpha_pos zero_rate_meter) = true
  /\ in_unit (alpha_neg zero_rate_meter) = true
  /\ (lit 0 <=. delta zero_rate_meter) = true
  /\ value zero_rate_meter = 0.5%float
  /\ observe 1%float 1%float zero_rate_meter = (Return tt, zero_rate_meter)
  /\ (value zero_rate_meter <. value (after 1%float 1%float zero_rate_meter))
     = false.
Proof. repeat split; vm_compute; reflexivity. Qed.

(** ** Escalation *)


(** ** Severity *)

(** At trust 1.5, above the range, [observe(0.5, 0.0)] returns, counts a
    betrayal and moves the trust to 1.0. *)
Lemma zero_severity_moves_overfull_trust :
  (0.5%float ==. lit 0) = false
  /\ (0.5%float <. value overfull_meter) = true
  /\ fst (observe 0.5%float 0%float overfull_meter) = Return tt
  /\ _betrayals (after 0.5%float 0%float overfull_meter) = 1
  /\ value (after 0.5%float 0%float overfull_meter) = 1%float
  /\ (value (after 0.5%float 0%float overfull_meter) ==. value overfull_meter)
     = false.
Proof. repeat split; vm_compute; reflexivity. Qed.

Lemma Prim2SF_zero : Prim2SF 0%float = S754_zero false.
Proof. reflexivity. Qed.

Lemma Prim2SF_one : Prim2SF 1%float = S754_finite false 4503599627370496 (-52).
Proof. reflexivity. Qed.

(** A double in [0, 1] is a zero or a positive finite number. *)
Lemma in_unit_shape (x : float) :
  in_unit x = true ->
  (exists s, Prim2SF x = S754_zero s)
  \/ (exists m e, Prim2SF x = S754_finite false m e).
Proof.
  unfold in_unit. cbn [fle binary64]. rewrite lit0_binary64, lit1_binary64.
  rewrite !leb_spec, Prim2SF_zero, Prim2SF_one. unfold SFleb.
  intros Hb. apply andb_true_iff in Hb. destruct Hb as [H0 H1].
  destruct (Prim2SF x) as [s|[]| |[] m e]; eauto; discriminate.
Qed.

Lemma mul_zero_l (x y : float) s :
  Prim2SF x = S754_zero s -> is_finite y = true ->
  exists s', Prim2SF (x * y)%float = S754_zero s'.
Proof.
  unfold is_finite. intros Hx Hy. rewrite mul_spec, Hx. unfold SF64mul.
  destruct (Prim2SF y); simpl in *; try discriminate; eauto.
Qed.

Lemma mul_zero_r (x y : float) s :
  is_finite x = true -> Prim2SF y = S754_zero s ->
  exists s', Prim2SF (x * y)%float = S754_zero s'.
Proof.
  unfold is_finite. intros Hx Hy. rewrite mul_spec, Hy. unfold SF64mul.
  destruct (Prim2SF x); simpl in *; try discriminate; eauto.
Qed.

Lemma SFcompare_refl x : x <> S754_nan -> SFcompare x x = Some Eq.
Proof.
  destruct x as [s|[]| |[] m e]; simpl; try reflexivity; try congruence;
    intros _; rewrite Z.compare_refl, Pos.compare_cont_refl; reflexivity.
Qed.

Lemma leb_not_ltb_eqb (x y : float) :
  PrimFloat.leb x y = true -> PrimFloat.ltb x y = false ->
  PrimFloat.eqb x y = true /\ PrimFloat.eqb y x = true.
Proof.
  rewrite leb_spec, ltb_spec, !FloatAxioms.eqb_spec. unfold SFleb, SFltb, SFeqb.
  rewrite (SFcompare_antisym (Prim2SF x) (Prim2SF y)).
  destruct (SFcompare (Prim2SF x) (Prim2SF y)) as [[]|]; simpl;
    try discriminate; auto.
Qed.

(** Clamping a double of [0, 1] gives it back, up to the sign of zero. *)
Lemma clamp_in_unit_fix (t : float) :
  in_unit t = true -> (clamp t ==. t) = true.
Proof.
  intros Hin. pose proof Hin as Hb. unfold in_unit in Hb.
  apply andb_true_iff in Hb. destruct Hb as [H0 H1].
  cbn [fle binary64] in H0, H1. rewrite lit0_binary64 in H0.
  rewrite lit1_binary64 in H1.
  unfold clamp, pymax, pymin. cbn [flt feq binary64].
  rewrite lit0_binary64, lit1_binary64.
  destruct (PrimFloat.ltb t 1) eqn:E1.
  - destruct (PrimFloat.ltb 0 t) eqn:E0.
    + rewrite FloatAxioms.eqb_spec. unfold SFeqb. rewrite SFcompare_refl; [reflexivity|].
      rewrite ltb_spec in E0. unfold SFltb in E0.
      intros Hnan. rewrite Hnan in E0. simpl in E0.
      destruct (Prim2SF 0); discriminate.
    + exact (proj1 (leb_not_ltb_eqb 0 t H0 E0)).
  - change (PrimFloat.ltb 0 1) with true. cbv iota.
    exact (proj2 (leb_not_ltb_eqb t 1 H1 E1)).
Qed.

Lemma clamp_of_zero (x t : float) s s' :
  Prim2SF x = S754_zero s -> Prim2SF t = S754_zero s' -> (clamp x ==. t) = true.
Proof.
  intros Hx Ht. unfold clamp, pymax, pymin. cbn [flt feq binary64].
  rewrite lit0_binary64, lit1_binary64.
  rewrite (ltb_spec x 1), Hx, Prim2SF_one.
  change (SFltb (S754_zero s) (S754_finite false 4503599627370496 (-52)))
    with true. cbv iota.
  rewrite ltb_spec, Hx, Prim2SF_zero.
  change (SFltb (S754_zero false) (S754_zero s)) with false. cbv iota.
  rewrite FloatAxioms.eqb_spec, Ht, Prim2SF_zero. reflexivity.
Qed.

(** Adding a zero to a double of [0, 1] and clamping gives it back. *)
Lemma clamp_add_zero (t z : float) s :
  in_unit t = true -> Prim2SF z = S754_zero s -> (clamp (t + z)%float ==. t) = true.
Proof.
  intros Hin Hz.
  destruct (in_unit_shape t Hin) as [[st Ht]|(m & e & Ht)].
  - assert (Hsum : exists s', Prim2SF (t + z)%float = S754_zero s').
    { rewrite add_spec, Ht, Hz. destruct st, s; simpl; eauto. }
    destruct Hsum as [s' Hsum]. eapply clamp_of_zero; eassumption.
  - assert (Hsum : (t + z)%float = t).
    { apply Prim2SF_inj. rewrite add_spec, Ht, Hz. reflexivity. }
    rewrite Hsum. now apply clamp_in_unit_fix.
Qed.

Lemma binary_round_aux_opp s m e l :
  binary_round_aux prec emax (negb s) m e l
  = SFopp (binary_round_aux prec emax s m e l).
Proof.
  unfold binary_round_aux.
  destruct (shr_fexp prec emax m e l) as [mrs' e'].
  destruct (shr_fexp prec emax _ e' loc_Exact) as [mrs'' e''].
  destruct (shr_m mrs''); try reflexivity.
  destruct (Z.leb e'' (emax - prec)); reflexivity.
Qed.

Lemma SFmul_opp_l x y :
  SFmul prec emax (SFopp x) y = SFopp (SFmul prec emax x y).
Proof.
  destruct x as [sx|sx| |sx mx ex], y as [sy|sy| |sy my ey]; simpl;
    try reflexivity; try (now rewrite negb_xorb_l).
  rewrite <- binary_round_aux_opp. now rewrite negb_xorb_l.
Qed.

Lemma SFmul_opp_r x y :
  SFmul prec emax x (SFopp y) = SFopp (SFmul prec emax x y).
Proof.
  destruct x as [sx|sx| |sx mx ex], y as [sy|sy| |sy my ey]; simpl;
    try reflexivity; try (now rewrite negb_xorb_r).
  rewrite <- binary_round_aux_opp. now rewrite negb_xorb_r.
Qed.

Lemma mul_opp_l (x y : float) : (- x * y = - (x * y))%float.
Proof.
  apply Prim2SF_inj. rewrite opp_spec, !mul_spec, opp_spec.
  apply SFmul_opp_l.
Qed.

Lemma mul_opp_r (x y : float) : (x * - y = - (x * y))%float.
Proof.
  apply Prim2SF_inj. rewrite opp_spec, !mul_spec, opp_spec.
  apply SFmul_opp_r.
Qed.

(** Negating the severity negates the change, exactly. *)
Lemma delta_t_opp (reward severity n : float) self :
  delta_t reward (- severity)%float n self
  = (- delta_t reward severity n self)%float.
Proof.
  unfold delta_t. cbn [fmul binary64].
  now rewrite mul_opp_l, mul_opp_r, mul_opp_l.
Qed.

Lemma observe_delta_t {F} `{PyFloat F} (reward severity n : F) self :
  (reward ==. lit 0) = false ->
  of_int (_betrayals (bump reward self)) = Return n ->
  observe reward severity self
  = (Return tt,
     set_trust (clamp (_trust self +. delta_t reward severity n self))
       (bump reward self)).
Proof. intros Hnz Hn. now rewrite observe_eq, Hnz, Hn. Qed.

(** C9, amended.  [observe] takes any severity.  With severity 0.0, on a
    meter whose trust is in [0, 1], for a non-zero reward strictly below the
    trust and as long as the rate, the amplification and the gap
    [reward - trust] are finite, the call returns, adds 1 to the counter
    and leaves the trust equal to what it was.  With a negated severity the
    call returns alike and the change added to the trust before clamping is
    the exact negation. *)
Theorem severity_unvalidated (self : TrustMeter float) (reward : float) :
  (forall n : float,
      in_unit (_trust self) = true ->
      (reward ==. lit 0) = false ->
      (reward <. _trust self) = true ->
      of_int (_betrayals self + 1) = Return n ->
      is_finite (alpha_neg self) = true ->
      is_finite (lit 1 +. n *. delta self) = true ->
      is_finite (reward -. _trust self) = true ->
      fst (observe reward 0%float self) = Return tt
      /\ _betrayals (after reward 0%float self) = _betrayals self + 1
      /\ (value (after reward 0%float self) ==. value self) = true)
  /\ (forall severity n : float,
        (reward ==. lit 0) = false ->
        of_int (_betrayals (bump reward self)) = Return n ->
        observe reward severity self
        = (Return tt,
           set_trust (clamp (_trust self +. delta_t reward severity n self))
             (bump reward self))
        /\ observe reward (- severity)%float self
           = (Return tt,
              set_trust
                (clamp (_trust self +. (- delta_t reward severity n self)%float))
                (bump reward self))).
Proof.
  split.
  - intros n Hin Hnz Hlt Hn Ha Hk Hg.
    assert (Hb : bump reward self = set_betrayals (_betrayals self + 1) self)
      by (unfold bump; now rewrite Hlt).
    assert (Hn' : of_int (_betrayals (bump reward self)) = Return n)
      by (now rewrite Hb).
    unfold after. rewrite (observe_delta_t reward 0%float n self Hnz Hn').
    cbn [fst snd]. split; [reflexivity|]. rewrite Hb.
    split; [reflexivity|]. unfold value. cbn [_trust set_trust].
    assert (Hpick : pick_alpha reward self = alpha_neg self)
      by (unfold pick_alpha; now rewrite (flt_asym _ _ Hlt)).
    unfold delta_t. rewrite Hpick. cbn [fadd fmul fsub binary64] in * .
    destruct (mul_zero_l 0%float _ false Prim2SF_zero Hk) as [s1 H1].
    destruct (mul_zero_r _ _ s1 Ha H1) as [s2 H2].
    destruct (mul_zero_l _ _ s2 H2 Hg) as [s3 H3].
    exact (clamp_add_zero _ _ s3 Hin H3).
  - intros severity n Hnz Hn. split.
    + now apply observe_delta_t.
    + rewrite (observe_delta_t reward (- severity)%float n self Hnz Hn).
      now rewrite delta_t_opp.
Qed.

(** ** The theorems at concrete inputs *)

Example default_meter_up :
  observe 1%float 1%float default_meter
  = (Return tt, set_trust 0.525%float default_meter).
Proof. vm_compute. reflexivity. Qed.

Example default_meter_down :
  observe (-1)%float 1%float default_meter
  = (Return tt, set_trust 0%float (set_betrayals 1 default_meter)).
Proof. vm_compute. reflexivity. Qed.

Example hybrid_promotes_on_fifth_call :
  classes (play lib_history lib_init lib_strategy cooperative_rounds
             default_hybrid)
  = [TitForTat; TitForTat; TitForTat; TitForTat;
     WinStayLoseShift; WinStayLoseShift].
Proof. vm_compute. reflexivity. Qed.

Example UTMTFT_first_move :
  fst (UTMTFT_strategy lib_history lib_strategy [] default_UTMTFT) = Return C.
Proof. vm_compute. reflexivity. Qed.

Example UTMTFT_defects_after_betrayal :
  fst (UTMTFT_strategy lib_history lib_strategy [D]
         (set_history [C] default_UTMTFT)) = Return D.
Proof. vm_compute. reflexivity. Qed.

Lemma trust_bounded_witness :
  in_unit 0.5%float = true
  /\ Forall (fun c => (fst c ==. lit 0) = false)
       [(1%float, 1%float); ((-1)%float, 1%float); (0.5%float, 2%float)]
  /\ Forall (fun res => in_unit (value (snd res)) = true)
       (observe_each
          [(1%float, 1%float); ((-1)%float, 1%float); (0.5%float, 2%float)]
          (TrustMeter_init 0.5%float ALPHA_POS ALPHA_NEG DELTA)).
Proof.
  assert (Htheta : in_unit 0.5%float = true) by reflexivity.
  assert (Hcalls : Forall (fun c : float * float => (fst c ==. lit 0) = false)
            [(1%float, 1%float); ((-1)%float, 1%float); (0.5%float, 2%float)]).
  { repeat constructor. }
  split; [exact Htheta|]. split; [exact Hcalls|].
  exact (trust_bounded 0.5%float ALPHA_POS ALPHA_NEG DELTA _ Htheta Hcalls).
Defined.

Lemma betrayal_counter_witness :
  observe (-1)%float 1%float default_meter
  = (Return tt, set_trust 0%float (set_betrayals 1 default_meter))
  /\ ((-1)%float <. _trust default_meter) = true
  /\ _betrayals (set_trust 0%float (set_betrayals 1 default_meter))
     = (if (-1)%float <. _trust default_meter
        then _betrayals default_meter + 1 else _betrayals default_meter)
  /\ exists n, of_int (_betrayals default_meter + 1) = Return n
       /\ _trust (set_trust 0%float (set_betrayals 1 default_meter))
          = clamp (_trust default_meter +.
                   alpha_neg default_meter
                   *. (1%float *. (lit 1 +. n *. delta default_meter))
                   *. ((-1)%float -. _trust default_meter)).
Proof.
  assert (Hcall : observe (-1)%float 1%float default_meter
                  = (Return tt, set_trust 0%float (set_betrayals 1 default_meter)))
    by (vm_compute; reflexivity).
  assert (Hlt : ((-1)%float <. _trust default_meter) = true) by reflexivity.
  destruct (proj2 (proj2 (betrayal_counter default_meter))
              (-1)%float 1%float _ Hcall) as [Hcount Hfactor].
  split; [exact Hcall|]. split; [exact Hlt|]. split; [exact Hcount|].
  exact (Hfactor Hlt).
Defined.

Lemma construction_unvalidated_witness :
  observe 1%float 1%float overfull_meter
  = (Return tt, set_trust 1%float (set_betrayals 1 overfull_meter))
  /\ in_unit (value overfull_meter) = false
  /\ in_unit (value (set_trust 1%float (set_betrayals 1 overfull_meter))) = true.
Proof.
  assert (Hcall : observe 1%float 1%float overfull_meter
                  = (Return tt, set_trust 1%float (set_betrayals 1 overfull_meter)))
    by (vm_compute; reflexivity).
  split; [exact Hcall|]. split; [reflexivity|].
  exact (proj2 (proj2 (proj2 construction_unvalidated))
           1.5%float ALPHA_POS ALPHA_NEG DELTA 1%float 1%float _ Hcall).
Defined.

Lemma gated_strategy_round_witness :
  0 <= _betrayals default_meter < 2 ^ 53 - 1
  /\ fst (observe (reward_of C D) (lit 1) default_meter) = Return tt
  /\ gated_round lib_history lib_strategy
       (UTMTFT_strategy (F := float) lib_history lib_strategy).
Proof.
  assert (Hn : 0 <= _betrayals default_meter < 2 ^ 53 - 1)
    by (vm_compute; split; [discriminate|reflexivity]).
  split; [exact Hn|]. split.
  - exact (proj2 (proj2 (gated_strategy_round (list Action) lib_history
                           (list Action) lib_strategy))
             C D default_meter Hn).
  - exact (proj1 (gated_strategy_round (list Action) lib_history
                    (list Action) lib_strategy)).
Defined.

Lemma promotion_one_way_witness :
  inner_class default_hybrid = TitForTat
  /\ (switches TitForTat
        (classes (play lib_history lib_init lib_strategy cooperative_rounds
                    default_hybrid)) <= 1)%nat.
Proof.
  assert (Hstart : inner_class default_hybrid = TitForTat) by reflexivity.
  split; [exact Hstart|].
  exact (proj1 (proj2 (proj2 (promotion_one_way (list Action) lib_history
                                (list Action) lib_init lib_strategy))
                  default_hybrid cooperative_rounds Hstart)).
Defined.

Lemma severity_unvalidated_witness :
  fst (observe (-1)%float 0%float default_meter) = Return tt
  /\ _betrayals (after (-1)%float 0%float default_meter)
     = _betrayals default_meter + 1
  /\ (value (after (-1)%float 0%float default_meter) ==. value default_meter)
     = true.
Proof.
  assert (Hin : in_unit (_trust default_meter) = true) by reflexivity.
  assert (Hnz : ((-1)%float ==. lit 0) = false) by reflexivity.
  assert (Hlt : ((-1)%float <. _trust default_meter) = true) by reflexivity.
  assert (Hn : of_int (_betrayals default_meter + 1) = Return 1%float)
    by reflexivity.
  assert (Ha : is_finite (alpha_neg default_meter) = true) by reflexivity.
  assert (Hk : is_finite (lit 1 +. 1%float *. delta default_meter) = true)
    by reflexivity.
  assert (Hg : is_finite ((-1)%float -. _trust default_meter) = true)
    by reflexivity.
  exact (proj1 (severity_unvalidated default_meter (-1)%float)
           1%float Hin Hnz Hlt Hn Ha Hk Hg).
Defined.

(** * The methods beside [observe], and the strategies around the meter *)

(** ** The methods of the meter, one after another *)

Section meter_calls.
Context {F : Type} `{PyFloat F}.

(** The four parameters of a meter, which no method writes. *)
Lemma bump_parameters (reward : F) (self : TrustMeter F) :
  theta (bump reward self) = theta self
  /\ alpha_pos (bump reward self) = alpha_pos self
  /\ alpha_neg (bump reward self) = alpha_neg self
  /\ delta (bump reward self) = delta self.
Proof. unfold bump. now destruct (reward <. _trust self). Qed.

Lemma observe_parameters (reward severity : F) (self : TrustMeter F) :
  theta (snd (observe reward severity self)) = theta self
  /\ alpha_pos (snd (observe reward severity self)) = alpha_pos self
  /\ alpha_neg (snd (observe reward severity self)) = alpha_neg self
  /\ delta (snd (observe reward severity self)) = delta self.
Proof.
  rewrite observe_eq. destruct (reward ==. lit 0); [now repeat split|].
  destruct (of_int _); cbn [snd set_trust theta alpha_pos alpha_neg delta];
    apply bump_parameters.
Qed.

Lemma do_call_parameters (c : meter_call F) (self : TrustMeter F) :
  theta (snd (do_call c self)) = theta self
  /\ alpha_pos (snd (do_call c self)) = alpha_pos self
  /\ alpha_neg (snd (do_call c self)) = alpha_neg self
  /\ delta (snd (do_call c self)) = delta self.
Proof.
  destruct c as [reward severity|my_move opp_move severity|]; cbn [do_call].
  - apply observe_parameters.
  - unfold observe_moves, bind, lift.
    destruct (payoff_to_signed_reward my_move opp_move) as [reward|e];
      [apply observe_parameters|now repeat split].
  - now repeat split.
Qed.

Lemma after_calls_parameters (cs : list (meter_call F)) (self : TrustMeter F) :
  theta (after_calls cs self) = theta self
  /\ alpha_pos (after_calls cs self) = alpha_pos self
  /\ alpha_neg (after_calls cs self) = alpha_neg self
  /\ delta (after_calls cs self) = delta self.
Proof.
  unfold after_calls. revert self.
  induction cs as [|c cs IH]; intros self; [now repeat split|].
  cbn [fold_left].
  destruct (IH (snd (do_call c self))) as (Ht & Hp & Hn & Hd).
  destruct (do_call_parameters c self) as (Ht' & Hp' & Hn' & Hd').
  repeat split; congruence.
Qed.

(** X1. Whatever calls of [observe], [observe_moves] and [reset] a meter
    has gone through, returned or raised, its four parameters [theta],
    [alpha_pos], [alpha_neg] and [delta] are the ones it was built with. *)
Theorem calls_keep_parameters (cs : list (meter_call F)) (self : TrustMeter F) :
  theta (after_calls cs self) = theta self
  /\ alpha_pos (after_calls cs self) = alpha_pos self
  /\ alpha_neg (after_calls cs self) = alpha_neg self
  /\ delta (after_calls cs self) = delta self.
Proof. apply after_calls_parameters. Qed.

(** X2. [reset] undoes every history of calls, and the counter passed at
    construction with it.  On a meter built by the constructor with any
    six arguments and then put through any calls, [reset] returns and
    leaves the meter that the constructor builds from the same four
    parameters with the default counter: the trust at [theta], the
    counter at 0.  That is the meter as it was built exactly when the
    counter passed at construction was 0. *)
Theorem reset_restores_fresh_meter
  (theta0 alpha_pos0 alpha_neg0 delta0 : F) (betrayals0 : Z)
  (trust0 : option F) (cs : list (meter_call F)) :
  let built :=
    TrustMeter_new theta0 alpha_pos0 alpha_neg0 delta0 betrayals0 trust0 in
  reset (after_calls cs built)
  = (Return tt, TrustMeter_new theta0 alpha_pos0 alpha_neg0 delta0 0 None)
  /\ TrustMeter_new theta0 alpha_pos0 alpha_neg0 delta0 0 None
     = TrustMeter_init theta0 alpha_pos0 alpha_neg0 delta0
  /\ (snd (reset (after_calls cs built)) = built <-> betrayals0 = 0).
Proof.
  cbv zeta.
  destruct (after_calls_parameters cs
              (TrustMeter_new theta0 alpha_pos0 alpha_neg0 delta0 betrayals0
                 trust0))
    as (Ht & Hp & Hn & Hd).
  assert (Hreset :
    reset (after_calls cs
             (TrustMeter_new theta0 alpha_pos0 alpha_neg0 delta0 betrayals0
                trust0))
    = (Return tt, TrustMeter_new theta0 alpha_pos0 alpha_neg0 delta0 0 None)).
  { unfold reset, modify, set_betrayals, set_trust, TrustMeter_new in * .
    cbn [theta alpha_pos alpha_neg delta _trust _betrayals] in * .
    now rewrite Ht, Hp, Hn, Hd. }
  split; [exact Hreset|]. split; [reflexivity|].
  rewrite Hreset. cbn [snd]. unfold TrustMeter_new. split.
  - intros [= E]. now symmetry.
  - now intros ->.
Qed.

(** X3. A pair of moves outside the reward table makes [observe_moves]
    raise the [ValueError] of the mapping, with the meter as it was. *)
Theorem observe_moves_rejects_other_moves
  (my_move opp_move : string) (severity : F) (self : TrustMeter F) :
  (my_move, opp_move) ∉ reward_keys ->
  observe_moves my_move opp_move severity self
  = (Raise (ValueError "move must be 'C' or 'D'"), self).
Proof.
  intros Hout. unfold observe_moves, bind, lift.
  now rewrite (payoff_outside my_move opp_move Hout).
Qed.

End meter_calls.

(** ** How [observe] fails *)

(** X4. [observe] on doubles fails in two ways only.  A zero reward gives
    the [ValueError], before anything is written.  Otherwise the only
    failure is the [OverflowError] of the conversion of the counter, which
    needs a counter outside [0, 2^53): it comes after the counter has
    been written and before the trust is, so the meter is left with the
    counter of this call and the trust of the call before. *)
Theorem observe_failure_modes (reward severity : float)
  (self : TrustMeter float) (e : exn) :
  fst (observe reward severity self) = Raise e ->
  (e = ValueError "reward must be non-zero"
   /\ (reward ==. lit 0) = true
   /\ snd (observe reward severity self) = self)
  \/ (e = OverflowError
      /\ (reward ==. lit 0) = false
      /\ ~ 0 <= _betrayals (bump reward self) < 2 ^ 53
      /\ snd (observe reward severity self) = bump reward self
      /\ _trust (snd (observe reward severity self)) = _trust self).
Proof.
  rewrite observe_eq. destruct (reward ==. lit 0) eqn:Hz.
  - intros [= <-]. now left.
  - destruct (of_int (_betrayals (bump reward self))) as [n|e'] eqn:Hn;
      [discriminate|].
    intros [= <-]. right.
    assert (Hout : ~ 0 <= _betrayals (bump reward self) < 2 ^ 53).
    { intros Hin. rewrite (of_int_small _ Hin) in Hn. discriminate. }
    cbn [of_int binary64] in Hn.
    destruct (is_finite_SF _); [discriminate|]. injection Hn as <-.
    cbn [snd]. rewrite bump_trust. auto.
Qed.

(** X5. On the moves of the game [observe_moves] is [observe] at the
    reward of the table; on doubles, with the counter in [0, 2^53 - 1),
    it returns, for every severity. *)
Theorem observe_moves_on_actions (my_move opp_move : Action)
  (severity : float) (self : TrustMeter float) :
  0 <= _betrayals self < 2 ^ 53 - 1 ->
  observe_moves (str my_move) (str opp_move) severity self
  = observe (reward_of my_move opp_move) severity self
  /\ fst (observe_moves (str my_move) (str opp_move) severity self)
     = Return tt.
Proof.
  intros Hn.
  assert (Heq : observe_moves (str my_move) (str opp_move) severity self
                = observe (reward_of my_move opp_move) severity self).
  { unfold observe_moves, bind, lift. now rewrite payoff_of_actions. }
  split; [exact Heq|]. rewrite Heq.
  apply observe_returns; [apply reward_of_nonzero|exact Hn].
Qed.

(** ** Strategies: what a call needs, and what a failed call leaves *)

Lemma index_last_nil {A} : index_last (@nil A) = Raise IndexError.
Proof. reflexivity. Qed.

Section strategy_edges.
Context {F : Type} `{PyFloat F}.
Variable Opponent : Type.
Variable opp_history : Opponent -> list Action.
Variable axl_attrs : Type.
Variable axl_init : axl_class -> axl_attrs.
Variable axl_strategy : axl_class -> Opponent -> Py axl_attrs Action.

(** X6. A player with a round behind it that meets an opponent with an
    empty history: each of the three strategies raises [IndexError] before
    the meter or the inner player is touched, and the player is left as
    it was. *)
Theorem strategy_needs_opponent_history (opponent : Opponent) :
  opp_history opponent = [] ->
  (forall self : UTMPlayer F axl_attrs,
     history self <> [] ->
     UTMTFT_strategy opp_history axl_strategy opponent self
     = (Raise IndexError, self)
     /\ UTMWSLS_strategy opp_history axl_strategy opponent self
        = (Raise IndexError, self))
  /\ (forall self : UTMTFT_WSLS F axl_attrs,
        h_history self <> [] ->
        UTMTFT_WSLS_strategy opp_history axl_init axl_strategy opponent self
        = (Raise IndexError, self)).
Proof.
  intros Hopp. split.
  - intros self Hne.
    destruct (history self) as [|a h] eqn:Eh; [congruence|].
    assert (Hl : exists x, index_last (a :: h) = Return x).
    { unfold index_last. destruct (last (a :: h)) eqn:El; [eauto|].
      apply last_None in El. discriminate. }
    destruct Hl as [x Hl].
    unfold UTMTFT_strategy, UTMWSLS_strategy, bind, get, lift.
    rewrite Eh, Hopp. cbn [nonempty]. rewrite Hl. now split.
  - intros self Hne.
    destruct (h_history self) as [|a h] eqn:Eh; [congruence|].
    assert (Hl : exists x, index_last (a :: h) = Return x).
    { unfold index_last. destruct (last (a :: h)) eqn:El; [eauto|].
      apply last_None in El. discriminate. }
    destruct Hl as [x Hl].
    unfold UTMTFT_WSLS_strategy, bind, get, lift.
    rewrite Eh, Hopp. cbn [nonempty]. now rewrite Hl.
Qed.

End strategy_edges.

(** ** The hybrid strategy: gate, reset *)

Lemma state_after_cons {A S} (res : outcome A * S)
  (trace : list (outcome A * S)) (start : S) :
  state_after (res :: trace) start = state_after trace (snd res).
Proof.
  unfold state_after. destruct trace as [|res' trace]; [reflexivity|].
  rewrite last_cons_cons.
  destruct (last (res' :: trace)) eqn:El; [reflexivity|].
  apply last_None in El. discriminate.
Qed.

Section hybrid_rounds.
Context {F : Type} `{PyFloat F}.
Variable Opponent : Type.
Variable opp_history : Opponent -> list Action.
Variable axl_attrs : Type.
Variable axl_init : axl_class -> axl_attrs.
Variable axl_strategy : axl_class -> Opponent -> Py axl_attrs Action.

Local Abbreviation strategy :=
  (UTMTFT_WSLS_strategy opp_history axl_init axl_strategy).

Lemma hybrid_update_first opponent (self : UTMTFT_WSLS F axl_attrs) :
  h_history self = [] ->
  hybrid_update opp_history opponent self = (Return tt, self).
Proof. intros Hh. unfold hybrid_update, bind, get, ret. now rewrite Hh. Qed.

Lemma hybrid_update_later opponent (self : UTMTFT_WSLS F axl_attrs)
  h last_my ho last_opp :
  h_history self = (h ++ [last_my])%list ->
  opp_history opponent = (ho ++ [last_opp])%list ->
  hybrid_update opp_history opponent self
  = (fst (observe (reward_of last_my last_opp) (lit 1) (h_trust self)),
     h_set_trust (snd (observe (reward_of last_my last_opp) (lit 1)
                         (h_trust self))) self).
Proof.
  intros Hh Ho. unfold hybrid_update, bind, get, lift, on_attr.
  rewrite Hh, Ho, nonempty_snoc, !index_last_snoc, payoff_of_actions.
  now destruct (observe _ _ _).
Qed.

Lemma hybrid_promote_keeps (self : UTMTFT_WSLS F axl_attrs) :
  h_trust (hybrid_promote axl_init self) = h_trust self
  /\ h_threshold (hybrid_promote axl_init self) = h_threshold self
  /\ promote_at (hybrid_promote axl_init self) = promote_at self
  /\ h_history (hybrid_promote axl_init self) = h_history self.
Proof. unfold hybrid_promote. now destruct (_ && _). Qed.

(** What a call leaves of the player, given what the update left. *)
Lemma strategy_after_update opponent (self : UTMTFT_WSLS F axl_attrs) :
  let self1 := snd (hybrid_update opp_history opponent self) in
  h_trust (snd (strategy opponent self)) = h_trust self1
  /\ h_threshold (snd (strategy opponent self)) = h_threshold self1
  /\ promote_at (snd (strategy opponent self)) = promote_at self1.
Proof.
  cbv zeta. rewrite strategy_eq.
  destruct (hybrid_update opp_history opponent self) as [[[]|e] self1];
    cbn [snd]; [|auto].
  cbv zeta. destruct (hybrid_promote_keeps self1) as (Ht & Hth & Hp & _).
  destruct (inner_strategy _ _ _) as [[m|e] p']; cbn [snd]; now rewrite <- Ht, <- Hth, <- Hp.
Qed.

Lemma hybrid_update_attrs opponent (self : UTMTFT_WSLS F axl_attrs) :
  let self1 := snd (hybrid_update opp_history opponent self) in
  same_parameters (h_trust self) (h_trust self1)
  /\ h_threshold self1 = h_threshold self
  /\ promote_at self1 = promote_at self.
Proof.
  cbv zeta. unfold hybrid_update, bind, get, lift, on_attr, same_parameters.
  destruct (nonempty (h_history self)); [|now repeat split].
  destruct (index_last (h_history self)); [|now repeat split].
  destruct (index_last (opp_history opponent)); [|now repeat split].
  destruct (payoff_to_signed_reward _ _) as [r|]; [|now repeat split].
  pose proof (observe_parameters r (lit 1) (h_trust self)) as Hp.
  destruct (observe r (lit 1) (h_trust self)) as [o t']. cbn [snd] in * .
  now repeat split.
Qed.

Lemma strategy_attrs opponent (self : UTMTFT_WSLS F axl_attrs) :
  same_parameters (h_trust self) (h_trust (snd (strategy opponent self)))
  /\ h_threshold (snd (strategy opponent self)) = h_threshold self
  /\ promote_at (snd (strategy opponent self)) = promote_at self.
Proof.
  destruct (strategy_after_update opponent self) as (Ht & Hth & Hp).
  destruct (hybrid_update_attrs opponent self) as (Ht' & Hth' & Hp').
  rewrite Ht, Hth, Hp. auto.
Qed.

(** X7. The hybrid is gated as the two plain strategies are.  On the first
    round the meter is left alone; on a later round it is the one a single
    [observe] of the reward of the last round leaves.  When that call and
    the inner strategy return, the move is Defect with the updated trust
    strictly below the threshold and the move of the inner player
    otherwise, the inner player being the one the promotion of this very
    call has installed. *)
Theorem hybrid_gated_round (opponent : Opponent)
  (self : UTMTFT_WSLS F axl_attrs) :
  (h_history self = [] ->
   h_trust (snd (strategy opponent self)) = h_trust self
   /\ forall proposed p',
        inner_strategy axl_strategy opponent
          (h_inner (hybrid_promote axl_init self)) = (Return proposed, p') ->
        fst (strategy opponent self)
        = Return (gate (h_trust self) (h_threshold self) proposed))
  /\ (forall (h : list Action) last_my (ho : list Action) last_opp,
        h_history self = (h ++ [last_my])%list ->
        opp_history opponent = (ho ++ [last_opp])%list ->
        let updated :=
          observe (reward_of last_my last_opp) (lit 1) (h_trust self) in
        h_trust (snd (strategy opponent self)) = snd updated
        /\ forall proposed p',
             fst updated = Return tt ->
             inner_strategy axl_strategy opponent
               (h_inner (hybrid_promote axl_init
                           (h_set_trust (snd updated) self)))
             = (Return proposed, p') ->
             fst (strategy opponent self)
             = Return (gate (snd updated) (h_threshold self) proposed)).
Proof.
  split.
  - intros Hh.
    pose proof (strategy_after_update opponent self) as Hs. cbv zeta in Hs.
    rewrite (hybrid_update_first opponent self Hh) in Hs. cbn [snd] in Hs.
    split; [exact (proj1 Hs)|].
    intros proposed p' Hin. rewrite strategy_eq.
    rewrite (hybrid_update_first opponent self Hh). cbv zeta.
    rewrite Hin. cbn [fst]. unfold gate.
    destruct (hybrid_promote_keeps self) as (-> & -> & _). reflexivity.
  - intros h last_my ho last_opp Hh Ho. cbv zeta.
    pose proof (strategy_after_update opponent self) as Hs. cbv zeta in Hs.
    rewrite (hybrid_update_later opponent self _ _ _ _ Hh Ho) in Hs.
    cbn [snd h_trust h_set_trust] in Hs.
    split; [exact (proj1 Hs)|].
    intros proposed p' Hret Hin. rewrite strategy_eq.
    rewrite (hybrid_update_later opponent self _ _ _ _ Hh Ho), Hret.
    cbv zeta. rewrite Hin. cbn [fst]. unfold gate.
    destruct (hybrid_promote_keeps
                (h_set_trust (snd (observe (reward_of last_my last_opp)
                                     (lit 1) (h_trust self))) self))
      as (-> & -> & _).
    reflexivity.
Qed.

Lemma play_attrs rounds (self : UTMTFT_WSLS F axl_attrs) :
  let final :=
    state_after (play opp_history axl_init axl_strategy rounds self) self in
  same_parameters (h_trust self) (h_trust final)
  /\ h_threshold final = h_threshold self
  /\ promote_at final = promote_at self.
Proof.
  cbv zeta. revert self.
  induction rounds as [|[h opponent] rounds IH]; intros self.
  - unfold state_after, same_parameters. cbn. now repeat split.
  - cbn [play]. rewrite state_after_cons.
    destruct (IH (snd (strategy opponent (h_set_history h self))))
      as (Ht & Hth & Hp).
    destruct (strategy_attrs opponent (h_set_history h self))
      as (Ht' & Hth' & Hp').
    cbn [h_set_history h_trust h_threshold promote_at] in Ht', Hth', Hp'.
    unfold same_parameters in * .
    repeat split; try congruence; intuition congruence.
Qed.

(** X8. [reset] of the hybrid restores the constructor's player after any
    match: whatever rounds a player built by the constructor has played,
    whichever calls raised, and whether or not it was promoted, [reset]
    returns and leaves exactly the player the constructor built, a
    Tit-for-Tat inner player included. *)
Theorem hybrid_reset_restores_constructed_player
  (theta0 alpha_pos0 alpha_neg0 delta0 threshold0 promote_at0 : F)
  (rounds : list (list Action * Opponent)) :
  let built :=
    UTMTFT_WSLS_init axl_init theta0 alpha_pos0 alpha_neg0 delta0
      threshold0 promote_at0 in
  UTMTFT_WSLS_reset axl_init
    (state_after (play opp_history axl_init axl_strategy rounds built) built)
  = (Return tt, built).
Proof.
  cbv zeta.
  pose proof (play_attrs rounds
                (UTMTFT_WSLS_init axl_init theta0 alpha_pos0 alpha_neg0 delta0
                   threshold0 promote_at0)) as Hk.
  cbv zeta in Hk. destruct Hk as ((Ht & Hp & Hn & Hd) & Hth & Hpr).
  set (final := state_after _ _) in * . clearbody final.
  unfold UTMTFT_WSLS_init, TrustMeter_init in * .
  cbn [h_trust h_threshold promote_at theta alpha_pos alpha_neg delta] in * .
  unfold UTMTFT_WSLS_reset, bind, modify, on_attr, reset.
  unfold h_set_inner, h_set_trust, h_set_history, set_betrayals, set_trust.
  simpl. now rewrite Ht, Hp, Hn, Hd, Hth, Hpr.
Qed.

End hybrid_rounds.

(** ** The two plain strategies: what a match keeps, what [reset] restores *)

Section gated_rounds.
Context {F : Type} `{PyFloat F}.
Variable Opponent : Type.
Variable opp_history : Opponent -> list Action.
Variable axl_attrs : Type.
Variable axl_init : axl_class -> axl_attrs.
Variable axl_strategy : axl_class -> Opponent -> Py axl_attrs Action.
Variable axl_reset : axl_class -> Py axl_attrs unit.

Lemma UTMTFT_keeps_attrs :
  keeps_attrs (UTMTFT_strategy opp_history axl_strategy).
Proof.
  intros opponent self.
  unfold UTMTFT_strategy, bind, get, lift, on_attr, ret, same_parameters.
  destruct (nonempty (history self)).
  - destruct (index_last (history self)); [|now repeat split].
    destruct (index_last (opp_history opponent)); [|now repeat split].
    destruct (payoff_to_signed_reward _ _) as [r|]; [|now repeat split].
    pose proof (observe_parameters r (lit 1) (trust self)) as Hp.
    destruct (observe r (lit 1) (trust self)) as [[[]|e] t'];
      cbn [snd] in Hp; [|now repeat split].
    cbn [inner set_trust_of].
    pose proof (inner_strategy_cls _ _ axl_strategy opponent (inner self)) as Hc.
    destruct (inner_strategy axl_strategy opponent (inner self))
      as [[m|e] p']; cbn [snd] in Hc;
      [destruct (_ <. _)|]; cbn; now repeat split.
  - pose proof (inner_strategy_cls _ _ axl_strategy opponent (inner self)) as Hc.
    destruct (inner_strategy axl_strategy opponent (inner self))
      as [[m|e] p']; cbn [snd] in Hc;
      [destruct (_ <. _)|]; cbn; now repeat split.
Qed.

Lemma UTMWSLS_keeps_attrs :
  keeps_attrs (UTMWSLS_strategy opp_history axl_strategy).
Proof.
  intros opponent self.
  unfold UTMWSLS_strategy, bind, get, lift, on_attr, ret, same_parameters.
  destruct (nonempty (history self)).
  - destruct (index_last (history self)); [|now repeat split].
    destruct (index_last (opp_history opponent)); [|now repeat split].
    destruct (payoff_to_signed_reward _ _) as [r|]; [|now repeat split].
    pose proof (observe_parameters r (lit 1) (trust self)) as Hp.
    destruct (observe r (lit 1) (trust self)) as [[[]|e] t'];
      cbn [snd] in Hp; [|now repeat split].
    cbn [inner set_trust_of].
    pose proof (inner_strategy_cls _ _ axl_strategy opponent (inner self)) as Hc.
    destruct (inner_strategy axl_strategy opponent (inner self))
      as [[m|e] p']; cbn [snd] in Hc; cbn; now repeat split.
  - pose proof (inner_strategy_cls _ _ axl_strategy opponent (inner self)) as Hc.
    destruct (inner_strategy axl_strategy opponent (inner self))
      as [[m|e] p']; cbn [snd] in Hc; cbn; now repeat split.
Qed.

Lemma play_gated_attrs
  (strategy : Opponent -> Py (UTMPlayer F axl_attrs) Action)
  rounds (self : UTMPlayer F axl_attrs) :
  keeps_attrs strategy ->
  let final := state_after (play_gated strategy rounds self) self in
  same_parameters (trust self) (trust final)
  /\ threshold final = threshold self
  /\ cls (inner final) = cls (inner self).
Proof.
  intros Hk. cbv zeta. revert self.
  induction rounds as [|[h opponent] rounds IH]; intros self.
  - unfold state_after, same_parameters. cbn. now repeat split.
  - cbn [play_gated]. rewrite state_after_cons.
    destruct (IH (snd (strategy opponent (set_history h self))))
      as (Ht & Hth & Hc).
    destruct (Hk opponent (set_history h self)) as (Ht' & Hth' & Hc').
    cbn [set_history trust threshold inner] in Ht', Hth', Hc'.
    unfold same_parameters in * .
    repeat split; try congruence; intuition congruence.
Qed.

(** The library's [reset] of a player restores what its constructor
    builds. *)
Hypothesis axl_reset_init :
  forall c a, axl_reset c a = (Return tt, axl_init c).

Lemma reset_of_final (built final : UTMPlayer F axl_attrs) :
  history built = [] ->
  _betrayals (trust built) = 0 ->
  _trust (trust built) = theta (trust built) ->
  attrs (inner built) = axl_init (cls (inner built)) ->
  same_parameters (trust built) (trust final) ->
  threshold final = threshold built ->
  cls (inner final) = cls (inner built) ->
  UTMTFT_reset axl_reset final = (Return tt, built)
  /\ UTMWSLS_reset axl_reset final = (Return tt, built).
Proof.
  intros Hh Hb Htr Hat (Ht & Hp & Hn & Hd) Hth Hc.
  assert (Hgoal : UTMTFT_reset axl_reset final = (Return tt, built)).
  { unfold UTMTFT_reset, Player_reset, bind, modify, on_attr, reset,
      inner_reset, get.
    simpl. unfold bind, on_attr. rewrite axl_reset_init.
    unfold set_inner, set_trust_of, set_attrs, set_betrayals, set_trust.
    simpl. rewrite Ht, Hp, Hn, Hd, Hth, Hc.
    destruct built as [hb [tb pb nb db bb trb] thb [cb ab]].
    cbn in * . now subst. }
  split; [exact Hgoal|exact Hgoal].
Qed.

(** X9. [reset] of a [UTMTFT] and of a [UTMWSLS] restores the
    constructor's player after any match, given that the library's reset
    of the inner player restores the inner player: history empty, counter
    zero, trust back at [theta], the parameters and the threshold those of
    the construction. *)
Theorem gated_reset_restores_constructed_player
  (theta0 alpha_pos0 alpha_neg0 delta0 threshold0 : F)
  (rounds : list (list Action * Opponent)) :
  (let built :=
     UTMTFT_init axl_init theta0 alpha_pos0 alpha_neg0 delta0 threshold0 in
   UTMTFT_reset axl_reset
     (state_after
        (play_gated (UTMTFT_strategy opp_history axl_strategy) rounds built)
        built)
   = (Return tt, built))
  /\ (let built :=
        UTMWSLS_init axl_init theta0 alpha_pos0 alpha_neg0 delta0 threshold0 in
      UTMWSLS_reset axl_reset
        (state_after
           (play_gated (UTMWSLS_strategy opp_history axl_strategy) rounds
              built)
           built)
      = (Return tt, built)).
Proof.
  split; cbv zeta.
  - pose proof (play_gated_attrs _ rounds
                  (UTMTFT_init axl_init theta0 alpha_pos0 alpha_neg0 delta0
                     threshold0) UTMTFT_keeps_attrs) as Hk.
    cbv zeta in Hk. destruct Hk as (Ht & Hth & Hc).
    now apply reset_of_final.
  - pose proof (play_gated_attrs _ rounds
                  (UTMWSLS_init axl_init theta0 alpha_pos0 alpha_neg0 delta0
                     threshold0) UTMWSLS_keeps_attrs) as Hk.
    cbv zeta in Hk. destruct Hk as (Ht & Hth & Hc).
    now apply reset_of_final.
Qed.

End gated_rounds.

(** ** When a strategy returns *)

Lemma index_last_nonempty {A} (xs : list A) :
  xs <> [] -> exists x, index_last xs = Return x.
Proof.
  intros Hne. unfold index_last. destruct (last xs) eqn:El; [eauto|].
  apply last_None in El. congruence.
Qed.

Lemma nonempty_true {A} (xs : list A) : nonempty xs = true -> xs <> [].
Proof. now destruct xs. Qed.

Section strategy_returns.
Variable Opponent : Type.
Variable opp_history : Opponent -> list Action.
Variable axl_attrs : Type.
Variable axl_init : axl_class -> axl_attrs.
Variable axl_strategy : axl_class -> Opponent -> Py axl_attrs Action.

(** The update of the meter at the head of a strategy, on doubles. *)
Lemma update_returns (opponent : Opponent) (h : list Action)
  (t : TrustMeter float) :
  h <> [] -> opp_history opponent <> [] ->
  0 <= _betrayals t < 2 ^ 53 - 1 ->
  exists a b,
    index_last h = Return a
    /\ index_last (opp_history opponent) = Return b
    /\ payoff_to_signed_reward (F := float) (str a) (str b)
       = Return (reward_of a b)
    /\ fst (observe (reward_of a b) (lit 1) t) = Return tt.
Proof.
  intros Hh Ho Hn.
  destruct (index_last_nonempty h Hh) as [a Ha].
  destruct (index_last_nonempty _ Ho) as [b Hb].
  exists a, b. repeat split; auto using payoff_of_actions.
  apply observe_returns; [apply reward_of_nonzero|exact Hn].
Qed.

(** X10. The strategies add no failure of their own.  On doubles, on the
    first round or against an opponent with a history, with the counter
    in [0, 2^53 - 1) and an inner strategy that returns against this
    opponent, each of the three strategies returns a move: the mapping
    never rejects the moves of a history and [observe] never rejects the
    reward. *)
Theorem strategies_return (opponent : Opponent) :
  (forall p, returned (inner_strategy axl_strategy opponent p) = true) ->
  (forall self : UTMPlayer float axl_attrs,
     history self = [] \/ opp_history opponent <> [] ->
     0 <= _betrayals (trust self) < 2 ^ 53 - 1 ->
     returned (UTMTFT_strategy opp_history axl_strategy opponent self) = true
     /\ returned (UTMWSLS_strategy opp_history axl_strategy opponent self)
        = true)
  /\ (forall self : UTMTFT_WSLS float axl_attrs,
        h_history self = [] \/ opp_history opponent <> [] ->
        0 <= _betrayals (h_trust self) < 2 ^ 53 - 1 ->
        returned
          (UTMTFT_WSLS_strategy opp_history axl_init axl_strategy opponent self)
        = true).
Proof.
  intros Hinner. split.
  - intros self Hround Hn.
    unfold UTMTFT_strategy, UTMWSLS_strategy, bind, get, lift, on_attr, ret.
    destruct (nonempty (history self)) eqn:Ene.
    + apply nonempty_true in Ene.
      destruct Hround as [Hh|Ho]; [congruence|].
      destruct (update_returns opponent _ (trust self) Ene Ho Hn)
        as (a & b & -> & -> & -> & Hobs).
      destruct (observe _ _ _) as [o t']. cbn [fst] in Hobs. subst o.
      cbn [inner set_trust_of].
      pose proof (Hinner (inner self)) as Hi. unfold returned in Hi.
      destruct (inner_strategy axl_strategy opponent (inner self))
        as [[m|e] p']; [|discriminate].
      split; [|reflexivity]. now destruct (_ <. _).
    + pose proof (Hinner (inner self)) as Hi. unfold returned in Hi.
      destruct (inner_strategy axl_strategy opponent (inner self))
        as [[m|e] p']; [|discriminate].
      split; [|reflexivity]. now destruct (_ <. _).
  - intros self Hround Hn. rewrite strategy_eq.
    assert (Hup : exists self1,
               hybrid_update opp_history opponent self = (Return tt, self1)).
    { unfold hybrid_update, bind, get, lift, on_attr, ret.
      destruct (nonempty (h_history self)) eqn:Ene; [|eauto].
      apply nonempty_true in Ene.
      destruct Hround as [Hh|Ho]; [congruence|].
      destruct (update_returns opponent _ (h_trust self) Ene Ho Hn)
        as (a & b & -> & -> & -> & Hobs).
      destruct (observe _ _ _) as [o t']. cbn [fst] in Hobs. subst o. eauto. }
    destruct Hup as [self1 ->]. cbv zeta.
    pose proof (Hinner (h_inner (hybrid_promote axl_init self1))) as Hi.
    unfold returned in Hi.
    destruct (inner_strategy axl_strategy opponent _) as [[m|e] p'];
      [reflexivity|discriminate].
Qed.

End strategy_returns.

(** * binary64 arithmetic on scaled integers *)

Local Close Scope string_scope.

(** *** Iterated shifts *)

(** SpecFloat.iter_pos is Pos.iter *)
Lemma iter_pos_iter {A} (f : A -> A) p x : SpecFloat.iter_pos f p x = Pos.iter f x p.
Proof.
  revert x. induction p as [p IH|p IH|]; intros x; simpl.
  - rewrite !IH. now rewrite <- !Pos.iter_swap.
  - now rewrite !IH.
  - reflexivity.
Qed.

Lemma iter_pos_succ {A} (f : A -> A) p x :
  SpecFloat.iter_pos f (Pos.succ p) x = f (SpecFloat.iter_pos f p x).
Proof. rewrite !iter_pos_iter. apply Pos.iter_succ. Qed.

Lemma shr_1_nonneg m r s :
  0 <= m ->
  shr_1 (Build_shr_record m r s) = Build_shr_record (m / 2) (Z.odd m) (r || s).
Proof.
  intros Hm. destruct m as [|p|p]; [reflexivity| |lia].
  destruct p as [p|p|]; simpl.
  - f_equal. rewrite Pos2Z.inj_xI.
    apply Z.div_unique with (r := 1); lia.
  - f_equal. rewrite Pos2Z.inj_xO.
    apply Z.div_unique with (r := 0); lia.
  - reflexivity.
Qed.

(** The record after [p] shifts of a mantissa that came exact. *)
Lemma iter_shr_1 (m : Z) (p : positive) :
  0 <= m ->
  SpecFloat.iter_pos shr_1 p (Build_shr_record m false false)
  = Build_shr_record (m / 2 ^ Zpos p)
      (Z.testbit m (Zpos p - 1))
      (negb (m mod 2 ^ (Zpos p - 1) =? 0)).
Proof.
  intros Hm. induction p as [|p IH] using Pos.peano_ind.
  - cbn [SpecFloat.iter_pos]. rewrite shr_1_nonneg by assumption.
    change (Z.pos 1 - 1) with 0. rewrite Z.pow_0_r, Z.mod_1_r.
    f_equal; try (now rewrite Z.bit0_odd).
  - rewrite iter_pos_succ, IH.
    assert (Hq : 0 <= m / 2 ^ Z.pos p) by (apply Z.div_pos; lia).
    rewrite shr_1_nonneg by assumption.
    rewrite Pos2Z.inj_succ.
    replace (Z.succ (Z.pos p) - 1) with (Z.pos p) by lia.
    f_equal.
    + rewrite Z.pow_succ_r by lia. rewrite Z.mul_comm.
      now rewrite Z.div_div by lia.
    + rewrite <- Z.bit0_odd. rewrite Z.div_pow2_bits by lia.
      reflexivity.
    + (* sticky *)
      pose proof (Z.testbit_spec' m (Z.pos p - 1) ltac:(lia)) as Hbit.
      assert (Hp : Z.pos p = Z.succ (Z.pos p - 1)) by lia.
      set (k := Z.pos p - 1) in * .
      assert (Hk0 : 0 <= k) by (unfold k; lia).
      clearbody k.
      assert (Hk : 0 < 2 ^ k) by (apply Z.pow_pos_nonneg; lia).
      assert (Hmod : m mod 2 ^ Z.pos p = (m / 2 ^ k) mod 2 * 2 ^ k + m mod 2 ^ k).
      { rewrite Hp, Z.pow_succ_r by lia.
        rewrite (Z.mul_comm 2). rewrite (Z.rem_mul_r m (2 ^ k) 2) by lia. ring. }
      rewrite Hmod, <- Hbit.
      pose proof (Z.mod_pos_bound m (2 ^ k) Hk).
      destruct (Z.testbit m k); cbn [Z.b2z orb].
      * rewrite Z.mul_1_l. symmetry. apply negb_true_iff. apply Z.eqb_neq. lia.
      * rewrite Z.mul_0_l, Z.add_0_l. reflexivity.
Qed.

(** *** Rounding to nearest even on integers *)




Lemma RN_bounds w t : w / 2 ^ t <= RN w t <= w / 2 ^ t + 1.
Proof.
  unfold RN. destruct (2 * (w mod 2 ^ t) ?= 2 ^ t); [|lia|lia].
  destruct (Z.even _); lia.
Qed.

Lemma RN_exact w t : w mod 2 ^ t = 0 -> 0 <= t -> RN w t = w / 2 ^ t.
Proof.
  intros Hr Ht. unfold RN. rewrite Hr.
  assert (0 < 2 ^ t) by (apply Z.pow_pos_nonneg; lia).
  destruct (Z.compare_spec (2 * 0) (2 ^ t)); lia.
Qed.

Lemma RN_mono w1 w2 t : 0 <= t -> w1 <= w2 -> RN w1 t <= RN w2 t.
Proof.
  intros Ht Hw.
  assert (Hp : 0 < 2 ^ t) by (apply Z.pow_pos_nonneg; lia).
  pose proof (Z.div_le_mono w1 w2 (2 ^ t) Hp Hw) as Hq.
  pose proof (RN_bounds w1 t) as B1. pose proof (RN_bounds w2 t) as B2.
  destruct (Z.eq_dec (w1 / 2 ^ t) (w2 / 2 ^ t)) as [E|NE]; [|lia].
  assert (Hr : w1 mod 2 ^ t <= w2 mod 2 ^ t).
  { pose proof (Z.div_mod w1 (2 ^ t) ltac:(lia)).
    pose proof (Z.div_mod w2 (2 ^ t) ltac:(lia)). rewrite E in * . lia. }
  unfold RN. rewrite E.
  destruct (Z.compare_spec (2 * (w1 mod 2 ^ t)) (2 ^ t));
    destruct (Z.compare_spec (2 * (w2 mod 2 ^ t)) (2 ^ t));
    try lia; destruct (Z.even _); lia.
Qed.

Lemma ulp_exp_mono w1 w2 : 0 < w1 <= w2 -> ulp_exp w1 <= ulp_exp w2.
Proof.
  intros H. unfold ulp_exp.
  pose proof (Z.log2_le_mono w1 w2 ltac:(lia)). lia.
Qed.

Lemma ulp_exp_pos w : 1074 <= ulp_exp w.
Proof. unfold ulp_exp. lia. Qed.

Lemma round53_lower w :
  0 < w -> w / 2 ^ ulp_exp w * 2 ^ ulp_exp w <= round53 w.
Proof.
  intros Hw. unfold round53.
  pose proof (RN_bounds w (ulp_exp w)).
  pose proof (ulp_exp_pos w).
  assert (0 < 2 ^ ulp_exp w) by (apply Z.pow_pos_nonneg; lia).
  nia.
Qed.

Lemma round53_mono w1 w2 : 0 < w1 <= w2 -> round53 w1 <= round53 w2.
Proof.
  intros [H1 H12].
  pose proof (ulp_exp_mono w1 w2 ltac:(lia)) as Ht.
  pose proof (ulp_exp_pos w1) as Ht1.
  destruct (Z.eq_dec (ulp_exp w1) (ulp_exp w2)) as [E|NE].
  - unfold round53. rewrite E.
    apply Z.mul_le_mono_nonneg_r; [apply Z.pow_nonneg; lia|].
    apply RN_mono; lia.
  - assert (Hlt : ulp_exp w1 < ulp_exp w2) by lia.
    set (t1 := ulp_exp w1) in * . set (t2 := ulp_exp w2) in * .
    assert (Hl2 : Z.log2 w2 = t2 + 52) by (unfold t2, ulp_exp in * ; lia).
    assert (Hl1 : Z.log2 w1 - 52 <= t1) by (unfold t1, ulp_exp; lia).
    (* lower bound of the second *)
    assert (Hlow : 2 ^ (t2 + 52) <= round53 w2).
    { pose proof (round53_lower w2 ltac:(lia)) as Hr. fold t2 in Hr.
      assert (Hw2 : 2 ^ (t2 + 52) <= w2).
      { rewrite <- Hl2. apply Z.log2_spec. lia. }
      assert (Hp2 : 0 < 2 ^ t2) by (apply Z.pow_pos_nonneg; lia).
      assert (2 ^ 52 <= w2 / 2 ^ t2).
      { apply Z.div_le_lower_bound; [lia|].
        rewrite <- Z.pow_add_r by lia. now rewrite Z.add_comm at 1; rewrite Z.add_comm. }
      assert (2 ^ (t2 + 52) = 2 ^ 52 * 2 ^ t2).
      { rewrite Z.add_comm. apply Z.pow_add_r; lia. }
      nia. }
    (* upper bound of the first *)
    assert (Hup : round53 w1 <= 2 ^ (t2 + 52)).
    { unfold round53. fold t1.
      pose proof (RN_bounds w1 t1) as B.
      assert (Hp1 : 0 < 2 ^ t1) by (apply Z.pow_pos_nonneg; lia).
      assert (Hsplit : 2 ^ (t2 + 52) = 2 ^ (t2 + 52 - t1) * 2 ^ t1).
      { rewrite <- Z.pow_add_r by lia. f_equal. lia. }
      assert (Hw1 : w1 < 2 ^ (t2 + 52)).
      { destruct (Z.log2_spec w1 H1) as [_ Hu].
        eapply Z.lt_le_trans; [exact Hu|].
        apply Z.pow_le_mono_r; lia. }
      assert (Hq : w1 / 2 ^ t1 < 2 ^ (t2 + 52 - t1)).
      { apply Z.div_lt_upper_bound; [lia|]. rewrite Z.mul_comm. lia. }
      rewrite Hsplit. apply Z.mul_le_mono_nonneg_r; lia. }
    lia.
Qed.

(** *** The rounding of the library on integers *)

Lemma rne_RN (m : Z) (p : positive) :
  0 <= m ->
  round_nearest_even
    (shr_m (SpecFloat.iter_pos shr_1 p (Build_shr_record m false false)))
    (loc_of_shr_record (SpecFloat.iter_pos shr_1 p (Build_shr_record m false false)))
  = RN m (Zpos p).
Proof.
  intros Hm. rewrite iter_shr_1 by assumption.
  cbn [shr_m loc_of_shr_record]. unfold RN.
  pose proof (Z.testbit_spec' m (Z.pos p - 1) ltac:(lia)) as Hbit.
  assert (Hp : Z.pos p = Z.succ (Z.pos p - 1)) by lia.
  set (k := Z.pos p - 1) in * .
  assert (Hk0 : 0 <= k) by (unfold k; lia).
  clearbody k.
  assert (Hk : 0 < 2 ^ k) by (apply Z.pow_pos_nonneg; lia).
  assert (Hpow : 2 ^ Z.pos p = 2 * 2 ^ k).
  { now rewrite Hp, Z.pow_succ_r by lia. }
  assert (Hmod : m mod 2 ^ Z.pos p = (m / 2 ^ k) mod 2 * 2 ^ k + m mod 2 ^ k).
  { rewrite Hpow, (Z.mul_comm 2).
    rewrite (Z.rem_mul_r m (2 ^ k) 2) by lia. ring. }
  rewrite Hmod, <- Hbit, Hpow.
  pose proof (Z.mod_pos_bound m (2 ^ k) Hk) as Hb.
  destruct (Z.testbit m k); cbn [Z.b2z];
    destruct (Z.eqb_spec (m mod 2 ^ k) 0) as [E0|N0]; cbn [negb].
  - rewrite E0.
    destruct (Z.compare_spec (2 * (1 * 2 ^ k + 0)) (2 * 2 ^ k)); try lia.
    reflexivity.
  - destruct (Z.compare_spec (2 * (1 * 2 ^ k + m mod 2 ^ k)) (2 * 2 ^ k));
      try lia. reflexivity.
  - rewrite E0.
    destruct (Z.compare_spec (2 * (0 * 2 ^ k + 0)) (2 * 2 ^ k)); try lia.
    reflexivity.
  - destruct (Z.compare_spec (2 * (0 * 2 ^ k + m mod 2 ^ k)) (2 * 2 ^ k));
      try lia. reflexivity.
Qed.

Lemma digits2_pos_log2 (m : positive) :
  Zpos (digits2_pos m) = Z.log2 (Zpos m) + 1.
Proof.
  assert (Hs : forall p, digits2_pos p = Pos.size p)
    by (induction p; simpl; congruence).
  destruct m as [p|p|]; simpl; rewrite ?Hs; lia.
Qed.

(** Scaling a value and the place by the same power of two. *)
Lemma RN_scale (m p k : Z) :
  0 <= p -> 0 <= k -> RN (m * 2 ^ k) (p + k) = RN m p.
Proof.
  intros Hp Hk. unfold RN.
  assert (H2k : 0 < 2 ^ k) by (apply Z.pow_pos_nonneg; lia).
  assert (H2p : 0 < 2 ^ p) by (apply Z.pow_pos_nonneg; lia).
  rewrite Z.pow_add_r by lia.
  rewrite Z.div_mul_cancel_r by lia.
  rewrite Z.mul_mod_distr_r by lia.
  replace (2 * (m mod 2 ^ p * 2 ^ k)) with (2 * (m mod 2 ^ p) * 2 ^ k) by ring.
  rewrite <- (Zmult_compare_compat_r (2 * (m mod 2 ^ p)) (2 ^ p) (2 ^ k)) by lia.
  reflexivity.
Qed.

(** *** Scaled values *)


Lemma pow2_split a b : 0 <= a <= b -> 2 ^ b = 2 ^ (b - a) * 2 ^ a.
Proof. intros H. rewrite <- Z.pow_add_r by lia. f_equal. lia. Qed.

Lemma pow2_pos a : 0 <= a -> 0 < 2 ^ a.
Proof. intros. apply Z.pow_pos_nonneg; lia. Qed.

Lemma log2_scaled (m : positive) k :
  0 <= k -> Z.log2 (Zpos m * 2 ^ k) = Z.log2 (Zpos m) + k.
Proof. intros Hk. rewrite Z.log2_mul_pow2 by lia. lia. Qed.

Lemma fexp_ulp_exp (m : positive) e :
  - bias <= e ->
  fexp prec emax (Zpos (digits2_pos m) + e)
  = ulp_exp (Zpos m * 2 ^ (e + bias)) - bias.
Proof.
  intros He. unfold fexp, emin, prec, emax, ulp_exp.
  rewrite digits2_pos_log2, log2_scaled by (unfold bias in * ; lia).
  unfold bias. lia.
Qed.

(** Bounds on a positive number from its binary logarithm. *)
Lemma log2_bounds w : 0 < w -> 2 ^ Z.log2 w <= w < 2 ^ (Z.log2 w + 1).
Proof. intros Hw. replace (Z.log2 w + 1) with (Z.succ (Z.log2 w)) by lia. now apply Z.log2_spec. Qed.

Lemma Zdigits2_log2 w : 0 < w -> Zdigits2 w = Z.log2 w + 1.
Proof.
  intros Hw. destruct w as [|p|p]; try lia. apply digits2_pos_log2.
Qed.


(** The float that ends the rounding, once the mantissa has at most 53
    bits and a normal one has exactly 53. *)
Lemma W_finish (s : bool) (m1 : positive) (E : Z) :
  -1074 <= E ->
  Zpos m1 < 2 ^ 53 ->
  (-1074 < E -> 2 ^ 52 <= Zpos m1) ->
  W (if E <=? emax - prec then S754_finite s m1 E else S754_infinity s)
  = cond_Zopp s (Z.min (Zpos m1 * 2 ^ (E + bias)) cap).
Proof.
  intros HE Hm Hnorm. unfold emax, prec, cap.
  assert (Hsplit : 2 ^ (1024 + bias) = 2 ^ 53 * 2 ^ (971 + bias))
    by (rewrite <- Z.pow_add_r by (unfold bias; lia); f_equal; lia).
  destruct (Z.leb_spec E (1024 - 53)) as [Hle|Hgt]; cbn [W]; f_equal.
  - assert (Hpow : 2 ^ (E + bias) <= 2 ^ (971 + bias))
      by (apply Z.pow_le_mono_r; unfold bias; lia).
    assert (0 < 2 ^ (E + bias)) by (apply pow2_pos; unfold bias; lia).
    rewrite Z.min_l; [reflexivity|]. rewrite Hsplit. nia.
  - assert (Hpow : 2 ^ (972 + bias) <= 2 ^ (E + bias))
      by (apply Z.pow_le_mono_r; unfold bias; lia).
    assert (Hsplit2 : 2 ^ (1024 + bias) = 2 ^ 52 * 2 ^ (972 + bias))
      by (rewrite <- Z.pow_add_r by (unfold bias; lia); f_equal; lia).
    assert (0 < 2 ^ (972 + bias)) by (apply pow2_pos; unfold bias; lia).
    specialize (Hnorm ltac:(lia)).
    rewrite Z.min_r; [reflexivity|]. rewrite Hsplit2. nia.
Qed.

(** The second shift of the rounding: nothing to do, unless the rounded
    mantissa reached [2^53]. *)
Lemma second_shift (m1 E : Z) :
  -1074 <= E -> 0 <= m1 < 2 ^ 53 ->
  shr_fexp prec emax m1 E loc_Exact = (Build_shr_record m1 false false, E).
Proof.
  intros HE Hm. unfold shr_fexp, shr_record_of_loc.
  assert (Hs : fexp prec emax (Zdigits2 m1 + E) - E <= 0).
  { unfold fexp, emin, prec, emax.
    destruct (Z.eq_dec m1 0) as [->|Hnz]; [simpl; lia|].
    rewrite Zdigits2_log2 by lia.
    assert (Z.log2 m1 < 53) by (apply Z.log2_lt_pow2; lia). lia. }
  unfold shr. destruct (fexp prec emax (Zdigits2 m1 + E) - E); try reflexivity; lia.
Qed.

Lemma second_shift_carry (E : Z) :
  -1074 <= E ->
  shr_fexp prec emax (2 ^ 53) E loc_Exact
  = (Build_shr_record (2 ^ 52) false false, E + 1).
Proof.
  intros HE. unfold shr_fexp, shr_record_of_loc.
  assert (Hs : fexp prec emax (Zdigits2 (2 ^ 53) + E) - E = 1).
  { unfold fexp, emin, prec, emax. change (Zdigits2 (2 ^ 53)) with 54. lia. }
  rewrite Hs. reflexivity.
Qed.


Section rounding.
Variables (s : bool) (m : positive) (e : Z).
Let w := Zpos m * 2 ^ (e + bias).
Let t := ulp_exp w.
Hypothesis He : - bias <= e.
Hypothesis Hshift : e + bias <= t.

Lemma w_pos : 0 < w.
Proof. unfold w. apply Z.mul_pos_pos; [lia|apply pow2_pos; lia]. Qed.

Lemma t_def : t = Z.max (Z.log2 (Zpos m) + (e + bias) - 52) 1074.
Proof. unfold t, ulp_exp, w. rewrite log2_scaled by lia. reflexivity. Qed.

Lemma quotient_lt : w / 2 ^ t < 2 ^ 53.
Proof.
  pose proof t_def as Ht. pose proof w_pos as Hw.
  assert (Hlog : Z.log2 w = Z.log2 (Zpos m) + (e + bias))
    by (unfold w; apply log2_scaled; lia).
  apply Z.div_lt_upper_bound; [apply pow2_pos; lia|].
  rewrite <- Z.pow_add_r by lia.
  eapply Z.lt_le_trans; [apply (log2_bounds w Hw)|].
  apply Z.pow_le_mono_r; lia.
Qed.

Lemma quotient_ge : 1074 < t -> 2 ^ 52 <= w / 2 ^ t.
Proof.
  pose proof t_def as Ht. pose proof w_pos as Hw.
  assert (Hlog : Z.log2 w = Z.log2 (Zpos m) + (e + bias))
    by (unfold w; apply log2_scaled; lia).
  intros Hn. apply Z.div_le_lower_bound; [apply pow2_pos; lia|].
  rewrite <- Z.pow_add_r by lia.
  eapply Z.le_trans; [|apply (log2_bounds w Hw)].
  apply Z.pow_le_mono_r; lia.
Qed.

Lemma RN_range : 0 <= RN w t <= 2 ^ 53.
Proof.
  pose proof (RN_bounds w t). pose proof quotient_lt. pose proof w_pos.
  assert (0 <= w / 2 ^ t); [|lia].
  apply Z.div_pos; [lia|]. apply pow2_pos. pose proof t_def. lia.
Qed.

Lemma bra_eq :
  binary_round_aux prec emax s (Zpos m) e loc_Exact
  = rounded s (RN w t) (t - bias).
Proof.
  pose proof (fexp_ulp_exp m e He) as Hfexp. fold w t in Hfexp.
  pose proof t_def as Ht. pose proof RN_range as Hr.
  pose proof (log2_bounds (Zpos m) ltac:(lia)) as Hmb.
  unfold binary_round_aux. unfold shr_fexp at 1.
  change (Zdigits2 (Z.pos m)) with (Zpos (digits2_pos m)).
  rewrite Hfexp.
  assert (Hfirst :
    shr (shr_record_of_loc (Zpos m) loc_Exact) e (t - bias - e)
    = (shr_record_of_loc (RN w t) loc_Exact, t - bias)
      /\ round_nearest_even (RN w t) (loc_of_shr_record (shr_record_of_loc (RN w t) loc_Exact)) = RN w t
    \/ exists p, t - bias - e = Zpos p
        /\ shr (shr_record_of_loc (Zpos m) loc_Exact) e (t - bias - e)
           = (SpecFloat.iter_pos shr_1 p (Build_shr_record (Zpos m) false false), t - bias)
        /\ RN (Zpos m) (Zpos p) = RN w t).
  { destruct (t - bias - e) as [|p|p] eqn:Ep; [| |lia].
    - left. assert (HRN : RN w t = Zpos m).
      { replace t with (e + bias) by lia.
        rewrite RN_exact; [|unfold w; apply Z.mod_mul; apply Z.pow_nonzero; lia|lia].
        unfold w. now rewrite Z.div_mul by (apply Z.pow_nonzero; lia). }
      rewrite HRN. cbn. split; [f_equal; lia|reflexivity].
    - right. exists p. split; [reflexivity|]. split.
      + cbn. f_equal. lia.
      + unfold w. replace t with (Zpos p + (e + bias)) by lia.
        symmetry. apply RN_scale; lia. }
  assert (Hstage1 :
    (let '(mrs', e') := shr (shr_record_of_loc (Zpos m) loc_Exact) e (t - bias - e) in
     (round_nearest_even (shr_m mrs') (loc_of_shr_record mrs'), e'))
    = (RN w t, t - bias)).
  { destruct Hfirst as [[-> Hrn]|(p & Ep & -> & HRN)].
    - cbn [shr_record_of_loc shr_m] in * . now rewrite Hrn.
    - now rewrite rne_RN, HRN by lia. }
  destruct (shr (shr_record_of_loc (Zpos m) loc_Exact) e (t - bias - e))
    as [mrs' e'].
  injection Hstage1 as -> ->.
  unfold rounded.
  destruct (Z.eqb_spec (RN w t) (2 ^ 53)) as [Ecarry|Ncarry].
  - rewrite Ecarry, second_shift_carry by (unfold bias in * ; lia).
    reflexivity.
  - rewrite second_shift by (unfold bias in * ; lia).
    cbn [shr_m]. destruct (RN w t); try reflexivity.
Qed.

Lemma W_rounded : W (rounded s (RN w t) (t - bias)) = cond_Zopp s (rnd_pos w).
Proof.
  pose proof t_def as Ht. pose proof RN_range as Hr.
  pose proof quotient_ge as Hq52. pose proof quotient_lt as Hq53.
  pose proof (RN_bounds w t) as HB.
  assert (H2t : 0 < 2 ^ t) by (apply pow2_pos; lia).
  assert (Hround : round53 w = RN w t * 2 ^ t) by reflexivity.
  unfold rounded, rnd_pos. rewrite Hround.
  destruct (RN w t) as [|m1|m1] eqn:Em1; [| |lia].
  - cbn [W]. rewrite Z.mul_0_l, Z.min_l; [now destruct s|].
    unfold cap. apply Z.pow_nonneg; lia.
  - destruct (Z.eqb_spec (Zpos m1) (2 ^ 53)) as [Ecarry|Ncarry].
    + rewrite (W_finish s (2 ^ 52) (t - bias + 1));
        [|unfold bias in * ; lia|reflexivity|intros _; reflexivity].
      f_equal. f_equal. rewrite Ecarry.
      replace (t - bias + 1 + bias) with (Z.succ t) by lia.
      rewrite Z.pow_succ_r by lia.
      change (Z.pos (2 ^ 52)) with (2 ^ 52). change (2 ^ 53) with (2 * 2 ^ 52). ring.
    + rewrite W_finish; [|unfold bias in * ; lia|lia|].
      * f_equal. f_equal. f_equal. f_equal. lia.
      * intros Hn. specialize (Hq52 ltac:(unfold bias in * ; lia)). lia.
Qed.

End rounding.

(** *** The rounding function *)


Lemma round53_0 : round53 0 = 0.
Proof. reflexivity. Qed.

Lemma cap_pos : 0 < cap.
Proof. unfold cap. apply pow2_pos. unfold bias. lia. Qed.

Lemma round53_nonneg w : 0 <= w -> 0 <= round53 w.
Proof.
  intros Hw. unfold round53.
  pose proof (RN_bounds w (ulp_exp w)). pose proof (ulp_exp_pos w).
  assert (0 < 2 ^ ulp_exp w) by (apply pow2_pos; lia).
  assert (0 <= w / 2 ^ ulp_exp w) by (apply Z.div_pos; lia).
  nia.
Qed.

Lemma rnd_pos_mono w1 w2 : 0 <= w1 <= w2 -> rnd_pos w1 <= rnd_pos w2.
Proof.
  intros [H1 H2]. unfold rnd_pos.
  apply Z.min_le_compat_r.
  destruct (Z.eq_dec w1 0) as [->|Hnz].
  - rewrite round53_0. apply round53_nonneg. lia.
  - apply round53_mono. lia.
Qed.

Lemma rnd_pos_nonneg w : 0 <= w -> 0 <= rnd_pos w.
Proof.
  intros Hw. unfold rnd_pos. pose proof cap_pos.
  pose proof (round53_nonneg w Hw). lia.
Qed.

Lemma rnd_mono w1 w2 : w1 <= w2 -> rnd w1 <= rnd w2.
Proof.
  intros H. unfold rnd.
  destruct (Z.ltb_spec w1 0), (Z.ltb_spec w2 0); try lia.
  - pose proof (rnd_pos_mono (- w2) (- w1) ltac:(lia)). lia.
  - pose proof (rnd_pos_nonneg (- w1) ltac:(lia)).
    pose proof (rnd_pos_nonneg w2 ltac:(lia)). lia.
  - apply rnd_pos_mono. lia.
Qed.

Lemma rnd_opp w : rnd (- w) = - rnd w.
Proof.
  unfold rnd. destruct (Z.ltb_spec (- w) 0), (Z.ltb_spec w 0); try lia.
  - now rewrite Z.opp_involutive.
  - assert (w = 0) by lia. subst w. reflexivity.
Qed.

Lemma rnd_cond_Zopp s w : 0 <= w -> rnd (cond_Zopp s w) = cond_Zopp s (rnd_pos w).
Proof.
  intros Hw. destruct s; cbn [cond_Zopp].
  - rewrite rnd_opp. unfold rnd. destruct (Z.ltb_spec w 0); [lia|reflexivity].
  - unfold rnd. destruct (Z.ltb_spec w 0); [lia|reflexivity].
Qed.

(** What validity says of a finite float. *)
Lemma valid_finite s m e :
  valid_binary (S754_finite s m e) = true ->
  -1074 <= e <= 971
  /\ Zpos m < 2 ^ 53
  /\ (-1074 < e -> 2 ^ 52 <= Zpos m)
  /\ ulp_exp (Zpos m * 2 ^ (e + bias)) = e + bias.
Proof.
  cbn [valid_binary]. unfold bounded, canonical_mantissa.
  intros Hb. apply andb_true_iff in Hb. destruct Hb as [Hc Hle].
  apply Z.eqb_eq in Hc. apply Z.leb_le in Hle.
  assert (He : -1074 <= e).
  { revert Hc. unfold fexp, emin, prec, emax. lia. }
  rewrite fexp_ulp_exp in Hc by (unfold bias; lia).
  pose proof (log2_bounds (Zpos m) ltac:(lia)) as Hmb.
  assert (Hlog : Z.log2 (Zpos m * 2 ^ (e + bias)) = Z.log2 (Zpos m) + (e + bias))
    by (apply log2_scaled; unfold bias; lia).
  assert (Hu : ulp_exp (Zpos m * 2 ^ (e + bias)) = e + bias) by lia.
  unfold ulp_exp in Hu. rewrite Hlog in Hu.
  unfold emax, prec in Hle.
  split; [lia|]. split; [|split].
  - eapply Z.lt_le_trans; [apply Hmb|]. apply Z.pow_le_mono_r; lia.
  - intros Hn. assert (Z.log2 (Zpos m) = 52) by (unfold bias in * ; lia).
    replace 52 with (Z.log2 (Zpos m)) by assumption. apply Hmb.
  - unfold ulp_exp. rewrite Hlog. exact Hu.
Qed.

Lemma W_finite_bounds s m e :
  valid_binary (S754_finite s m e) = true ->
  0 < Zpos m * 2 ^ (e + bias) < cap.
Proof.
  intros Hv. destruct (valid_finite s m e Hv) as (He & Hm & _ & _).
  assert (Hp : 0 < 2 ^ (e + bias)) by (apply pow2_pos; unfold bias; lia).
  split; [nia|].
  unfold cap.
  assert (Hsplit : 2 ^ (1024 + bias) = 2 ^ 53 * 2 ^ (971 + bias))
    by (rewrite <- Z.pow_add_r by (unfold bias; lia); f_equal; lia).
  assert (2 ^ (e + bias) <= 2 ^ (971 + bias))
    by (apply Z.pow_le_mono_r; unfold bias; lia).
  rewrite Hsplit. nia.
Qed.

(** A valid finite float is its own rounding. *)
Lemma rnd_pos_valid s m e :
  valid_binary (S754_finite s m e) = true ->
  rnd_pos (Zpos m * 2 ^ (e + bias)) = Zpos m * 2 ^ (e + bias).
Proof.
  intros Hv. destruct (valid_finite s m e Hv) as (He & Hm & _ & Hu).
  pose proof (W_finite_bounds s m e Hv) as Hb.
  unfold rnd_pos, round53. rewrite Hu.
  rewrite RN_exact;
    [|apply Z.mod_mul; apply Z.pow_nonzero; unfold bias; lia|unfold bias; lia].
  rewrite Z.div_mul by (apply Z.pow_nonzero; unfold bias; lia).
  lia.
Qed.


Lemma rnd_W x : valid_binary x = true -> is_finite_SF x = true -> rnd (W x) = W x.
Proof.
  intros Hv Hf. destruct x as [s|s| |s m e]; try discriminate; cbn [W].
  - reflexivity.
  - pose proof (W_finite_bounds s m e Hv).
    rewrite rnd_cond_Zopp by lia. now rewrite (rnd_pos_valid s m e Hv).
Qed.

(** *** Comparison *)

Lemma mag_compare s1 m1 e1 s2 m2 e2 :
  valid_binary (S754_finite s1 m1 e1) = true ->
  valid_binary (S754_finite s2 m2 e2) = true ->
  (Zpos m1 * 2 ^ (e1 + bias) ?= Zpos m2 * 2 ^ (e2 + bias))
  = match e1 ?= e2 with
    | Lt => Lt
    | Gt => Gt
    | Eq => Pos.compare_cont Eq m1 m2
    end.
Proof.
  intros H1 H2.
  destruct (valid_finite _ _ _ H1) as (He1 & Hm1 & Hn1 & _).
  destruct (valid_finite _ _ _ H2) as (He2 & Hm2 & Hn2 & _).
  assert (Hstep : forall ma ea mb eb,
             -1074 <= ea -> ea < eb -> Zpos ma < 2 ^ 53 -> 2 ^ 52 <= Zpos mb ->
             Zpos ma * 2 ^ (ea + bias) < Zpos mb * 2 ^ (eb + bias)).
  { intros ma ea mb eb Ha Hab Hma Hmb.
    assert (Hp : 0 < 2 ^ (ea + bias)) by (apply pow2_pos; unfold bias; lia).
    assert (Hle : 2 ^ (ea + 1 + bias) <= 2 ^ (eb + bias))
      by (apply Z.pow_le_mono_r; unfold bias; lia).
    replace (ea + 1 + bias) with (Z.succ (ea + bias)) in Hle by lia.
    rewrite Z.pow_succ_r in Hle by (unfold bias; lia).
    change (2 ^ 53) with (2 * 2 ^ 52) in Hma. nia. }
  destruct (Z.compare_spec e1 e2) as [E|L|G].
  - subst e2. change (Pos.compare_cont Eq m1 m2) with (Zpos m1 ?= Zpos m2).
    symmetry. apply Zmult_compare_compat_r.
    apply Z.lt_gt. apply pow2_pos. unfold bias; lia.
  - apply Z.compare_lt_iff. apply Hstep; lia.
  - apply Z.compare_gt_iff. apply Hstep; lia.
Qed.


Lemma SFcompare_W x y :
  valid_binary x = true -> valid_binary y = true ->
  x <> S754_nan -> y <> S754_nan ->
  SFcompare x y = Some (W x ?= W y).
Proof.
  intros Hx Hy Nx Ny. pose proof cap_pos as Hcap.
  destruct x as [sx|sx| |sx mx ex]; [| |congruence|];
    (destruct y as [sy|sy| |sy my ey]; [| |congruence|]);
    try pose proof (W_finite_bounds _ _ _ Hx) as Bx;
    try pose proof (W_finite_bounds _ _ _ Hy) as By;
    cbn [SFcompare W]; f_equal; try reflexivity;
    try (pose proof (mag_compare sx mx ex sy my ey Hx Hy) as Hm;
         destruct sx, sy; cbn [cond_Zopp];
         [ rewrite Z.compare_opp,
             (Z.compare_antisym (Zpos mx * 2 ^ (ex + bias)) (Zpos my * 2 ^ (ey + bias))), Hm;
           destruct (ex ?= ey); reflexivity
         | solve_cmp | solve_cmp
         | rewrite Hm; destruct (ex ?= ey); reflexivity ]);
    try (destruct sx; solve_cmp);
    try (destruct sy; solve_cmp);
    try (destruct sx, sy; solve_cmp).
Qed.

(** *** Multiplication, addition, subtraction *)

Lemma cond_Zopp_mul s1 s2 a b :
  cond_Zopp s1 a * cond_Zopp s2 b = cond_Zopp (xorb s1 s2) (a * b).
Proof. destruct s1, s2; cbn [cond_Zopp xorb]; ring. Qed.

Lemma cond_Zopp_div_exact s a b :
  b <> 0 -> a mod b = 0 -> cond_Zopp s a / b = cond_Zopp s (a / b).
Proof.
  intros Hb Hm. destruct s; cbn [cond_Zopp]; [|reflexivity].
  now apply Z.div_opp_l_z.
Qed.

(** The product of two valid finite floats is the rounding of the product
    of their values. *)
Lemma SFmul_W x y :
  valid_binary x = true -> valid_binary y = true ->
  is_finite_SF x = true -> is_finite_SF y = true ->
  SFmul prec emax x y <> S754_nan
  /\ W (SFmul prec emax x y) = rnd (W x * W y / 2 ^ bias).
Proof.
  intros Hx Hy Fx Fy.
  destruct x as [sx|sx| |sx mx ex]; try discriminate;
    destruct y as [sy|sy| |sy my ey]; try discriminate; cbn [SFmul W];
    try (split; [discriminate|]; rewrite ?Z.mul_0_l, ?Z.mul_0_r; reflexivity).
  destruct (valid_finite _ _ _ Hx) as (Hex & Hmx & Hnx & _).
  destruct (valid_finite _ _ _ Hy) as (Hey & Hmy & Hny & _).
  assert (He : - bias <= ex + ey) by (unfold bias; lia).
  change (Z.pos (mx * my)) with (Zpos (mx * my)%positive).
  assert (Hshift : ex + ey + bias
                   <= ulp_exp (Zpos (mx * my) * 2 ^ (ex + ey + bias))).
  { unfold ulp_exp. rewrite log2_scaled by (unfold bias; lia).
    rewrite Pos2Z.inj_mul.
    destruct (Z_le_gt_dec (ex + ey + bias) 1074) as [|Hbig]; [lia|].
    assert (Hl : 52 <= Z.log2 (Zpos mx * Zpos my)); [|lia].
    apply Z.log2_le_pow2; [lia|].
    assert (-1074 < ex \/ -1074 < ey) as [Hn|Hn] by (unfold bias in * ; lia).
    - specialize (Hnx Hn). nia.
    - specialize (Hny Hn). nia. }
  rewrite (bra_eq _ _ _ He Hshift).
  split.
  - unfold rounded. pose proof (RN_range (mx * my) (ex + ey) He Hshift) as Hr.
    destruct (RN _ _); try discriminate; [|lia].
    destruct (_ =? _); destruct (_ <=? _); discriminate.
  - rewrite (W_rounded _ _ _ He Hshift).
    rewrite cond_Zopp_mul.
    assert (Hprod : Zpos mx * 2 ^ (ex + bias) * (Zpos my * 2 ^ (ey + bias))
                    = Zpos (mx * my) * 2 ^ (ex + ey + bias) * 2 ^ bias).
    { rewrite Pos2Z.inj_mul.
      assert (Hpow : 2 ^ (ex + bias) * 2 ^ (ey + bias)
                     = 2 ^ (ex + ey + bias) * 2 ^ bias).
      { rewrite <- !Z.pow_add_r by (unfold bias; lia). f_equal. lia. }
      transitivity (Zpos mx * Zpos my * (2 ^ (ex + bias) * 2 ^ (ey + bias)));
        [ring|rewrite Hpow; ring]. }
    rewrite Hprod.
    assert (Hb : 2 ^ bias <> 0) by (apply Z.pow_nonzero; unfold bias; lia).
    rewrite cond_Zopp_div_exact by (try apply Z.mod_mul; assumption).
    rewrite Z.div_mul by assumption.
    symmetry. apply rnd_cond_Zopp.
    apply Z.mul_nonneg_nonneg; [lia|]. apply Z.pow_nonneg. lia.
Qed.

Lemma iter_xO_value (m d : positive) :
  Zpos (Pos.iter xO m d) = Zpos m * 2 ^ Zpos d.
Proof.
  induction d as [|d IH] using Pos.peano_ind.
  - simpl. lia.
  - rewrite Pos.iter_succ, Pos2Z.inj_xO, IH, Pos2Z.inj_succ.
    rewrite Z.pow_succ_r by lia. ring.
Qed.

(** Aligning a mantissa keeps the value and lowers the exponent to the
    one asked for, when that is lower. *)
Lemma shl_align_value mx ex ex' :
  - bias <= ex' ->
  Zpos (fst (shl_align mx ex ex')) * 2 ^ (snd (shl_align mx ex ex') + bias)
  = Zpos mx * 2 ^ (ex + bias)
  /\ snd (shl_align mx ex ex') = Z.min ex ex'.
Proof.
  intros He'. unfold shl_align.
  destruct (ex' - ex) as [|d|d] eqn:Ed; cbn [fst snd].
  - split; [reflexivity|lia].
  - split; [reflexivity|lia].
  - split; [|lia]. rewrite iter_xO_value.
    replace (ex + bias) with (Zpos d + (ex' + bias)) by lia.
    rewrite (Z.pow_add_r 2 (Zpos d)) by lia. ring.
Qed.

(** [binary_round] is the rounding of the value it is given. *)
Lemma binary_round_W s m e :
  - bias <= e ->
  binary_round prec emax s m e <> S754_nan
  /\ W (binary_round prec emax s m e)
     = cond_Zopp s (rnd_pos (Zpos m * 2 ^ (e + bias))).
Proof.
  intros He. unfold binary_round.
  pose proof (fexp_ulp_exp m e He) as Hfexp.
  assert (He' : - bias <= fexp prec emax (Zpos (digits2_pos m) + e)).
  { rewrite Hfexp. pose proof (ulp_exp_pos (Zpos m * 2 ^ (e + bias))).
    unfold bias in * . lia. }
  destruct (shl_align_value m e _ He') as [Hval Hexp].
  destruct (shl_align m e _) as [mz ez]. cbn [fst snd] in Hval, Hexp.
  assert (Hez : - bias <= ez) by lia.
  assert (Hshift : ez + bias <= ulp_exp (Zpos mz * 2 ^ (ez + bias))).
  { rewrite Hval. lia. }
  rewrite (bra_eq _ _ _ Hez Hshift). split.
  - unfold rounded. pose proof (RN_range mz ez Hez Hshift) as Hr.
    destruct (RN _ _); try discriminate; [|lia].
    destruct (_ =? _); destruct (_ <=? _); discriminate.
  - rewrite (W_rounded _ _ _ Hez Hshift). now rewrite Hval.
Qed.

Lemma binary_normalize_W m e szero :
  - bias <= e ->
  binary_normalize prec emax m e szero <> S754_nan
  /\ W (binary_normalize prec emax m e szero) = rnd (m * 2 ^ (e + bias)).
Proof.
  intros He. unfold binary_normalize.
  assert (Hp : 0 < 2 ^ (e + bias)) by (apply pow2_pos; lia).
  destruct m as [|p|p].
  - split; [discriminate|reflexivity].
  - destruct (binary_round_W false p e He) as [Hn Hw].
    split; [exact Hn|]. rewrite Hw. cbn [cond_Zopp].
    unfold rnd. destruct (Z.ltb_spec (Zpos p * 2 ^ (e + bias)) 0); [nia|reflexivity].
  - destruct (binary_round_W true p e He) as [Hn Hw].
    split; [exact Hn|]. rewrite Hw. cbn [cond_Zopp].
    change (Z.neg p) with (- Zpos p). rewrite Z.mul_opp_l, rnd_opp.
    unfold rnd. destruct (Z.ltb_spec (Zpos p * 2 ^ (e + bias)) 0); [nia|reflexivity].
Qed.

Lemma aligned_value s m e ez :
  - bias <= ez -> ez <= e ->
  cond_Zopp s (Zpos (fst (shl_align m e ez))) * 2 ^ (ez + bias)
  = cond_Zopp s (Zpos m * 2 ^ (e + bias)).
Proof.
  intros Hez Hle.
  destruct (shl_align_value m e ez Hez) as [Hval Hexp].
  rewrite Z.min_r in Hexp by lia. rewrite Hexp in Hval.
  destruct s; cbn [cond_Zopp]; lia.
Qed.

(** The sum and the difference of two valid finite floats are the
    roundings of the sum and of the difference of their values. *)
Lemma SFadd_W x y :
  valid_binary x = true -> valid_binary y = true ->
  is_finite_SF x = true -> is_finite_SF y = true ->
  SFadd prec emax x y <> S754_nan
  /\ W (SFadd prec emax x y) = rnd (W x + W y).
Proof.
  intros Hx Hy Fx Fy.
  destruct x as [sx|sx| |sx mx ex]; try discriminate;
    destruct y as [sy|sy| |sy my ey]; try discriminate; cbn [SFadd].
  - split; [destruct sx, sy; discriminate|]. now destruct sx, sy.
  - split; [discriminate|]. cbn [W]. rewrite Z.add_0_l.
    symmetry. apply (rnd_W (S754_finite sy my ey)); assumption.
  - split; [discriminate|]. cbn [W]. rewrite Z.add_0_r.
    symmetry. apply (rnd_W (S754_finite sx mx ex)); assumption.
  - destruct (valid_finite _ _ _ Hx) as (Hex & _).
    destruct (valid_finite _ _ _ Hy) as (Hey & _).
    assert (Hez : - bias <= Z.min ex ey) by (unfold bias; lia).
    destruct (binary_normalize_W
                (cond_Zopp sx (Zpos (fst (shl_align mx ex (Z.min ex ey))))
                 + cond_Zopp sy (Zpos (fst (shl_align my ey (Z.min ex ey)))))
                (Z.min ex ey) false Hez) as [Hn Hw].
    split; [exact Hn|]. rewrite Hw. cbn [W]. f_equal.
    rewrite Z.mul_add_distr_r.
    rewrite !aligned_value by lia. reflexivity.
Qed.

Lemma SFsub_W x y :
  valid_binary x = true -> valid_binary y = true ->
  is_finite_SF x = true -> is_finite_SF y = true ->
  SFsub prec emax x y <> S754_nan
  /\ W (SFsub prec emax x y) = rnd (W x - W y).
Proof.
  intros Hx Hy Fx Fy.
  destruct x as [sx|sx| |sx mx ex]; try discriminate;
    destruct y as [sy|sy| |sy my ey]; try discriminate; cbn [SFsub].
  - split; [destruct sx, sy; discriminate|]. now destruct sx, sy.
  - split; [discriminate|]. cbn [W].
    assert (Hy' : valid_binary (S754_finite (negb sy) my ey) = true) by exact Hy.
    replace (0 - cond_Zopp sy (Zpos my * 2 ^ (ey + bias)))
      with (cond_Zopp (negb sy) (Zpos my * 2 ^ (ey + bias)))
      by (destruct sy; cbn [cond_Zopp negb]; lia).
    symmetry. exact (rnd_W (S754_finite (negb sy) my ey) Hy' eq_refl).
  - split; [discriminate|]. cbn [W]. rewrite Z.sub_0_r.
    symmetry. apply (rnd_W (S754_finite sx mx ex)); assumption.
  - destruct (valid_finite _ _ _ Hx) as (Hex & _).
    destruct (valid_finite _ _ _ Hy) as (Hey & _).
    assert (Hez : - bias <= Z.min ex ey) by (unfold bias; lia).
    destruct (binary_normalize_W
                (cond_Zopp sx (Zpos (fst (shl_align mx ex (Z.min ex ey))))
                 - cond_Zopp sy (Zpos (fst (shl_align my ey (Z.min ex ey)))))
                (Z.min ex ey) false Hez) as [Hn Hw].
    split; [exact Hn|]. rewrite Hw. cbn [W]. f_equal.
    rewrite Z.mul_sub_distr_r.
    rewrite !aligned_value by lia. reflexivity.
Qed.

(** *** Doubles *)

Lemma not_nan_SF x : not_nan x = true <-> Prim2SF x <> S754_nan.
Proof. unfold not_nan. destruct (Prim2SF x); split; congruence. Qed.

Lemma finite_not_nan x : is_finite x = true -> not_nan x = true.
Proof. unfold is_finite, not_nan. now destruct (Prim2SF x). Qed.

Lemma compare_Wf x y :
  not_nan x = true -> not_nan y = true ->
  SFcompare (Prim2SF x) (Prim2SF y) = Some (Wf x ?= Wf y).
Proof.
  intros Hx Hy. apply SFcompare_W; try apply Prim2SF_valid; now apply not_nan_SF.
Qed.

Lemma flt_Wf (x y : float) :
  not_nan x = true -> not_nan y = true -> (x <. y) = (Wf x <? Wf y).
Proof.
  intros Hx Hy. cbn [flt binary64]. rewrite ltb_spec. unfold SFltb.
  rewrite (compare_Wf x y Hx Hy). unfold Z.ltb. now destruct (Wf x ?= Wf y).
Qed.

Lemma fle_Wf (x y : float) :
  not_nan x = true -> not_nan y = true -> (x <=. y) = (Wf x <=? Wf y).
Proof.
  intros Hx Hy. cbn [fle binary64]. rewrite leb_spec. unfold SFleb.
  rewrite (compare_Wf x y Hx Hy). unfold Z.leb. now destruct (Wf x ?= Wf y).
Qed.

Lemma feq_Wf (x y : float) :
  not_nan x = true -> not_nan y = true -> (x ==. y) = (Wf x =? Wf y).
Proof.
  intros Hx Hy. cbn [feq binary64]. rewrite FloatAxioms.eqb_spec. unfold SFeqb.
  rewrite (compare_Wf x y Hx Hy).
  destruct (Z.compare_spec (Wf x) (Wf y));
    destruct (Z.eqb_spec (Wf x) (Wf y)); try lia; reflexivity.
Qed.

Lemma Wf_zero : Wf 0%float = 0.
Proof. reflexivity. Qed.

Lemma Wf_one : Wf 1%float = 2 ^ bias.
Proof.
  unfold Wf. rewrite Prim2SF_one. cbn [W cond_Zopp].
  change (Z.pos 4503599627370496) with (2 ^ 52).
  rewrite <- Z.pow_add_r by (unfold bias; lia). reflexivity.
Qed.

(** A comparison that holds has no NaN on either side. *)
Lemma fle_true (x y : float) :
  (x <=. y) = true -> not_nan x = true /\ not_nan y = true /\ Wf x <= Wf y.
Proof.
  intros H. assert (Hn : not_nan x = true /\ not_nan y = true).
  { cbn [fle binary64] in H. rewrite leb_spec in H. unfold SFleb, not_nan in * .
    destruct (Prim2SF x), (Prim2SF y); try discriminate; auto. }
  destruct Hn as [Hx Hy]. rewrite (fle_Wf x y Hx Hy) in H.
  apply Z.leb_le in H. auto.
Qed.

Lemma flt_true (x y : float) :
  (x <. y) = true -> not_nan x = true /\ not_nan y = true /\ Wf x < Wf y.
Proof.
  intros H. assert (Hn : not_nan x = true /\ not_nan y = true).
  { cbn [flt binary64] in H. rewrite ltb_spec in H. unfold SFltb, not_nan in * .
    destruct (Prim2SF x), (Prim2SF y); try discriminate; auto. }
  destruct Hn as [Hx Hy]. rewrite (flt_Wf x y Hx Hy) in H.
  apply Z.ltb_lt in H. auto.
Qed.

Lemma Wf_bounds x : - cap <= Wf x <= cap.
Proof.
  unfold Wf. pose proof (Prim2SF_valid x) as Hv. pose proof cap_pos.
  destruct (Prim2SF x) as [s|s| |s m e]; cbn [W]; try lia.
  - destruct s; cbn [cond_Zopp]; lia.
  - pose proof (W_finite_bounds s m e Hv). destruct s; cbn [cond_Zopp]; lia.
Qed.

Lemma Wf_finite_bounds x : is_finite x = true -> - cap < Wf x < cap.
Proof.
  unfold Wf, is_finite. pose proof (Prim2SF_valid x) as Hv. pose proof cap_pos.
  destruct (Prim2SF x) as [s|s| |s m e]; cbn [W]; try discriminate; intros _;
    try lia.
  pose proof (W_finite_bounds s m e Hv). destruct s; cbn [cond_Zopp]; lia.
Qed.

(** A double that is not NaN is finite exactly when its scaled value is
    strictly inside the range. *)
Lemma finite_iff_inside x :
  not_nan x = true -> (is_finite x = true <-> - cap < Wf x < cap).
Proof.
  intros Hn. split; [apply Wf_finite_bounds|].
  unfold Wf, is_finite, not_nan in * .
  destruct (Prim2SF x) as [s|s| |s m e]; cbn [W]; try discriminate; auto.
  destruct s; cbn [cond_Zopp]; lia.
Qed.

Lemma rnd_Wf x : is_finite x = true -> rnd (Wf x) = Wf x.
Proof. intros Hf. apply rnd_W; [apply Prim2SF_valid|exact Hf]. Qed.

Lemma fmul_Wf (x y : float) :
  is_finite x = true -> is_finite y = true ->
  not_nan (x *. y) = true /\ Wf (x *. y) = rnd (Wf x * Wf y / 2 ^ bias).
Proof.
  intros Hx Hy. cbn [fmul binary64]. unfold not_nan, Wf. rewrite mul_spec.
  destruct (SFmul_W (Prim2SF x) (Prim2SF y)
              (Prim2SF_valid x) (Prim2SF_valid y) Hx Hy) as [Hn Hw].
  split; [|exact Hw]. unfold SF64mul. now destruct (SFmul _ _ _ _).
Qed.

Lemma fadd_Wf (x y : float) :
  is_finite x = true -> is_finite y = true ->
  not_nan (x +. y) = true /\ Wf (x +. y) = rnd (Wf x + Wf y).
Proof.
  intros Hx Hy. cbn [fadd binary64]. unfold not_nan, Wf. rewrite add_spec.
  destruct (SFadd_W (Prim2SF x) (Prim2SF y)
              (Prim2SF_valid x) (Prim2SF_valid y) Hx Hy) as [Hn Hw].
  split; [|exact Hw]. unfold SF64add. now destruct (SFadd _ _ _ _).
Qed.

Lemma fsub_Wf (x y : float) :
  is_finite x = true -> is_finite y = true ->
  not_nan (x -. y) = true /\ Wf (x -. y) = rnd (Wf x - Wf y).
Proof.
  intros Hx Hy. cbn [fsub binary64]. unfold not_nan, Wf. rewrite sub_spec.
  destruct (SFsub_W (Prim2SF x) (Prim2SF y)
              (Prim2SF_valid x) (Prim2SF_valid y) Hx Hy) as [Hn Hw].
  split; [|exact Hw]. unfold SF64sub. now destruct (SFsub _ _ _ _).
Qed.

(** A finite result has finite operands. *)
Lemma fmul_finite_inv (x y : float) :
  is_finite (x *. y) = true -> is_finite x = true /\ is_finite y = true.
Proof.
  cbn [fmul binary64]. unfold is_finite. rewrite mul_spec. unfold SF64mul.
  destruct (Prim2SF x), (Prim2SF y); cbn [SFmul is_finite_SF]; auto.
Qed.

Lemma fadd_finite_inv (x y : float) :
  is_finite (x +. y) = true -> is_finite x = true /\ is_finite y = true.
Proof.
  cbn [fadd binary64]. unfold is_finite. rewrite add_spec. unfold SF64add.
  destruct (Prim2SF x) as [|[]| |], (Prim2SF y) as [|[]| |];
    cbn [SFadd is_finite_SF]; auto.
Qed.

Lemma fsub_finite_inv (x y : float) :
  is_finite (x -. y) = true -> is_finite x = true /\ is_finite y = true.
Proof.
  cbn [fsub binary64]. unfold is_finite. rewrite sub_spec. unfold SF64sub.
  destruct (Prim2SF x) as [|[]| |], (Prim2SF y) as [|[]| |];
    cbn [SFsub is_finite_SF]; auto.
Qed.

(** The clamp on scaled values. *)
Lemma clamp_Wf (x : float) :
  not_nan x = true ->
  not_nan (clamp x) = true
  /\ Wf (clamp x) = Z.max 0 (Z.min (2 ^ bias) (Wf x)).
Proof.
  intros Hx. unfold clamp, pymax, pymin.
  rewrite lit0_binary64, lit1_binary64.
  assert (H1 : not_nan 1%float = true) by reflexivity.
  assert (H0 : not_nan 0%float = true) by reflexivity.
  assert (Hb : 0 < 2 ^ bias) by (apply pow2_pos; unfold bias; lia).
  rewrite (flt_Wf x 1 Hx H1), Wf_one.
  destruct (Z.ltb_spec (Wf x) (2 ^ bias)) as [Hlt|Hge].
  - rewrite (flt_Wf 0 x H0 Hx), Wf_zero.
    destruct (Z.ltb_spec 0 (Wf x)); (split; [assumption|]); rewrite ?Wf_zero; lia.
  - rewrite (flt_Wf 0 1 H0 H1), Wf_zero, Wf_one.
    destruct (Z.ltb_spec 0 (2 ^ bias)); [|lia].
    split; [assumption|]. rewrite Wf_one. lia.
Qed.

Lemma valid_rounded s m e :
  - bias <= e ->
  e + bias <= ulp_exp (Zpos m * 2 ^ (e + bias)) ->
  valid_binary (rounded s (RN (Zpos m * 2 ^ (e + bias))
                              (ulp_exp (Zpos m * 2 ^ (e + bias))))
                  (ulp_exp (Zpos m * 2 ^ (e + bias)) - bias)) = true.
Proof.
  intros He Hshift.
  pose proof (RN_range m e He Hshift) as Hr.
  pose proof (quotient_ge m e He) as Hq52.
  pose proof (RN_bounds (Zpos m * 2 ^ (e + bias))
                (ulp_exp (Zpos m * 2 ^ (e + bias)))) as HB.
  pose proof (ulp_exp_pos (Zpos m * 2 ^ (e + bias))) as Ht.
  set (t := ulp_exp (Zpos m * 2 ^ (e + bias))) in * .
  set (r := RN (Zpos m * 2 ^ (e + bias)) t) in * .
  unfold rounded.
  destruct r as [|m1|m1] eqn:Er; [reflexivity| |lia].
  destruct (Z.eqb_spec (Zpos m1) (2 ^ 53)) as [Ec|Nc].
  - destruct (Z.leb_spec (t - bias + 1) (emax - prec)) as [Hle|Hgt];
      [|reflexivity].
    cbn [valid_binary]. unfold bounded, canonical_mantissa.
    apply andb_true_iff. split; [|now apply Z.leb_le].
    apply Z.eqb_eq. change (Z.pos (digits2_pos (2 ^ 52))) with 53.
    unfold fexp, emin, prec, emax, bias in * . lia.
  - destruct (Z.leb_spec (t - bias) (emax - prec)) as [Hle|Hgt];
      [|reflexivity].
    cbn [valid_binary]. unfold bounded, canonical_mantissa.
    apply andb_true_iff. split; [|now apply Z.leb_le].
    apply Z.eqb_eq. rewrite digits2_pos_log2.
    assert (Hm53 : Zpos m1 < 2 ^ 53) by lia.
    assert (Hl : Z.log2 (Zpos m1) < 53) by (apply Z.log2_lt_pow2; lia).
    destruct (Z_le_gt_dec t 1074) as [Hsub|Hnorm].
    + unfold fexp, emin, prec, emax, bias in * . lia.
    + specialize (Hq52 ltac:(lia)).
      assert (52 <= Z.log2 (Zpos m1)) by (apply Z.log2_le_pow2; lia).
      unfold fexp, emin, prec, emax, bias in * . lia.
Qed.

Lemma valid_binary_round s m e :
  - bias <= e -> valid_binary (binary_round prec emax s m e) = true.
Proof.
  intros He. unfold binary_round.
  pose proof (fexp_ulp_exp m e He) as Hfexp.
  assert (He' : - bias <= fexp prec emax (Zpos (digits2_pos m) + e)).
  { rewrite Hfexp. pose proof (ulp_exp_pos (Zpos m * 2 ^ (e + bias))).
    unfold bias in * . lia. }
  destruct (shl_align_value m e _ He') as [Hval Hexp].
  destruct (shl_align m e _) as [mz ez]. cbn [fst snd] in Hval, Hexp.
  assert (Hez : - bias <= ez) by lia.
  assert (Hshift : ez + bias <= ulp_exp (Zpos mz * 2 ^ (ez + bias))).
  { rewrite Hval. lia. }
  rewrite (bra_eq _ _ _ Hez Hshift). now apply valid_rounded.
Qed.

Lemma valid_Z2SF n : valid_binary (Z2SF n) = true.
Proof.
  unfold Z2SF, binary_normalize.
  destruct n; [reflexivity| |]; apply valid_binary_round; unfold bias; lia.
Qed.

(** The conversion of an [int]: the rounding of its value, finite when it
    returns. *)
Lemma of_int_Wf (n : Z) (k : float) :
  of_int n = Return k ->
  is_finite k = true /\ Wf k = rnd (n * 2 ^ bias).
Proof.
  cbn [of_int binary64]. destruct (is_finite_SF (Z2SF n)) eqn:Hf; [|discriminate].
  intros [= <-]. unfold is_finite, Wf.
  rewrite (Prim2SF_SF2Prim _ (valid_Z2SF n)).
  split; [exact Hf|].
  unfold Z2SF. destruct (binary_normalize_W n 0 false ltac:(unfold bias; lia)) as [_ Hw].
  rewrite Hw. f_equal.
Qed.

Lemma rnd_nonneg w : 0 <= w -> 0 <= rnd w.
Proof.
  intros Hw. unfold rnd. destruct (Z.ltb_spec w 0); [lia|].
  now apply rnd_pos_nonneg.
Qed.

Lemma rnd_nonpos w : w <= 0 -> rnd w <= 0.
Proof.
  intros Hw. replace w with (- - w) by lia. rewrite rnd_opp.
  pose proof (rnd_nonneg (- w) ltac:(lia)). lia.
Qed.

Lemma rnd_0 : rnd 0 = 0.
Proof. reflexivity. Qed.

(** * The update on doubles *)

(** ** Signs and order through the operations of the update *)

Lemma unit_pos : 0 < 2 ^ bias.
Proof. apply pow2_pos. unfold bias. lia. Qed.

Lemma scaled_nonneg a b : 0 <= a -> 0 <= b -> 0 <= a * b / 2 ^ bias.
Proof. intros. apply Z.div_pos; [nia|apply unit_pos]. Qed.

Lemma scaled_nonpos a b : 0 <= a -> b <= 0 -> a * b / 2 ^ bias <= 0.
Proof.
  intros. pose proof unit_pos.
  apply Z.le_trans with (0 / 2 ^ bias); [|now rewrite Z.div_0_l by lia].
  apply Z.div_le_mono; nia.
Qed.

Lemma scaled_mono_r a b b' :
  0 <= a -> b <= b' -> a * b / 2 ^ bias <= a * b' / 2 ^ bias.
Proof. intros. pose proof unit_pos. apply Z.div_le_mono; nia. Qed.

Lemma scaled_mono_l a a' b :
  0 <= b -> a <= a' -> a * b / 2 ^ bias <= a' * b / 2 ^ bias.
Proof. intros. pose proof unit_pos. apply Z.div_le_mono; nia. Qed.

Lemma scaled_anti_l a a' b :
  b <= 0 -> a <= a' -> a' * b / 2 ^ bias <= a * b / 2 ^ bias.
Proof. intros. pose proof unit_pos. apply Z.div_le_mono; nia. Qed.

Lemma Wf_lit0 : Wf (lit 0) = 0.
Proof. rewrite lit0_binary64. apply Wf_zero. Qed.

Lemma Wf_lit1 : Wf (lit 1) = 2 ^ bias.
Proof. rewrite lit1_binary64. apply Wf_one. Qed.

Lemma unit_below_cap : 2 ^ bias < cap.
Proof. unfold cap. apply Z.pow_lt_mono_r; unfold bias; lia. Qed.

(** A double of [0, 1] is finite, between 0 and the unit. *)
Lemma in_unit_Wf (t : float) :
  in_unit t = true -> is_finite t = true /\ 0 <= Wf t <= 2 ^ bias.
Proof.
  unfold in_unit. intros Hb. apply andb_true_iff in Hb. destruct Hb as [H0 H1].
  apply fle_true in H0. apply fle_true in H1.
  destruct H0 as (_ & Hn & H0). destruct H1 as (_ & _ & H1).
  rewrite Wf_lit0 in H0. rewrite Wf_lit1 in H1.
  split; [|lia]. apply finite_iff_inside; [exact Hn|].
  pose proof unit_below_cap. pose proof cap_pos. lia.
Qed.

(** [0.0 <= x] read on the scaled value. *)
Lemma nonneg_Wf (x : float) : (lit 0 <=. x) = true -> 0 <= Wf x.
Proof. intros H. apply fle_true in H. rewrite Wf_lit0 in H. tauto. Qed.

Lemma fmul_parts (x y : float) :
  is_finite (x *. y) = true ->
  is_finite x = true /\ is_finite y = true
  /\ Wf (x *. y) = rnd (Wf x * Wf y / 2 ^ bias).
Proof.
  intros Hf. destruct (fmul_finite_inv x y Hf) as [Hx Hy].
  repeat split; auto. apply (fmul_Wf x y Hx Hy).
Qed.

Lemma fadd_parts (x y : float) :
  is_finite (x +. y) = true ->
  is_finite x = true /\ is_finite y = true
  /\ Wf (x +. y) = rnd (Wf x + Wf y).
Proof.
  intros Hf. destruct (fadd_finite_inv x y Hf) as [Hx Hy].
  repeat split; auto. apply (fadd_Wf x y Hx Hy).
Qed.

Lemma fsub_parts (x y : float) :
  is_finite (x -. y) = true ->
  is_finite x = true /\ is_finite y = true
  /\ Wf (x -. y) = rnd (Wf x - Wf y).
Proof.
  intros Hf. destruct (fsub_finite_inv x y Hf) as [Hx Hy].
  repeat split; auto. apply (fsub_Wf x y Hx Hy).
Qed.

(** The amplification [s * (1 + n * delta)] on the scaled values. *)
Lemma amplification_Wf (severity n d : float) :
  is_finite (severity *. (lit 1 +. n *. d)) = true ->
  is_finite severity = true /\ is_finite n = true /\ is_finite d = true
  /\ Wf (severity *. (lit 1 +. n *. d))
     = rnd (Wf severity
            * rnd (2 ^ bias + rnd (Wf n * Wf d / 2 ^ bias)) / 2 ^ bias).
Proof.
  intros Hf.
  destruct (fmul_parts _ _ Hf) as (Hs & H1 & ->).
  destruct (fadd_parts _ _ H1) as (_ & H2 & ->).
  destruct (fmul_parts _ _ H2) as (Hn & Hd & ->).
  now rewrite Wf_lit1.
Qed.

Lemma amplification_nonneg (severity n d : float) :
  is_finite (severity *. (lit 1 +. n *. d)) = true ->
  0 <= Wf severity -> 0 <= Wf n -> 0 <= Wf d ->
  0 <= Wf (severity *. (lit 1 +. n *. d)).
Proof.
  intros Hf Hs Hn Hd.
  destruct (amplification_Wf _ _ _ Hf) as (_ & _ & _ & ->).
  pose proof unit_pos.
  apply rnd_nonneg, scaled_nonneg; [exact Hs|].
  apply rnd_nonneg.
  pose proof (rnd_nonneg _ (scaled_nonneg _ _ Hn Hd)). lia.
Qed.

Lemma amplification_mono (severity n n' d : float) :
  is_finite (severity *. (lit 1 +. n *. d)) = true ->
  is_finite (severity *. (lit 1 +. n' *. d)) = true ->
  0 <= Wf severity -> 0 <= Wf d -> Wf n <= Wf n' ->
  Wf (severity *. (lit 1 +. n *. d)) <= Wf (severity *. (lit 1 +. n' *. d)).
Proof.
  intros Hf Hf' Hs Hd Hn.
  destruct (amplification_Wf _ _ _ Hf) as (_ & _ & _ & ->).
  destruct (amplification_Wf _ _ _ Hf') as (_ & _ & _ & ->).
  apply rnd_mono, scaled_mono_r; [exact Hs|].
  apply rnd_mono.
  pose proof (rnd_mono _ _ (scaled_mono_l _ _ _ Hd Hn)). lia.
Qed.

(** The change [delta_t] on the scaled values. *)
Lemma delta_t_Wf (reward severity n : float) (self : TrustMeter float) :
  is_finite (delta_t reward severity n self) = true ->
  is_finite (pick_alpha reward self) = true
  /\ is_finite (severity *. (lit 1 +. n *. delta self)) = true
  /\ is_finite reward = true /\ is_finite (_trust self) = true
  /\ Wf (delta_t reward severity n self)
     = rnd (rnd (Wf (pick_alpha reward self)
                 * Wf (severity *. (lit 1 +. n *. delta self)) / 2 ^ bias)
            * rnd (Wf reward - Wf (_trust self)) / 2 ^ bias).
Proof.
  unfold delta_t. intros Hf.
  destruct (fmul_parts _ _ Hf) as (H1 & H2 & ->).
  destruct (fmul_parts _ _ H1) as (Ha & Hm & ->).
  destruct (fsub_parts _ _ H2) as (Hr & Ht & ->).
  auto.
Qed.

Section change_of_trust.
Variables (reward severity : float) (self : TrustMeter float).
Hypothesis alpha_pos_nonneg : (lit 0 <=. alpha_pos self) = true.
Hypothesis alpha_neg_nonneg : (lit 0 <=. alpha_neg self) = true.
Hypothesis severity_nonneg : (lit 0 <=. severity) = true.
Hypothesis delta_nonneg : (lit 0 <=. delta self) = true.

Lemma pick_alpha_nonneg : 0 <= Wf (pick_alpha reward self).
Proof.
  unfold pick_alpha. destruct (_ <. _); now apply nonneg_Wf.
Qed.

Lemma rate_nonneg (n : float) :
  is_finite (delta_t reward severity n self) = true -> 0 <= Wf n ->
  0 <= rnd (Wf (pick_alpha reward self)
            * Wf (severity *. (lit 1 +. n *. delta self)) / 2 ^ bias).
Proof.
  intros Hf Hn. destruct (delta_t_Wf _ _ _ _ Hf) as (_ & Hm & _).
  apply rnd_nonneg, scaled_nonneg; [apply pick_alpha_nonneg|].
  apply amplification_nonneg; auto using nonneg_Wf.
Qed.

(** The change has the sign of the surprise, or is zero. *)
Lemma delta_t_sign (n : float) :
  is_finite (delta_t reward severity n self) = true -> 0 <= Wf n ->
  (Wf reward <= Wf (_trust self) -> Wf (delta_t reward severity n self) <= 0)
  /\ (Wf (_trust self) <= Wf reward ->
      0 <= Wf (delta_t reward severity n self)).
Proof.
  intros Hf Hn. pose proof (rate_nonneg n Hf Hn) as Hrate.
  destruct (delta_t_Wf _ _ _ _ Hf) as (_ & _ & _ & _ & ->).
  split; intros Hs.
  - apply rnd_nonpos, scaled_nonpos; [exact Hrate|].
    apply rnd_nonpos. lia.
  - apply rnd_nonneg, scaled_nonneg; [exact Hrate|].
    apply rnd_nonneg. lia.
Qed.

(** A larger converted counter makes the change larger in size. *)
Lemma delta_t_mono (n n' : float) :
  is_finite (delta_t reward severity n self) = true ->
  is_finite (delta_t reward severity n' self) = true ->
  0 <= Wf n -> Wf n <= Wf n' ->
  (Wf reward <= Wf (_trust self) ->
   Wf (delta_t reward severity n' self) <= Wf (delta_t reward severity n self))
  /\ (Wf (_trust self) <= Wf reward ->
      Wf (delta_t reward severity n self)
      <= Wf (delta_t reward severity n' self)).
Proof.
  intros Hf Hf' Hn Hnn.
  pose proof (rate_nonneg n Hf Hn) as Hrate.
  destruct (delta_t_Wf _ _ _ _ Hf) as (_ & Hm & _ & _ & ->).
  destruct (delta_t_Wf _ _ _ _ Hf') as (_ & Hm' & _ & _ & ->).
  assert (Hrates :
    rnd (Wf (pick_alpha reward self)
         * Wf (severity *. (lit 1 +. n *. delta self)) / 2 ^ bias)
    <= rnd (Wf (pick_alpha reward self)
            * Wf (severity *. (lit 1 +. n' *. delta self)) / 2 ^ bias)).
  { apply rnd_mono, scaled_mono_r; [apply pick_alpha_nonneg|].
    apply amplification_mono; auto using nonneg_Wf. }
  split; intros Hs.
  - apply rnd_mono, scaled_anti_l; [|exact Hrates]. apply rnd_nonpos. lia.
  - apply rnd_mono, scaled_mono_l; [|exact Hrates]. apply rnd_nonneg. lia.
Qed.

End change_of_trust.

(** Clamping and adding on the scaled values. *)
Lemma clamp_le_Z u t x : 0 <= t -> x <= t -> Z.max 0 (Z.min u x) <= t.
Proof. lia. Qed.

Lemma clamp_ge_Z u t x : 0 <= t <= u -> t <= x -> t <= Z.max 0 (Z.min u x).
Proof. lia. Qed.

Lemma clamp_mono_Z u x y :
  x <= y -> Z.max 0 (Z.min u x) <= Z.max 0 (Z.min u y).
Proof. lia. Qed.

Lemma rnd_add_nonpos t d : rnd t = t -> d <= 0 -> rnd (t + d) <= t.
Proof.
  intros Ht Hd. rewrite <- Ht at 2. apply rnd_mono. lia.
Qed.

Lemma rnd_add_nonneg t d : rnd t = t -> 0 <= d -> t <= rnd (t + d).
Proof.
  intros Ht Hd. rewrite <- Ht at 1. apply rnd_mono. lia.
Qed.

Lemma rnd_add_mono t d d' : d <= d' -> rnd (t + d) <= rnd (t + d').
Proof. intros Hd. apply rnd_mono. lia. Qed.

(** Adding a finite change and clamping, on the scaled values. *)
Lemma clamp_add_Wf (t d : float) :
  is_finite t = true -> is_finite d = true ->
  not_nan (clamp (t +. d)) = true
  /\ Wf (clamp (t +. d)) = Z.max 0 (Z.min (2 ^ bias) (rnd (Wf t + Wf d))).
Proof.
  intros Ht Hd. destruct (fadd_Wf t d Ht Hd) as [Hn Hw].
  destruct (clamp_Wf _ Hn) as [Hc ->]. now rewrite Hw.
Qed.

(** The counter of a meter converts to a non-negative double, larger for
    a larger counter. *)
Lemma of_int_nonneg (k : Z) (n : float) :
  0 <= k -> of_int k = Return n -> 0 <= Wf n.
Proof.
  intros Hk Hn. destruct (of_int_Wf k n Hn) as [_ ->].
  pose proof unit_pos. apply rnd_nonneg. nia.
Qed.

Lemma of_int_mono (k k' : Z) (n n' : float) :
  k <= k' -> of_int k = Return n -> of_int k' = Return n' -> Wf n <= Wf n'.
Proof.
  intros Hk Hn Hn'. destruct (of_int_Wf k n Hn) as [_ ->].
  destruct (of_int_Wf k' n' Hn') as [_ ->].
  pose proof unit_pos. apply rnd_mono. nia.
Qed.

Lemma bump_nonneg (reward : float) (self : TrustMeter float) :
  0 <= _betrayals self -> 0 <= _betrayals (bump reward self).
Proof. rewrite bump_betrayals. destruct (_ <. _); lia. Qed.

(** X11. On doubles the update never goes the wrong way.  With the trust
    in [0, 1], non-negative rates, severity and [delta], a non-negative
    counter, and a change [delta_t] that is finite, [observe] returns, and
    a reward below the trust leaves the trust no higher, a reward above it
    no lower, rounding and clamping included. *)
Theorem observe_direction (reward severity n : float)
  (self : TrustMeter float) :
  in_unit (_trust self) = true ->
  (lit 0 <=. alpha_pos self) = true ->
  (lit 0 <=. alpha_neg self) = true ->
  (lit 0 <=. severity) = true ->
  (lit 0 <=. delta self) = true ->
  0 <= _betrayals self ->
  (reward ==. lit 0) = false ->
  of_int (_betrayals (bump reward self)) = Return n ->
  is_finite (delta_t reward severity n self) = true ->
  fst (observe reward severity self) = Return tt
  /\ ((reward <. _trust self) = true ->
      (_trust (after reward severity self) <=. _trust self) = true)
  /\ ((_trust self <. reward) = true ->
      (_trust self <=. _trust (after reward severity self)) = true).
Proof.
  intros Hin Hap Han Hs Hd Hc Hnz Hn Hf.
  unfold after. rewrite (observe_delta_t reward severity n self Hnz Hn).
  cbn [fst snd set_trust _trust].
  destruct (in_unit_Wf _ Hin) as [Ht [Ht0 Ht1]].
  pose proof (of_int_nonneg _ _ (bump_nonneg reward self Hc) Hn) as Hn0.
  destruct (delta_t_sign reward severity self Hap Han Hs Hd n Hf Hn0)
    as [Hdown Hup].
  destruct (clamp_add_Wf _ _ Ht Hf) as [Hnn Hw].
  pose proof (rnd_Wf _ Ht) as Hfix.
  split; [reflexivity|]. split; intros Hlt.
  - apply flt_true in Hlt. destruct Hlt as (_ & _ & Hlt).
    rewrite fle_Wf by auto using finite_not_nan. apply Z.leb_le. rewrite Hw.
    apply clamp_le_Z; [exact Ht0|].
    apply rnd_add_nonpos; [exact Hfix|]. apply Hdown. apply Z.lt_le_incl, Hlt.
  - apply flt_true in Hlt. destruct Hlt as (_ & _ & Hlt).
    rewrite fle_Wf by auto using finite_not_nan. apply Z.leb_le. rewrite Hw.
    apply clamp_ge_Z; [split; assumption|].
    apply rnd_add_nonneg; [exact Hfix|]. apply Hup. apply Z.lt_le_incl, Hlt.
Qed.

(** X12. On doubles past betrayals never soften an update.  Take a meter
    and the same meter with a larger counter, both under the conditions
    of the direction theorem.  After the same [observe] call the meter
    with the larger counter has the trust no higher when the reward was
    below the trust, and no lower when the reward was above it: the
    factor [1 + n * delta] scales gains as it scales losses. *)
Theorem more_betrayals_larger_change (reward severity n n' : float)
  (self : TrustMeter float) (k : Z) :
  let more := set_betrayals (_betrayals self + k) self in
  0 <= k ->
  in_unit (_trust self) = true ->
  (lit 0 <=. alpha_pos self) = true ->
  (lit 0 <=. alpha_neg self) = true ->
  (lit 0 <=. severity) = true ->
  (lit 0 <=. delta self) = true ->
  0 <= _betrayals self ->
  (reward ==. lit 0) = false ->
  of_int (_betrayals (bump reward self)) = Return n ->
  of_int (_betrayals (bump reward more)) = Return n' ->
  is_finite (delta_t reward severity n self) = true ->
  is_finite (delta_t reward severity n' more) = true ->
  ((reward <. _trust self) = true ->
   (_trust (after reward severity more) <=. _trust (after reward severity self))
   = true)
  /\ ((_trust self <. reward) = true ->
      (_trust (after reward severity self) <=. _trust (after reward severity more))
      = true).
Proof.
  intros more Hk Hin Hap Han Hs Hd Hc Hnz Hn Hn' Hf Hf'.
  unfold after.
  rewrite (observe_delta_t reward severity n self Hnz Hn).
  rewrite (observe_delta_t reward severity n' more Hnz Hn').
  cbn [fst snd set_trust _trust].
  change (_trust more) with (_trust self).
  change (delta_t reward severity n' more)
    with (delta_t reward severity n' self) in * .
  destruct (in_unit_Wf _ Hin) as [Ht [Ht0 Ht1]].
  pose proof (of_int_nonneg _ _ (bump_nonneg reward self Hc) Hn) as Hn0.
  assert (Hle : Wf n <= Wf n').
  { refine (of_int_mono _ _ _ _ _ Hn Hn').
    rewrite !bump_betrayals. change (_trust more) with (_trust self).
    change (_betrayals more) with (_betrayals self + k).
    destruct (_ <. _); lia. }
  destruct (delta_t_mono reward severity self Hap Han Hs Hd n n' Hf Hf' Hn0 Hle)
    as [Hdown Hup].
  destruct (clamp_add_Wf _ _ Ht Hf) as [Hnn Hw].
  destruct (clamp_add_Wf _ _ Ht Hf') as [Hnn' Hw'].
  split; intros Hlt.
  - apply flt_true in Hlt. destruct Hlt as (_ & _ & Hlt).
    rewrite fle_Wf by auto. apply Z.leb_le. rewrite Hw, Hw'.
    apply clamp_mono_Z, rnd_add_mono, Hdown. apply Z.lt_le_incl, Hlt.
  - apply flt_true in Hlt. destruct Hlt as (_ & _ & Hlt).
    rewrite fle_Wf by auto. apply Z.leb_le. rewrite Hw, Hw'.
    apply clamp_mono_Z, rnd_add_mono, Hup. apply Z.lt_le_incl, Hlt.
Qed.

(** ** No surprise, and a clear betrayal *)

(** A positive finite double sits on the grid of its last place. *)
Lemma Wf_grid (x : float) :
  is_finite x = true -> 0 < Wf x -> Wf x mod 2 ^ ulp_exp (Wf x) = 0.
Proof.
  unfold is_finite, Wf. pose proof (Prim2SF_valid x) as Hv.
  destruct (Prim2SF x) as [s|s| |s m e]; cbn [W is_finite_SF];
    try discriminate; try lia.
  intros _ Hpos. destruct (valid_finite s m e Hv) as (He & _ & _ & Hu).
  pose proof (W_finite_bounds s m e Hv) as Hb.
  destruct s; cbn [cond_Zopp] in * ; [lia|].
  rewrite Hu. apply Z.mod_mul. apply Z.pow_nonzero; unfold bias; lia.
Qed.

(** A positive value on the grid of its own last place is its own
    rounding. *)
Lemma rnd_on_grid (p : Z) :
  0 < p < cap -> p mod 2 ^ ulp_exp p = 0 -> rnd p = p.
Proof.
  intros Hp Hg. unfold rnd. destruct (Z.ltb_spec p 0); [lia|].
  unfold rnd_pos, round53. pose proof (ulp_exp_pos p) as Ht.
  rewrite RN_exact by (auto; lia).
  assert (Hd : p = 2 ^ ulp_exp p * (p / 2 ^ ulp_exp p)).
  { apply Z.div_exact; [apply Z.pow_nonzero; lia|exact Hg]. }
  rewrite Z.mul_comm, <- Hd. lia.
Qed.

Lemma pow2_divides a b x :
  0 <= a <= b -> x mod 2 ^ b = 0 -> x mod 2 ^ a = 0.
Proof.
  intros Hab Hx. rewrite (pow2_split a b Hab) in Hx.
  assert (Hpa : 0 < 2 ^ a) by (apply pow2_pos; lia).
  assert (Hpb : 0 < 2 ^ (b - a)) by (apply pow2_pos; lia).
  apply Z.mod_divide in Hx; [|nia]. apply Z.mod_divide; [lia|].
  destruct Hx as [q Hq]. exists (q * 2 ^ (b - a)). lia.
Qed.

(** Below a positive double of [0, 1], by a 2^-53 at least, the rounding
    stays strictly below the double. *)
Lemma rnd_below (t : float) (y : Z) :
  is_finite t = true -> 0 < Wf t <= 2 ^ bias ->
  y <= Wf t - 2 ^ (bias - 53) -> rnd y < Wf t.
Proof.
  intros Hf [Hpos Hle] Hy.
  assert (Hstep : 0 < 2 ^ (bias - 53)) by (apply pow2_pos; unfold bias; lia).
  destruct (Z_le_gt_dec (Wf t - 2 ^ (bias - 53)) 0) as [Hsmall|Hbig].
  - pose proof (rnd_mono y 0 ltac:(lia)) as Hm. rewrite rnd_0 in Hm. lia.
  - set (p := Wf t - 2 ^ (bias - 53)) in * .
    pose proof (Wf_grid t Hf Hpos) as Hg.
    pose proof (ulp_exp_pos p) as Htp.
    assert (Htk : ulp_exp p <= ulp_exp (Wf t)) by (apply ulp_exp_mono; lia).
    assert (Hlog : Z.log2 p < bias).
    { apply Z.log2_lt_pow2; lia. }
    assert (Htb : ulp_exp p <= bias - 53).
    { unfold ulp_exp in * . unfold bias in * . lia. }
    assert (Hgp : p mod 2 ^ ulp_exp p = 0).
    { assert (Hnz : 2 ^ ulp_exp p <> 0) by (apply Z.pow_nonzero; lia).
      apply Z.mod_divide; [exact Hnz|]. apply Z.divide_sub_r.
      - apply Z.mod_divide; [exact Hnz|].
        apply (pow2_divides (ulp_exp p) (ulp_exp (Wf t))); [lia|exact Hg].
      - apply Z.mod_divide; [exact Hnz|].
        apply (pow2_divides (ulp_exp p) (bias - 53)); [lia|].
        apply Z.mod_same. lia. }
    pose proof unit_below_cap.
    pose proof (rnd_on_grid p ltac:(lia) Hgp) as Hfix.
    pose proof (rnd_mono y p Hy). lia.
Qed.

Lemma Wf_feq (x y : float) : (x ==. y) = true -> 
  not_nan x = true /\ not_nan y = true /\ Wf x = Wf y.
Proof.
  intros H. assert (Hn : not_nan x = true /\ not_nan y = true).
  { cbn [feq binary64] in H. rewrite FloatAxioms.eqb_spec in H.
    unfold SFeqb, not_nan in * .
    destruct (Prim2SF x), (Prim2SF y); try discriminate; auto. }
  destruct Hn as [Hx Hy]. rewrite (feq_Wf x y Hx Hy) in H.
  apply Z.eqb_eq in H. auto.
Qed.

(** X13. A reward equal to the trust is no surprise.  On doubles, with
    the trust in [0, 1] and a finite change, such an [observe] takes the
    rate of the negative side, does not count a betrayal, and leaves the
    trust equal to what it was. *)
Theorem equal_reward_changes_nothing (reward severity n : float)
  (self : TrustMeter float) :
  in_unit (_trust self) = true ->
  (reward ==. _trust self) = true ->
  (reward ==. lit 0) = false ->
  of_int (_betrayals self) = Return n ->
  is_finite (delta_t reward severity n self) = true ->
  fst (observe reward severity self) = Return tt
  /\ pick_alpha reward self = alpha_neg self
  /\ _betrayals (after reward severity self) = _betrayals self
  /\ (_trust (after reward severity self) ==. _trust self) = true.
Proof.
  intros Hin Heq Hnz Hn Hf.
  destruct (Wf_feq _ _ Heq) as (Hnr & Hnt & Hw).
  assert (Hlt : (reward <. _trust self) = false).
  { rewrite flt_Wf by auto. apply Z.ltb_ge. lia. }
  assert (Hgt : (_trust self <. reward) = false).
  { rewrite flt_Wf by auto. apply Z.ltb_ge. lia. }
  assert (Hb : bump reward self = self) by (unfold bump; now rewrite Hlt).
  unfold after.
  rewrite (observe_delta_t reward severity n self Hnz); [|now rewrite Hb].
  rewrite Hb. cbn [fst snd set_trust _trust _betrayals].
  split; [reflexivity|]. split; [unfold pick_alpha; now rewrite Hgt|].
  split; [reflexivity|].
  destruct (in_unit_Wf _ Hin) as [Ht [Ht0 Ht1]].
  destruct (clamp_add_Wf _ _ Ht Hf) as [Hnn Hc].
  destruct (delta_t_Wf _ _ _ _ Hf) as (_ & _ & _ & _ & Hd).
  rewrite feq_Wf by auto. apply Z.eqb_eq. rewrite Hc, Hd.
  replace (Wf reward - Wf (_trust self)) with 0 by lia.
  rewrite rnd_0, Z.mul_0_r, Z.div_0_l by (pose proof unit_pos; lia).
  rewrite rnd_0, Z.add_0_r, (rnd_Wf _ Ht). lia.
Qed.

Lemma Wf_milli : Wf (lit (1 # 1024)) = 2 ^ (bias - 10).
Proof. vm_compute. reflexivity. Qed.

Lemma Wf_neg_milli : Wf (lit (-1 # 1024)) = - 2 ^ (bias - 10).
Proof. vm_compute. reflexivity. Qed.

Lemma finite_milli : is_finite (lit (1 # 1024)) = true.
Proof. vm_compute. reflexivity. Qed.

Lemma finite_one : is_finite (lit 1) = true.
Proof. vm_compute. reflexivity. Qed.

(** X14. On doubles a clear betrayal strictly lowers a positive trust.
    With the trust in (0, 1], a reward of -2^-10 or below, a negative
    rate of 2^-10 or more, a severity of 1 or more, a non-negative
    [delta] and counter, and a finite change, [observe] returns, counts
    the betrayal and leaves the trust strictly below what it was:
    neither rounding nor clamping absorbs the drop. *)
Theorem clear_betrayal_lowers_trust (reward severity n : float)
  (self : TrustMeter float) :
  in_unit (_trust self) = true ->
  (lit 0 <. _trust self) = true ->
  (reward <=. lit (-1 # 1024)) = true ->
  (lit (1 # 1024) <=. alpha_neg self) = true ->
  (lit 1 <=. severity) = true ->
  (lit 0 <=. delta self) = true ->
  0 <= _betrayals self ->
  of_int (_betrayals self + 1) = Return n ->
  is_finite (delta_t reward severity n self) = true ->
  fst (observe reward severity self) = Return tt
  /\ _betrayals (after reward severity self) = _betrayals self + 1
  /\ (_trust (after reward severity self) <. _trust self) = true.
Proof.
  intros Hin Hpos Hr Ha Hs Hd Hc Hn Hf.
  destruct (in_unit_Wf _ Hin) as [Ht [Ht0 Ht1]].
  apply flt_true in Hpos. destruct Hpos as (_ & Hnt & Hpos).
  rewrite Wf_lit0 in Hpos.
  apply fle_true in Hr. destruct Hr as (Hnr & _ & Hr).
  rewrite Wf_neg_milli in Hr.
  apply fle_true in Ha. destruct Ha as (_ & _ & Ha). rewrite Wf_milli in Ha.
  apply fle_true in Hs. destruct Hs as (_ & _ & Hs). rewrite Wf_lit1 in Hs.
  pose proof (nonneg_Wf _ Hd) as Hd0.
  pose proof unit_pos as Hu.
  assert (Hm : 0 < 2 ^ (bias - 10)) by (apply pow2_pos; unfold bias; lia).
  assert (Hlt : (reward <. _trust self) = true).
  { rewrite flt_Wf by auto. apply Z.ltb_lt. lia. }
  assert (Hgt : (_trust self <. reward) = false).
  { rewrite flt_Wf by auto. apply Z.ltb_ge. lia. }
  assert (Hnz : (reward ==. lit 0) = false).
  { rewrite feq_Wf by (auto; reflexivity). rewrite Wf_lit0.
    apply Z.eqb_neq. lia. }
  assert (Hb : bump reward self = set_betrayals (_betrayals self + 1) self)
    by (unfold bump; now rewrite Hlt).
  unfold after.
  rewrite (observe_delta_t reward severity n self Hnz); [|now rewrite Hb].
  rewrite Hb. cbn [fst snd set_trust set_betrayals _trust _betrayals].
  split; [reflexivity|]. split; [reflexivity|].
  assert (Hc1 : 0 <= _betrayals self + 1) by (clear - Hc; lia).
  pose proof (of_int_nonneg _ _ Hc1 Hn) as Hn0.
  destruct (clamp_add_Wf _ _ Ht Hf) as [Hnn Hcl].
  rewrite flt_Wf by auto. apply Z.ltb_lt. rewrite Hcl.
  destruct (delta_t_Wf _ _ _ _ Hf) as (_ & Hfm & _ & _ & Hdt).
  assert (Hpa : pick_alpha reward self = alpha_neg self)
    by (unfold pick_alpha; now rewrite Hgt).
  rewrite Hpa in Hdt.
  (* the amplification is at least one *)
  assert (Hamp : 2 ^ bias <= Wf (severity *. (lit 1 +. n *. delta self))).
  { destruct (amplification_Wf _ _ _ Hfm) as (_ & _ & _ & ->).
    rewrite <- (rnd_Wf (lit 1) finite_one) at 1. rewrite Wf_lit1.
    apply rnd_mono.
    assert (Hin1 : 2 ^ bias <= rnd (2 ^ bias + rnd (Wf n * Wf (delta self) / 2 ^ bias))).
    { rewrite <- Wf_lit1 at 1. rewrite <- (rnd_Wf (lit 1) finite_one), Wf_lit1.
      apply rnd_mono.
      pose proof (rnd_nonneg _ (scaled_nonneg _ _ Hn0 Hd0)). lia. }
    apply Z.div_le_lower_bound; [lia|]. nia. }
  (* the rate times the amplification is at least 2^-10 *)
  assert (Hrate : 2 ^ (bias - 10)
                  <= rnd (Wf (alpha_neg self)
                          * Wf (severity *. (lit 1 +. n *. delta self))
                          / 2 ^ bias)).
  { rewrite <- Wf_milli at 1. rewrite <- (rnd_Wf _ finite_milli), Wf_milli.
    apply rnd_mono. apply Z.div_le_lower_bound; [lia|]. nia. }
  (* the gap is at most -2^-10 *)
  assert (Hgap : rnd (Wf reward - Wf (_trust self)) <= - 2 ^ (bias - 10)).
  { rewrite <- Wf_milli. rewrite <- (rnd_Wf _ finite_milli), <- rnd_opp, Wf_milli.
    apply rnd_mono. lia. }
  (* so the change is at most -2^-20 *)
  assert (Hchange : Wf (delta_t reward severity n self) <= - 2 ^ (bias - 53)).
  { rewrite Hdt.
    assert (Hstep : rnd (- 2 ^ (bias - 20)) = - 2 ^ (bias - 20))
      by (vm_compute; reflexivity).
    assert (Hle : 2 ^ (bias - 53) <= 2 ^ (bias - 20))
      by (apply Z.pow_le_mono_r; unfold bias; lia).
    apply Z.le_trans with (rnd (- 2 ^ (bias - 20))); [|lia].
    apply rnd_mono.
    assert (Hsq : 2 ^ (bias - 10) * 2 ^ (bias - 10) = 2 ^ (bias - 20) * 2 ^ bias)
      by (vm_compute; reflexivity).
    apply Z.div_le_upper_bound; [lia|].
    set (r := rnd (Wf (alpha_neg self) * _ / _)) in * .
    set (g := rnd (Wf reward - _)) in * .
    clearbody r g. nia. }
  apply Z.max_lub_lt; [exact Hpos|].
  apply Z.min_lt_iff. right.
  apply rnd_below; [exact Ht|lia|lia].
Qed.

(** ** Not-a-number in the update *)

Lemma nan_mul_l (x y : float) : not_nan x = false -> not_nan (x *. y) = false.
Proof.
  cbn [fmul binary64]. unfold not_nan. rewrite mul_spec. unfold SF64mul.
  destruct (Prim2SF x); try discriminate. reflexivity.
Qed.

Lemma nan_mul_r (x y : float) : not_nan y = false -> not_nan (x *. y) = false.
Proof.
  cbn [fmul binary64]. unfold not_nan. rewrite mul_spec. unfold SF64mul.
  destruct (Prim2SF y); try discriminate. now destruct (Prim2SF x).
Qed.

Lemma nan_add_r (x y : float) : not_nan y = false -> not_nan (x +. y) = false.
Proof.
  cbn [fadd binary64]. unfold not_nan. rewrite add_spec. unfold SF64add.
  destruct (Prim2SF y); try discriminate. now destruct (Prim2SF x).
Qed.

Lemma nan_sub_l (x y : float) : not_nan x = false -> not_nan (x -. y) = false.
Proof.
  cbn [fsub binary64]. unfold not_nan. rewrite sub_spec. unfold SF64sub.
  destruct (Prim2SF x); try discriminate. reflexivity.
Qed.

Lemma nan_flt_l (x y : float) : not_nan x = false -> (x <. y) = false.
Proof.
  cbn [flt binary64]. unfold not_nan. rewrite ltb_spec. unfold SFltb.
  destruct (Prim2SF x); try discriminate. reflexivity.
Qed.

Lemma nan_flt_r (x y : float) : not_nan y = false -> (x <. y) = false.
Proof.
  cbn [flt binary64]. unfold not_nan. rewrite ltb_spec. unfold SFltb.
  destruct (Prim2SF y); try discriminate. now destruct (Prim2SF x).
Qed.

Lemma nan_feq_l (x y : float) : not_nan x = false -> (x ==. y) = false.
Proof.
  cbn [feq binary64]. unfold not_nan. rewrite FloatAxioms.eqb_spec.
  unfold SFeqb. destruct (Prim2SF x); try discriminate. reflexivity.
Qed.

(** Clamping a not-a-number gives 1.0. *)
Lemma clamp_nan (x : float) : not_nan x = false -> clamp x = lit 1.
Proof.
  intros Hx. unfold clamp, pymin, pymax. rewrite (nan_flt_l x _ Hx).
  reflexivity.
Qed.

Lemma delta_t_nan (reward severity n : float) (self : TrustMeter float) :
  not_nan reward = false \/ not_nan severity = false ->
  not_nan (delta_t reward severity n self) = false.
Proof.
  unfold delta_t. intros [Hr|Hs].
  - apply nan_mul_r, nan_sub_l, Hr.
  - apply nan_mul_l, nan_mul_r, nan_mul_l, Hs.
Qed.

(** X18. A not-a-number makes the trust full.  On doubles, when the
    reward or the severity is a not-a-number and the reward is not zero,
    [observe] returns as long as the counter converts, and leaves the
    trust at exactly 1.0, whatever it was; with a not-a-number reward no
    betrayal is counted. *)
Theorem nan_gives_full_trust (reward severity n : float)
  (self : TrustMeter float) :
  not_nan reward = false \/ not_nan severity = false ->
  (reward ==. lit 0) = false ->
  of_int (_betrayals (bump reward self)) = Return n ->
  fst (observe reward severity self) = Return tt
  /\ _trust (after reward severity self) = lit 1
  /\ (not_nan reward = false ->
      _betrayals (after reward severity self) = _betrayals self).
Proof.
  intros Hnan Hnz Hn. unfold after.
  rewrite (observe_delta_t reward severity n self Hnz Hn).
  cbn [fst snd set_trust _trust _betrayals].
  split; [reflexivity|]. split.
  - apply clamp_nan, nan_add_r, delta_t_nan, Hnan.
  - intros Hr. rewrite bump_betrayals. now rewrite (nan_flt_l reward _ Hr).
Qed.

(** ** A clear gain *)

(** Above a double of [0, 1), by a 2^-20 at least, the rounding is strictly
    above the double. *)
Lemma next_on_grid (v : Z) :
  0 < v < 2 ^ bias -> v mod 2 ^ ulp_exp v = 0 ->
  exists p, v < p <= v + 2 ^ (bias - 53) /\ p <= 2 ^ bias /\ rnd p = p.
Proof.
  intros [Hpos Hlt] Hg.
  set (k := ulp_exp v) in * .
  pose proof (ulp_exp_pos v) as Hk. fold k in Hk.
  pose proof (log2_bounds v Hpos) as [Hlo Hhi].
  assert (Hl0 : 0 <= Z.log2 v) by (apply Z.log2_nonneg).
  assert (Hlb : Z.log2 v < bias) by (apply Z.log2_lt_pow2; lia).
  assert (H2k : 0 < 2 ^ k) by (apply pow2_pos; lia).
  assert (Hdiv : (2 ^ k | v)) by (apply Z.mod_divide; [lia|exact Hg]).
  assert (Hkv : 2 ^ k <= v) by (apply Z.divide_pos_le; [lia|exact Hdiv]).
  assert (Hkl : k <= Z.log2 v) by (apply Z.log2_le_pow2 in Hkv; lia).
  assert (Hk53 : k <= bias - 53).
  { unfold k, ulp_exp in * . unfold bias in * . lia. }
  assert (Hdivl : (2 ^ k | 2 ^ (Z.log2 v + 1))).
  { exists (2 ^ ((Z.log2 v + 1) - k)).
    rewrite <- Z.pow_add_r by lia. f_equal. lia. }
  assert (Hnext : v + 2 ^ k <= 2 ^ (Z.log2 v + 1)).
  { destruct Hdiv as [a Ha]. destruct Hdivl as [b Hb].
    set (u := 2 ^ k) in * . set (z := 2 ^ (Z.log2 v + 1)) in * .
    clearbody u z. clear - Ha Hb Hhi H2k. subst v z.
    assert (Hab : a < b) by (apply (Z.mul_lt_mono_pos_r u); assumption).
    replace (a * u + u) with ((a + 1) * u) by ring.
    apply Z.mul_le_mono_nonneg_r; lia. }
  assert (Hle : 2 ^ k <= 2 ^ (bias - 53))
    by (apply Z.pow_le_mono_r; lia).
  assert (Htop : 2 ^ (Z.log2 v + 1) <= 2 ^ bias)
    by (apply Z.pow_le_mono_r; lia).
  exists (v + 2 ^ k). split; [lia|]. split; [lia|].
  apply rnd_on_grid.
  - pose proof unit_below_cap. lia.
  - destruct (Z.eq_dec (v + 2 ^ k) (2 ^ (Z.log2 v + 1))) as [Ep|Hne].
    + rewrite Ep. unfold ulp_exp. rewrite Z.log2_pow2 by lia.
      apply (pow2_divides _ ((Z.log2 v + 1)));
        [unfold k, ulp_exp in * ; lia|].
      apply Z.mod_same, Z.pow_nonzero; lia.
    + assert (Hlt' : Z.log2 (v + 2 ^ k) < (Z.log2 v + 1))
        by (apply Z.log2_lt_pow2; lia).
      assert (Hge : Z.log2 v <= Z.log2 (v + 2 ^ k))
        by (apply Z.log2_le_mono; lia).
      assert (Heq : ulp_exp (v + 2 ^ k) = k).
      { assert (Hlog : Z.log2 (v + 2 ^ k) = Z.log2 v) by lia.
        unfold ulp_exp at 1. rewrite Hlog. reflexivity. }
      rewrite Heq. apply Z.mod_divide; [lia|].
      apply Z.divide_add_r; [exact Hdiv|apply Z.divide_refl].
Qed.

(** Above a double of [0, 1), by a 2^-20 at least, the rounding is strictly
    above the double. *)
Lemma rnd_above (t : float) (y : Z) :
  is_finite t = true -> 0 <= Wf t < 2 ^ bias ->
  Wf t + 2 ^ (bias - 20) <= y -> Wf t < rnd y.
Proof.
  intros Hf [H0 H1] Hy.
  assert (Hstep20 : rnd (2 ^ (bias - 20)) = 2 ^ (bias - 20))
    by (vm_compute; reflexivity).
  assert (Hpos20 : 0 < 2 ^ (bias - 20)) by (apply pow2_pos; unfold bias; lia).
  assert (Hle : 2 ^ (bias - 53) <= 2 ^ (bias - 20))
    by (apply Z.pow_le_mono_r; unfold bias; lia).
  destruct (Z.eq_dec (Wf t) 0) as [Hz|Hnz].
  - rewrite Hz, Z.add_0_l in Hy. rewrite Hz.
    apply Z.lt_le_trans with (rnd (2 ^ (bias - 20)));
      [rewrite Hstep20; exact Hpos20|apply rnd_mono, Hy].
  - assert (Hpos : 0 < Wf t) by (clear - H0 Hnz; lia).
    destruct (next_on_grid (Wf t) (conj Hpos H1) (Wf_grid t Hf Hpos))
      as (p & [Hvp Hpv] & _ & Hfix).
    apply Z.lt_le_trans with p; [exact Hvp|].
    rewrite <- Hfix. apply rnd_mono.
    apply Z.le_trans with (Wf t + 2 ^ (bias - 53)); [exact Hpv|].
    apply Z.le_trans with (Wf t + 2 ^ (bias - 20)); [|exact Hy].
    apply Z.add_le_mono_l, Hle.
Qed.

(** X19. On doubles a clear gain strictly raises a trust below 1.  With
    the trust in [0, 1), a gap [reward - trust] of 2^-10 or more as the
    code computes it, a positive rate of 2^-10 or more, a severity of 1
    or more, a non-negative [delta] and counter, and a finite change,
    [observe] returns, counts no betrayal and leaves the trust strictly
    above what it was. *)
Theorem clear_gain_raises_trust (reward severity n : float)
  (self : TrustMeter float) :
  in_unit (_trust self) = true ->
  (_trust self <. lit 1) = true ->
  (lit (1 # 1024) <=. reward -. _trust self) = true ->
  (lit (1 # 1024) <=. alpha_pos self) = true ->
  (lit 1 <=. severity) = true ->
  (lit 0 <=. delta self) = true ->
  0 <= _betrayals self ->
  of_int (_betrayals self) = Return n ->
  is_finite (delta_t reward severity n self) = true ->
  fst (observe reward severity self) = Return tt
  /\ _betrayals (after reward severity self) = _betrayals self
  /\ (_trust self <. _trust (after reward severity self)) = true.
Proof.
  intros Hin Hbelow Hgap0 Ha Hs Hd Hc Hn Hf.
  destruct (in_unit_Wf _ Hin) as [Ht [Ht0 Ht1]].
  apply flt_true in Hbelow. destruct Hbelow as (Hnt & _ & Hbelow).
  rewrite Wf_lit1 in Hbelow.
  apply fle_true in Ha. destruct Ha as (_ & _ & Ha). rewrite Wf_milli in Ha.
  apply fle_true in Hs. destruct Hs as (_ & _ & Hs). rewrite Wf_lit1 in Hs.
  pose proof (nonneg_Wf _ Hd) as Hd0.
  pose proof unit_pos as Hu.
  assert (Hm : 0 < 2 ^ (bias - 10)) by (apply pow2_pos; unfold bias; lia).
  destruct (delta_t_Wf _ _ _ _ Hf) as (_ & Hfm & Hfr & _ & Hdt).
  pose proof (finite_not_nan _ Hfr) as Hnr.
  apply fle_true in Hgap0. destruct Hgap0 as (_ & _ & Hgap).
  rewrite Wf_milli in Hgap.
  rewrite (proj2 (fsub_Wf _ _ Hfr Ht)) in Hgap.
  assert (Hrt : Wf (_trust self) < Wf reward).
  { destruct (Z_lt_le_dec (Wf (_trust self)) (Wf reward)) as [|Hle]; [assumption|].
    pose proof (rnd_nonpos (Wf reward - Wf (_trust self)) ltac:(lia)). lia. }
  assert (Hgt : (_trust self <. reward) = true).
  { rewrite flt_Wf by auto. apply Z.ltb_lt. exact Hrt. }
  assert (Hlt : (reward <. _trust self) = false).
  { rewrite flt_Wf by auto. apply Z.ltb_ge. lia. }
  assert (Hnz : (reward ==. lit 0) = false).
  { rewrite feq_Wf by (auto; reflexivity). rewrite Wf_lit0.
    apply Z.eqb_neq. lia. }
  assert (Hb : bump reward self = self) by (unfold bump; now rewrite Hlt).
  unfold after.
  rewrite (observe_delta_t reward severity n self Hnz); [|now rewrite Hb].
  rewrite Hb. cbn [fst snd set_trust _trust _betrayals].
  split; [reflexivity|]. split; [reflexivity|].
  pose proof (of_int_nonneg _ _ Hc Hn) as Hn0.
  destruct (clamp_add_Wf _ _ Ht Hf) as [Hnn Hcl].
  rewrite flt_Wf by auto. apply Z.ltb_lt. rewrite Hcl.
  assert (Hpa : pick_alpha reward self = alpha_pos self)
    by (unfold pick_alpha; now rewrite Hgt).
  rewrite Hpa in Hdt.
  assert (Hamp : 2 ^ bias <= Wf (severity *. (lit 1 +. n *. delta self))).
  { destruct (amplification_Wf _ _ _ Hfm) as (_ & _ & _ & ->).
    rewrite <- (rnd_Wf (lit 1) finite_one) at 1. rewrite Wf_lit1.
    apply rnd_mono.
    assert (Hin1 : 2 ^ bias <= rnd (2 ^ bias + rnd (Wf n * Wf (delta self) / 2 ^ bias))).
    { rewrite <- Wf_lit1 at 1. rewrite <- (rnd_Wf (lit 1) finite_one), Wf_lit1.
      apply rnd_mono.
      pose proof (rnd_nonneg _ (scaled_nonneg _ _ Hn0 Hd0)). lia. }
    apply Z.div_le_lower_bound; [lia|]. nia. }
  assert (Hrate : 2 ^ (bias - 10)
                  <= rnd (Wf (alpha_pos self)
                          * Wf (severity *. (lit 1 +. n *. delta self))
                          / 2 ^ bias)).
  { rewrite <- Wf_milli at 1. rewrite <- (rnd_Wf _ finite_milli), Wf_milli.
    apply rnd_mono. apply Z.div_le_lower_bound; [lia|]. nia. }
  assert (Hchange : 2 ^ (bias - 20) <= Wf (delta_t reward severity n self)).
  { rewrite Hdt.
    assert (Hstep : rnd (2 ^ (bias - 20)) = 2 ^ (bias - 20))
      by (vm_compute; reflexivity).
    rewrite <- Hstep at 1. apply rnd_mono.
    assert (Hsq : 2 ^ (bias - 10) * 2 ^ (bias - 10) = 2 ^ (bias - 20) * 2 ^ bias)
      by (vm_compute; reflexivity).
    apply Z.div_le_lower_bound; [lia|].
    set (r := rnd (Wf (alpha_pos self) * _ / _)) in * .
    set (g := rnd (Wf reward - _)) in * .
    clearbody r g. nia. }
  apply Z.max_lt_iff. right. apply Z.min_glb_lt; [exact Hbelow|].
  apply rnd_above; [exact Ht|lia|lia].
Qed.

(** ** Thresholds outside [0, 1] *)

(** The gate on a meter whose trust is in [0, 1]. *)
Lemma gate_out_of_range (t : TrustMeter float) (threshold : float)
  (proposed : Action) :
  in_unit (value t) = true ->
  ((lit 1 <. threshold) = true -> gate t threshold proposed = D)
  /\ ((threshold <=. lit 0) = true \/ not_nan threshold = false ->
      gate t threshold proposed = proposed).
Proof.
  intros Hin. destruct (in_unit_Wf _ Hin) as [Hf [H0 H1]].
  pose proof (finite_not_nan _ Hf) as Hn. unfold gate. split.
  - intros Hth. apply flt_true in Hth. destruct Hth as (_ & Hnt & Hth).
    rewrite Wf_lit1 in Hth. rewrite flt_Wf by auto.
    replace (Wf (value t) <? Wf threshold) with true; [reflexivity|].
    symmetry. apply Z.ltb_lt. lia.
  - intros [Hth|Hnan].
    + apply fle_true in Hth. destruct Hth as (Hnt & _ & Hth).
      rewrite Wf_lit0 in Hth. rewrite flt_Wf by auto.
      replace (Wf (value t) <? Wf threshold) with false; [reflexivity|].
      symmetry. apply Z.ltb_ge. lia.
    + now rewrite (nan_flt_r _ _ Hnan).
Qed.

Section thresholds.
Variable Opponent : Type.
Variable opp_history : Opponent -> list Action.
Variable axl_attrs : Type.
Variable axl_strategy : axl_class -> Opponent -> Py axl_attrs Action.

(** X20. What a threshold outside [0, 1] does to a [UTMTFT] and to a
    [UTMWSLS], on doubles.  On every round after the first whose update
    and inner strategy return, a threshold above 1.0 makes the move
    Defect whatever the inner strategy proposes, and a threshold at or
    below 0.0, or a not-a-number, lets the proposed move through
    whatever the opponent has done. *)
Theorem threshold_outside_unit (opponent : Opponent)
  (self : UTMPlayer float axl_attrs)
  (h : list Action) (last_my : Action) (ho : list Action) (last_opp : Action)
  (proposed : Action) (p' : axl_Player axl_attrs) :
  history self = (h ++ [last_my])%list ->
  opp_history opponent = (ho ++ [last_opp])%list ->
  fst (observe (reward_of last_my last_opp) (lit 1) (trust self)) = Return tt ->
  inner_strategy axl_strategy opponent (inner self) = (Return proposed, p') ->
  ((lit 1 <. threshold self) = true ->
   fst (UTMTFT_strategy opp_history axl_strategy opponent self) = Return D
   /\ fst (UTMWSLS_strategy opp_history axl_strategy opponent self) = Return D)
  /\ ((threshold self <=. lit 0) = true \/ not_nan (threshold self) = false ->
      fst (UTMTFT_strategy opp_history axl_strategy opponent self)
      = Return proposed
      /\ fst (UTMWSLS_strategy opp_history axl_strategy opponent self)
         = Return proposed).
Proof.
  intros Hh Ho Hret Hin.
  destruct (proj2 (UTMTFT_gated_round Opponent opp_history axl_attrs
                     axl_strategy opponent self)
              h last_my ho last_opp Hh Ho) as (_ & _ & Htft).
  destruct (proj2 (UTMWSLS_gated_round Opponent opp_history axl_attrs
                     axl_strategy opponent self)
              h last_my ho last_opp Hh Ho) as (_ & _ & Hwsls).
  rewrite (Htft proposed p' Hret Hin), (Hwsls proposed p' Hret Hin).
  assert (Hunit : in_unit
                    (value (snd (observe (reward_of last_my last_opp) (lit 1)
                                   (trust self)))) = true).
  { destruct (observe _ _ (trust self)) as [o t'] eqn:Eo.
    cbn [fst snd] in * . subst o.
    exact (observe_in_unit_success _ _ _ _ Eo). }
  destruct (gate_out_of_range _ (threshold self) proposed Hunit) as [Hhigh Hlow].
  split; intros Hth.
  - rewrite (Hhigh Hth). now split.
  - rewrite (Hlow Hth). now split.
Qed.

End thresholds.

(** ** The trust game *)

Lemma of_int_three : of_int (F := float) 3 = Return 3%float.
Proof. vm_compute. reflexivity. Qed.

Lemma lit1_nonzero : (lit (F := float) 1 ==. lit 0) = false.
Proof. vm_compute. reflexivity. Qed.

Lemma lit_minus1_nonzero : (lit (F := float) (-1) ==. lit 0) = false.
Proof. vm_compute. reflexivity. Qed.

Lemma Wf_minus1 : Wf (lit (-1)) = - 2 ^ bias.
Proof. vm_compute. reflexivity. Qed.

Section trust_game_facts.
Variable axl_attrs : Type.
Variables send ret_good betray_prob ret_bad tau : float.

Local Abbreviation round :=
  (trust_game_round (axl_attrs := axl_attrs) send ret_good betray_prob
     ret_bad tau).

(** The amount sent, the payoff and the reward of a round. *)
Local Abbreviation sent_of agent :=
  (if tau <=. value (trust agent) then send else lit 0).
Local Abbreviation payoff_of draw agent :=
  (PrimFloat.opp (sent_of agent)
   +. sent_of agent *. 3%float
      *. (if draw <. betray_prob then ret_bad else ret_good)).
Local Abbreviation reward_for payoff :=
  (if lit 0 <=. payoff then lit (F := float) 1 else lit (-1)).

Lemma round_eq (draw : float) (agent : UTMPlayer float axl_attrs) :
  round draw agent
  = (match fst (observe (reward_for (payoff_of draw agent)) (lit 1)
                  (trust agent)) with
     | Return _ => Return (payoff_of draw agent)
     | Raise e => Raise e
     end,
     set_trust_of
       (after (reward_for (payoff_of draw agent)) (lit 1) (trust agent))
       agent).
Proof.
  unfold trust_game_round, bind, get, lift, on_attr, ret, after.
  rewrite of_int_three.
  now destruct (observe _ _ (trust agent)) as [[[]|e] t'].
Qed.

Lemma reward_for_nonzero (payoff : float) :
  (reward_for payoff ==. lit 0) = false.
Proof.
  destruct (lit 0 <=. payoff); [apply lit1_nonzero|apply lit_minus1_nonzero].
Qed.

(** The counter after an [observe] that was given a non-zero reward. *)
Lemma after_betrayals (reward severity : float) (self : TrustMeter float) :
  (reward ==. lit 0) = false ->
  _betrayals (after reward severity self)
  = if reward <. _trust self then _betrayals self + 1 else _betrayals self.
Proof.
  intros Hnz. unfold after. rewrite observe_eq, Hnz.
  destruct (of_int _); cbn [snd set_trust _betrayals];
    apply bump_betrayals.
Qed.

Lemma round_returns (draw : float) (agent : UTMPlayer float axl_attrs) :
  0 <= _betrayals (trust agent) < 2 ^ 53 - 1 ->
  fst (round draw agent) = Return (payoff_of draw agent)
  /\ in_unit (value (trust (snd (round draw agent)))) = true
  /\ _betrayals (trust agent) <= _betrayals (trust (snd (round draw agent)))
     <= _betrayals (trust agent) + 1.
Proof.
  intros Hn. rewrite round_eq. cbn [fst snd set_trust_of trust].
  pose proof (observe_returns (reward_for (payoff_of draw agent)) (lit 1)
                (trust agent) (reward_for_nonzero _) Hn) as Hret.
  rewrite Hret. split; [reflexivity|]. split.
  - unfold after.
    destruct (observe _ _ (trust agent)) as [o t'] eqn:Eo.
    cbn [fst snd] in * . subst o.
    exact (observe_in_unit_success _ _ _ _ Eo).
  - rewrite (after_betrayals _ _ _ (reward_for_nonzero _)).
    destruct (_ <. _trust _); lia.
Qed.

Lemma loop_returns (draws : list float) :
  forall (trust_vals payoffs : list float) (agent : UTMPlayer float axl_attrs),
    0 <= _betrayals (trust agent) ->
    _betrayals (trust agent) + Z.of_nat (length draws) < 2 ^ 53 ->
    exists tv pf agent',
      trust_game_loop send ret_good betray_prob ret_bad tau draws
        trust_vals payoffs agent
      = (Return ((trust_vals ++ tv)%list, (payoffs ++ pf)%list), agent')
      /\ length tv = length draws /\ length pf = length draws
      /\ Forall (fun t => in_unit t = true) tv.
Proof.
  induction draws as [|draw rest IH]; intros trust_vals payoffs agent H0 Hn.
  - exists [], [], agent. cbn [trust_game_loop]. unfold ret.
    rewrite !app_nil_r. repeat split; constructor.
  - cbn [length] in Hn. cbn [trust_game_loop]. unfold bind at 1.
    assert (Hc : 0 <= _betrayals (trust agent) < 2 ^ 53 - 1) by lia.
    destruct (round_returns draw agent Hc) as (Hret & Hin & Hlo & Hhi).
    destruct (round draw agent) as [o agent1]. cbn [fst snd] in * . subst o.
    unfold bind at 1, get.
    destruct (IH (trust_vals ++ [value (trust agent1)])%list
                (payoffs ++ [payoff_of draw agent])%list agent1
                ltac:(lia) ltac:(lia))
      as (tv & pf & agent' & Heq & Hlt & Hlp & Hall).
    exists (value (trust agent1) :: tv), (payoff_of draw agent :: pf), agent'.
    rewrite Heq, <- !app_assoc. cbn [app length].
    repeat split; auto.
Qed.

(** With nothing sent and a finite rate of return the payoff is a zero. *)
Lemma payoff_of_nothing (ret : float) :
  is_finite ret = true ->
  exists s,
    Prim2SF (PrimFloat.opp (lit 0) +. lit 0 *. 3%float *. ret) = S754_zero s.
Proof.
  intros Hret. rewrite lit0_binary64. cbn [fadd fmul binary64].
  destruct (mul_zero_l 0%float 3%float false Prim2SF_zero) as [s1 H1];
    [reflexivity|].
  destruct (mul_zero_l _ ret s1 H1 Hret) as [s2 H2].
  rewrite add_spec, opp_spec, Prim2SF_zero, H2.
  destruct s2; cbn; eauto.
Qed.

Lemma zero_is_profit (payoff : float) s :
  Prim2SF payoff = S754_zero s ->
  (lit 0 <=. payoff) = true /\ (payoff ==. lit 0) = true.
Proof.
  intros Hp. rewrite lit0_binary64. cbn [fle feq binary64].
  rewrite leb_spec, FloatAxioms.eqb_spec, Hp, Prim2SF_zero.
  now destruct s.
Qed.

(** In [0, 1] the reward +1 is never below the trust and the reward -1
    always is. *)
Lemma unit_rewards (t : float) :
  in_unit t = true -> (lit 1 <. t) = false /\ (lit (-1) <. t) = true.
Proof.
  intros Hin. destruct (in_unit_Wf t Hin) as [Hf [H0 H1]].
  pose proof unit_pos.
  rewrite !flt_Wf by (auto using finite_not_nan; reflexivity).
  rewrite Wf_lit1, Wf_minus1. split; [apply Z.ltb_ge|apply Z.ltb_lt]; lia.
Qed.

(** X16. A round in which the investor refuses is booked as a profit.
    When the trust is not at or above [tau], with the trust in [0, 1] and
    finite rates of return, the round returns a payoff equal to zero,
    the meter observes the reward +1, and no betrayal is counted,
    whatever the draw. *)
Theorem refused_round_is_a_profit (draw : float)
  (agent : UTMPlayer float axl_attrs) :
  (tau <=. value (trust agent)) = false ->
  in_unit (value (trust agent)) = true ->
  is_finite ret_good = true -> is_finite ret_bad = true ->
  0 <= _betrayals (trust agent) < 2 ^ 53 - 1 ->
  exists payoff,
    trust_game_round send ret_good betray_prob ret_bad tau draw agent
    = (Return payoff,
       set_trust_of (after (lit 1) (lit 1) (trust agent)) agent)
    /\ (payoff ==. lit 0) = true
    /\ _betrayals (after (lit 1) (lit 1) (trust agent))
       = _betrayals (trust agent).
Proof.
  intros Hrefuse Hin Hg Hb Hn.
  assert (Hret : is_finite (if draw <. betray_prob then ret_bad else ret_good)
                 = true) by (now destruct (draw <. betray_prob)).
  destruct (payoff_of_nothing _ Hret) as [s Hs].
  destruct (zero_is_profit _ s Hs) as [Hle Heq].
  exists (payoff_of draw agent). rewrite round_eq, Hrefuse, Hle.
  rewrite (observe_returns (lit 1) (lit 1) (trust agent) lit1_nonzero Hn).
  split; [reflexivity|]. split; [exact Heq|].
  rewrite (after_betrayals _ _ _ lit1_nonzero).
  unfold value in Hin. now rewrite (proj1 (unit_rewards _ Hin)).
Qed.

(** X17. In the trust game the betrayal counter counts the losses.  With
    the trust in [0, 1], a round returns its payoff, and the counter of
    the meter goes up by one exactly when the payoff is not at or above
    zero, a not-a-number payoff included. *)
Theorem round_counts_losses (draw : float)
  (agent : UTMPlayer float axl_attrs) :
  in_unit (value (trust agent)) = true ->
  0 <= _betrayals (trust agent) < 2 ^ 53 - 1 ->
  exists payoff agent',
    trust_game_round send ret_good betray_prob ret_bad tau draw agent
    = (Return payoff, agent')
    /\ in_unit (value (trust agent')) = true
    /\ _betrayals (trust agent')
       = if lit 0 <=. payoff then _betrayals (trust agent)
         else _betrayals (trust agent) + 1.
Proof.
  intros Hin Hn.
  destruct (round_returns draw agent Hn) as (Hret & Hin' & _).
  exists (payoff_of draw agent), (snd (round draw agent)).
  split; [|split; [exact Hin'|]].
  - rewrite <- Hret. now destruct (round draw agent).
  - rewrite round_eq. cbn [snd set_trust_of trust].
    rewrite (after_betrayals _ _ _ (reward_for_nonzero _)).
    unfold value in Hin. destruct (unit_rewards _ Hin) as [Hup Hdown].
    destruct (lit 0 <=. payoff_of draw agent); [now rewrite Hup|now rewrite Hdown].
Qed.

End trust_game_facts.

(** X15. [run_trust_game] returns for every choice of its float
    parameters, not-a-number and infinities included, and every sequence
    of draws, as long as [rounds] is below 2^53: it gives one trust value
    and one payoff per round, none for a negative [rounds], and every
    trust value it records is in [0.0, 1.0]. *)
Theorem run_trust_game_returns {axl_attrs} (axl_init : axl_class -> axl_attrs)
  (random : nat -> float) (rounds : Z)
  (send ret_good betray_prob ret_bad alpha_pos alpha_neg delta tau : float) :
  rounds < 2 ^ 53 ->
  exists trust_vals payoffs,
    run_trust_game axl_init random rounds send ret_good betray_prob ret_bad
      alpha_pos alpha_neg delta tau
    = Return (trust_vals, payoffs)
    /\ length trust_vals = Z.to_nat rounds
    /\ length payoffs = Z.to_nat rounds
    /\ Forall (fun t => in_unit t = true) trust_vals.
Proof.
  intros Hr. unfold run_trust_game.
  destruct (loop_returns axl_attrs send ret_good betray_prob ret_bad tau
              (map random (seq 0 (Z.to_nat rounds))) [] []
              (UTMTFT_init axl_init (lit (5 # 10)) alpha_pos alpha_neg delta tau))
    as (tv & pf & agent' & Heq & Hlt & Hlp & Hall).
  - cbn. lia.
  - cbn [UTMTFT_init trust TrustMeter_init _betrayals].
    rewrite length_map, length_seq. lia.
  - exists tv, pf. rewrite Heq. cbn [fst app].
    rewrite length_map, length_seq in Hlt, Hlp. auto.
Qed.

(** ** Directionality and escalation on doubles *)

(** Above a double of [0, 1), by a 2^-53 at least, the rounding is
    strictly above the double. *)
Lemma rnd_above_ulp (t : float) (y : Z) :
  is_finite t = true -> 0 <= Wf t < 2 ^ bias ->
  Wf t + 2 ^ (bias - 53) <= y -> Wf t < rnd y.
Proof.
  intros Hf [H0 H1] Hy.
  assert (Hstep : rnd (2 ^ (bias - 53)) = 2 ^ (bias - 53))
    by (vm_compute; reflexivity).
  assert (Hpos53 : 0 < 2 ^ (bias - 53)) by (apply pow2_pos; unfold bias; lia).
  destruct (Z.eq_dec (Wf t) 0) as [Hz|Hnz].
  - rewrite Hz, Z.add_0_l in Hy. rewrite Hz.
    apply Z.lt_le_trans with (rnd (2 ^ (bias - 53)));
      [rewrite Hstep; exact Hpos53|apply rnd_mono, Hy].
  - assert (Hpos : 0 < Wf t) by (clear - H0 Hnz; lia).
    destruct (next_on_grid (Wf t) (conj Hpos H1) (Wf_grid t Hf Hpos))
      as (p & [Hvp Hpv] & _ & Hfix).
    apply Z.lt_le_trans with p; [exact Hvp|].
    rewrite <- Hfix. apply rnd_mono.
    apply Z.le_trans with (Wf t + 2 ^ (bias - 53)); [exact Hpv|exact Hy].
Qed.

Lemma Wf_half : Wf 0.5%float = 2 ^ (bias - 1).
Proof. vm_compute. reflexivity. Qed.

Lemma Wf_min_rate : Wf (lit (1 # 4503599627370496)) = 2 ^ (bias - 52).
Proof. vm_compute. reflexivity. Qed.

Lemma finite_min_rate : is_finite (lit (1 # 4503599627370496)) = true.
Proof. vm_compute. reflexivity. Qed.

Lemma Wf_plus1 : Wf 1%float = 2 ^ bias.
Proof. exact Wf_one. Qed.

Lemma Wf_neg1 : Wf (-1)%float = - 2 ^ bias.
Proof. vm_compute. reflexivity. Qed.

(** With a severity of 1.0 and a non-negative [delta] and counter, the
    rate times the amplification is at least the rate's lower bound. *)
Lemma rate_at_least (alpha n d : float) :
  is_finite (alpha *. (lit 1 *. (lit 1 +. n *. d))) = true ->
  2 ^ (bias - 52) <= Wf alpha -> 0 <= Wf n -> 0 <= Wf d ->
  2 ^ (bias - 52) <= Wf (alpha *. (lit 1 *. (lit 1 +. n *. d))).
Proof.
  intros Hf Ha Hn0 Hd0.
  destruct (fmul_parts _ _ Hf) as (Hfa & Hfm & ->).
  pose proof unit_pos as Hu.
  assert (Hm : 0 < 2 ^ (bias - 52)) by (apply pow2_pos; unfold bias; lia).
  assert (Hamp : 2 ^ bias <= Wf (lit 1 *. (lit 1 +. n *. d))).
  { destruct (amplification_Wf _ _ _ Hfm) as (_ & _ & _ & ->).
    rewrite Wf_lit1.
    rewrite <- (rnd_Wf (lit 1) finite_one) at 1. rewrite Wf_lit1.
    apply rnd_mono.
    assert (Hin1 : 2 ^ bias <= rnd (2 ^ bias + rnd (Wf n * Wf d / 2 ^ bias))).
    { rewrite <- Wf_lit1 at 1. rewrite <- (rnd_Wf (lit 1) finite_one), Wf_lit1.
      apply rnd_mono.
      pose proof (rnd_nonneg _ (scaled_nonneg _ _ Hn0 Hd0)). lia. }
    apply Z.div_le_lower_bound; [lia|]. nia. }
  rewrite <- Wf_min_rate at 1. rewrite <- (rnd_Wf _ finite_min_rate), Wf_min_rate.
  apply rnd_mono. apply Z.div_le_lower_bound; [lia|]. nia.
Qed.

(** C8, amended.  On doubles, at trust 0.5, with both rates at 2^-52 or
    more, a non-negative [delta] and counter, and changes that are finite:
    [observe(1.0)] with the default severity returns and leaves the trust
    strictly above 0.5, and [observe(-1.0)] returns and leaves it strictly
    below. *)
Theorem directionality_binary64 (self : TrustMeter float) (n n' : float) :
  value self = 0.5%float ->
  (lit (1 # 4503599627370496) <=. alpha_pos self) = true ->
  (lit (1 # 4503599627370496) <=. alpha_neg self) = true ->
  (lit 0 <=. delta self) = true ->
  0 <= _betrayals self ->
  of_int (_betrayals self) = Return n ->
  of_int (_betrayals self + 1) = Return n' ->
  is_finite (delta_t 1%float (lit 1) n self) = true ->
  is_finite (delta_t (-1)%float (lit 1) n' self) = true ->
  (fst (observe 1%float (lit 1) self) = Return tt
   /\ (value self <. value (after 1%float (lit 1) self)) = true)
  /\ (fst (observe (-1)%float (lit 1) self) = Return tt
      /\ (value (after (-1)%float (lit 1) self) <. value self) = true).
Proof.
  unfold value. intros Ht Hap Han Hd Hc Hn Hn' Hf Hf'.
  apply fle_true in Hap. destruct Hap as (_ & _ & Hap).
  apply fle_true in Han. destruct Han as (_ & _ & Han).
  rewrite Wf_min_rate in Hap, Han.
  pose proof (nonneg_Wf _ Hd) as Hd0.
  pose proof unit_pos as Hu.
  assert (Hfin : is_finite (_trust self) = true) by (rewrite Ht; reflexivity).
  assert (HW : Wf (_trust self) = 2 ^ (bias - 1)) by (rewrite Ht; apply Wf_half).
  assert (Hhalf : 0 < 2 ^ (bias - 1) < 2 ^ bias).
  { split; [apply pow2_pos; unfold bias; lia|].
    apply Z.pow_lt_mono_r; unfold bias; lia. }
  assert (Hm : 0 < 2 ^ (bias - 52)) by (apply pow2_pos; unfold bias; lia).
  assert (Hup : (_trust self <. 1%float) = true) by (rewrite Ht; reflexivity).
  assert (Hup' : (1%float <. _trust self) = false) by (rewrite Ht; reflexivity).
  assert (Hdn : ((-1)%float <. _trust self) = true) by (rewrite Ht; reflexivity).
  assert (Hdn' : (_trust self <. (-1)%float) = false) by (rewrite Ht; reflexivity).
  split.
  - assert (Hb : bump 1%float self = self) by (unfold bump; now rewrite Hup').
    unfold after.
    rewrite (observe_delta_t 1%float (lit 1) n self); [|reflexivity|now rewrite Hb].
    rewrite Hb. cbn [fst snd set_trust _trust].
    split; [reflexivity|].
    pose proof (of_int_nonneg _ _ Hc Hn) as Hn0.
    destruct (clamp_add_Wf _ _ Hfin Hf) as [Hnn Hcl].
    rewrite flt_Wf by auto using finite_not_nan. apply Z.ltb_lt. rewrite Hcl.
    destruct (delta_t_Wf _ _ _ _ Hf) as (_ & _ & _ & _ & Hdt).
    assert (Hpa : pick_alpha 1%float self = alpha_pos self)
      by (unfold pick_alpha; now rewrite Hup).
    assert (Hrate : 2 ^ (bias - 52)
                    <= Wf (alpha_pos self *. (lit 1 *. (lit 1 +. n *. delta self)))).
    { apply rate_at_least; auto.
      unfold delta_t in Hf. rewrite Hpa in Hf.
      exact (proj1 (fmul_finite_inv _ _ Hf)). }
    assert (Hchange : 2 ^ (bias - 53) <= Wf (delta_t 1%float (lit 1) n self)).
    { unfold delta_t. rewrite Hpa.
      unfold delta_t in Hf. rewrite Hpa in Hf.
      destruct (fmul_parts _ _ Hf) as (_ & Hg & ->).
      rewrite (proj2 (fsub_Wf 1%float (_trust self) eq_refl Hfin)).
      rewrite Wf_plus1, HW.
      assert (Hgap : rnd (2 ^ bias - 2 ^ (bias - 1)) = 2 ^ (bias - 1))
        by (vm_compute; reflexivity).
      rewrite Hgap.
      assert (Hstep : rnd (2 ^ (bias - 53)) = 2 ^ (bias - 53))
        by (vm_compute; reflexivity).
      rewrite <- Hstep at 1. apply rnd_mono.
      assert (Hsq : 2 ^ (bias - 52) * 2 ^ (bias - 1) = 2 ^ (bias - 53) * 2 ^ bias)
        by (vm_compute; reflexivity).
      apply Z.div_le_lower_bound; [lia|].
      set (r := Wf (alpha_pos self *. _)) in * . clearbody r.
      pose proof (proj1 Hhalf). nia. }
    apply Z.max_lt_iff. right. apply Z.min_glb_lt; [lia|].
    apply rnd_above_ulp; [exact Hfin|lia|lia].
  - assert (Hb : bump (-1)%float self
                 = set_betrayals (_betrayals self + 1) self)
      by (unfold bump; now rewrite Hdn).
    unfold after.
    rewrite (observe_delta_t (-1)%float (lit 1) n' self);
      [|reflexivity|now rewrite Hb].
    rewrite Hb. cbn [fst snd set_trust set_betrayals _trust].
    split; [reflexivity|].
    assert (Hc1 : 0 <= _betrayals self + 1) by (clear - Hc; lia).
    pose proof (of_int_nonneg _ _ Hc1 Hn') as Hn0.
    destruct (clamp_add_Wf _ _ Hfin Hf') as [Hnn Hcl].
    rewrite flt_Wf by auto using finite_not_nan. apply Z.ltb_lt. rewrite Hcl.
    assert (Hpa : pick_alpha (-1)%float self = alpha_neg self)
      by (unfold pick_alpha; now rewrite Hdn').
    assert (Hrate : 2 ^ (bias - 52)
                    <= Wf (alpha_neg self *. (lit 1 *. (lit 1 +. n' *. delta self)))).
    { apply rate_at_least; auto.
      unfold delta_t in Hf'. rewrite Hpa in Hf'.
      exact (proj1 (fmul_finite_inv _ _ Hf')). }
    assert (Hchange : Wf (delta_t (-1)%float (lit 1) n' self) <= - 2 ^ (bias - 53)).
    { unfold delta_t. rewrite Hpa.
      unfold delta_t in Hf'. rewrite Hpa in Hf'.
      destruct (fmul_parts _ _ Hf') as (_ & Hg & ->).
      rewrite (proj2 (fsub_Wf (-1)%float (_trust self) eq_refl Hfin)).
      rewrite Wf_neg1, HW.
      assert (Hgap : rnd (- 2 ^ bias - 2 ^ (bias - 1)) = - (3 * 2 ^ (bias - 1)))
        by (vm_compute; reflexivity).
      rewrite Hgap.
      assert (Hstep : rnd (- 2 ^ (bias - 53)) = - 2 ^ (bias - 53))
        by (vm_compute; reflexivity).
      rewrite <- Hstep. apply rnd_mono.
      assert (Hsq : 2 ^ (bias - 52) * 2 ^ (bias - 1) = 2 ^ (bias - 53) * 2 ^ bias)
        by (vm_compute; reflexivity).
      apply Z.div_le_upper_bound; [lia|].
      set (r := Wf (alpha_neg self *. _)) in * . clearbody r.
      pose proof (proj1 Hhalf). nia. }
    apply Z.max_lub_lt; [lia|].
    apply Z.min_lt_iff. right.
    apply rnd_below; [exact Hfin|lia|lia].
Qed.

Section negative_surprise.
Variables (reward severity : float) (self : TrustMeter float).
Hypothesis alpha_neg_nonneg : 0 <= Wf (alpha_neg self).
Hypothesis severity_nonneg : 0 <= Wf severity.
Hypothesis delta_nonneg : 0 <= Wf (delta self).
Hypothesis pick_neg : pick_alpha reward self = alpha_neg self.
Hypothesis below : Wf reward <= Wf (_trust self).




End negative_surprise.



(** The two comparisons are not strict on doubles.  From a trust three
    places above one half, two [observe(0.5)] calls are negative
    surprises, and the second leaves the trust at 0.5 with the counter
    the first call left as with the counter the first call found: the
    change is too small for the counter to show. *)
Example escalation_not_strict_on_doubles :
  (0.5%float <. value near_half_meter) = true
  /\ (0.5%float <. value (after 0.5%float 1%float near_half_meter)) = true
  /\ value (after 0.5%float 1%float (after 0.5%float 1%float near_half_meter))
     = 0.5%float
  /\ value (after 0.5%float 1%float
              (set_betrayals (_betrayals near_half_meter)
                 (after 0.5%float 1%float near_half_meter)))
     = 0.5%float.
Proof. repeat split; vm_compute; reflexivity. Qed.

(** A positive rate is not enough on doubles: with both rates at 1e-17,
    below 2^-52, [observe(1.0)] and [observe(-1.0)] at trust 0.5 leave the
    trust at 0.5. *)
Example tiny_rate_leaves_trust :
  (lit 0 <. alpha_pos tiny_rate_meter) = true
  /\ (lit 0 <. alpha_neg tiny_rate_meter) = true
  /\ value (after 1%float 1%float tiny_rate_meter) = 0.5%float
  /\ value (after (-1)%float 1%float tiny_rate_meter) = 0.5%float.
Proof. repeat split; vm_compute; reflexivity. Qed.

Local Open Scope string_scope.

(** ** The theorems at concrete inputs *)

Lemma observe_moves_rejects_other_moves_witness :
  (("X", "C") ∉ reward_keys)
  /\ observe_moves "X" "C" (lit 1) default_meter
     = (Raise (ValueError "move must be 'C' or 'D'"), default_meter).
Proof.
  assert (Hout : ("X", "C") ∉ reward_keys).
  { unfold reward_keys. rewrite !not_elem_of_cons.
    repeat split; try discriminate. apply not_elem_of_nil. }
  split; [exact Hout|].
  exact (observe_moves_rejects_other_moves "X" "C" (lit 1) default_meter Hout).
Defined.

Lemma observe_failure_modes_witness :
  fst (observe 0%float 1%float default_meter)
  = Raise (ValueError "reward must be non-zero")
  /\ snd (observe 0%float 1%float default_meter) = default_meter.
Proof.
  assert (Hcall : fst (observe 0%float 1%float default_meter)
                  = Raise (ValueError "reward must be non-zero"))
    by reflexivity.
  split; [exact Hcall|].
  destruct (observe_failure_modes 0%float 1%float default_meter _ Hcall)
    as [(_ & _ & Hsame)|(Hover & _)]; [exact Hsame|discriminate Hover].
Defined.

Lemma observe_moves_on_actions_witness :
  0 <= _betrayals default_meter < 2 ^ 53 - 1
  /\ observe_moves (str C) (str D) 1%float default_meter
     = observe (reward_of C D) 1%float default_meter
  /\ fst (observe_moves (str C) (str D) 1%float default_meter) = Return tt.
Proof.
  assert (Hn : 0 <= _betrayals default_meter < 2 ^ 53 - 1)
    by (vm_compute; split; [discriminate|reflexivity]).
  split; [exact Hn|].
  exact (observe_moves_on_actions C D 1%float default_meter Hn).
Defined.

Lemma strategy_needs_opponent_history_witness :
  lib_history [] = []
  /\ history (set_history [C] default_UTMTFT) <> []
  /\ UTMTFT_strategy lib_history lib_strategy [] (set_history [C] default_UTMTFT)
     = (Raise IndexError, set_history [C] default_UTMTFT).
Proof.
  assert (Hopp : lib_history [] = []) by reflexivity.
  assert (Hh : history (set_history [C] default_UTMTFT) <> []) by discriminate.
  split; [exact Hopp|]. split; [exact Hh|].
  exact (proj1 (proj1 (strategy_needs_opponent_history (list Action)
                         lib_history (list Action) lib_init lib_strategy []
                         Hopp)
                  (set_history [C] default_UTMTFT) Hh)).
Defined.

Lemma hybrid_gated_round_witness :
  fst (UTMTFT_WSLS_strategy lib_history lib_init lib_strategy [C]
         (h_set_history [C] default_hybrid))
  = Return (gate (snd (observe (reward_of C C) (lit 1)
                         (h_trust default_hybrid)))
              (h_threshold default_hybrid) C).
Proof.
  assert (Hh : h_history (h_set_history [C] default_hybrid) = ([] ++ [C])%list)
    by reflexivity.
  assert (Ho : lib_history [C] = ([] ++ [C])%list) by reflexivity.
  assert (Hret : fst (observe (reward_of C C) (lit 1)
                        (h_trust (h_set_history [C] default_hybrid)))
                 = Return tt) by (vm_compute; reflexivity).
  assert (Hin : inner_strategy lib_strategy [C]
                  (h_inner
                     (hybrid_promote lib_init
                        (h_set_trust
                           (snd (observe (reward_of C C) (lit 1)
                                   (h_trust (h_set_history [C] default_hybrid))))
                           (h_set_history [C] default_hybrid))))
                = (Return C, axl_new lib_init TitForTat))
    by (vm_compute; reflexivity).
  exact (proj2 (proj2 (hybrid_gated_round (list Action) lib_history
                         (list Action) lib_init lib_strategy [C]
                         (h_set_history [C] default_hybrid))
                  [] C [] C Hh Ho)
           C _ Hret Hin).
Defined.

Lemma gated_reset_restores_constructed_player_witness :
  (forall c a, lib_reset c a = (Return tt, lib_init c))
  /\ UTMTFT_reset lib_reset
       (state_after
          (play_gated (UTMTFT_strategy lib_history lib_strategy)
             cooperative_rounds default_UTMTFT)
          default_UTMTFT)
     = (Return tt, default_UTMTFT).
Proof.
  assert (Hlib : forall c a, lib_reset c a = (Return tt, lib_init c))
    by reflexivity.
  split; [exact Hlib|].
  exact (proj1 (gated_reset_restores_constructed_player (list Action)
                  lib_history (list Action) lib_init lib_strategy lib_reset
                  Hlib (lit (45 # 100)) (lit (5 # 100)) (lit (5 # 10))
                  (lit (6 # 10)) (lit (45 # 100)) cooperative_rounds)).
Defined.

Lemma lib_strategy_returns (p : axl_Player (list Action)) :
  returned (inner_strategy lib_strategy [C] p) = true.
Proof.
  destruct p as [c a]. unfold returned, inner_strategy, bind, get, on_attr.
  cbn [cls attrs]. unfold lib_strategy, bind, get, lift, ret.
  destruct a as [|x a]; [reflexivity|]. cbn [nonempty].
  destruct (index_last_nonempty (x :: a)) as [y ->]; [discriminate|].
  change (index_last [C]) with (Return (A := Action) C).
  now destruct c.
Qed.

Lemma strategies_return_witness :
  (forall p, returned (inner_strategy lib_strategy [C] p) = true)
  /\ returned (UTMTFT_strategy lib_history lib_strategy [C]
                 (set_history [C] default_UTMTFT)) = true.
Proof.
  assert (Hround : history (set_history [C] default_UTMTFT) = []
                   \/ lib_history [C] <> []) by (right; discriminate).
  assert (Hn : 0 <= _betrayals (trust (set_history [C] default_UTMTFT))
               < 2 ^ 53 - 1)
    by (vm_compute; split; [discriminate|reflexivity]).
  split; [exact lib_strategy_returns|].
  exact (proj1 (proj1 (strategies_return (list Action) lib_history
                         (list Action) lib_init lib_strategy [C]
                         lib_strategy_returns)
                  (set_history [C] default_UTMTFT) Hround Hn)).
Defined.

Lemma observe_direction_witness :
  is_finite (delta_t (-1)%float 1%float 1%float default_meter) = true
  /\ fst (observe (-1)%float 1%float default_meter) = Return tt
  /\ (_trust (after (-1)%float 1%float default_meter) <=. _trust default_meter)
     = true.
Proof.
  assert (Hin : in_unit (_trust default_meter) = true) by reflexivity.
  assert (Hap : (lit 0 <=. alpha_pos default_meter) = true) by reflexivity.
  assert (Han : (lit 0 <=. alpha_neg default_meter) = true) by reflexivity.
  assert (Hs : (lit 0 <=. 1%float) = true) by reflexivity.
  assert (Hd : (lit 0 <=. delta default_meter) = true) by reflexivity.
  assert (Hc : 0 <= _betrayals default_meter) by discriminate.
  assert (Hnz : ((-1)%float ==. lit 0) = false) by reflexivity.
  assert (Hn : of_int (_betrayals (bump (-1)%float default_meter))
               = Return 1%float) by reflexivity.
  assert (Hf : is_finite (delta_t (-1)%float 1%float 1%float default_meter)
               = true) by reflexivity.
  assert (Hlt : ((-1)%float <. _trust default_meter) = true) by reflexivity.
  destruct (observe_direction (-1)%float 1%float 1%float default_meter
              Hin Hap Han Hs Hd Hc Hnz Hn Hf) as (Hret & Hdown & _).
  split; [exact Hf|]. split; [exact Hret|exact (Hdown Hlt)].
Defined.

Lemma more_betrayals_larger_change_witness :
  (_trust (after (-1)%float 1%float (set_betrayals 2 trusting_meter))
   <=. _trust (after (-1)%float 1%float trusting_meter)) = true.
Proof.
  assert (Hk : 0 <= 2) by discriminate.
  assert (Hin : in_unit (_trust trusting_meter) = true) by reflexivity.
  assert (Hap : (lit 0 <=. alpha_pos trusting_meter) = true) by reflexivity.
  assert (Han : (lit 0 <=. alpha_neg trusting_meter) = true) by reflexivity.
  assert (Hs : (lit 0 <=. 1%float) = true) by reflexivity.
  assert (Hd : (lit 0 <=. delta trusting_meter) = true) by reflexivity.
  assert (Hc : 0 <= _betrayals trusting_meter) by discriminate.
  assert (Hnz : ((-1)%float ==. lit 0) = false) by reflexivity.
  assert (Hn : of_int (_betrayals (bump (-1)%float trusting_meter))
               = Return 1%float) by reflexivity.
  assert (Hn' : of_int (_betrayals
                          (bump (-1)%float
                             (set_betrayals (_betrayals trusting_meter + 2)
                                trusting_meter)))
                = Return 3%float) by reflexivity.
  assert (Hf : is_finite (delta_t (-1)%float 1%float 1%float trusting_meter)
               = true) by reflexivity.
  assert (Hf' : is_finite
                  (delta_t (-1)%float 1%float 3%float
                     (set_betrayals (_betrayals trusting_meter + 2)
                        trusting_meter))
                = true) by reflexivity.
  assert (Hlt : ((-1)%float <. _trust trusting_meter) = true) by reflexivity.
  exact (proj1 (more_betrayals_larger_change (-1)%float 1%float 1%float
                  3%float trusting_meter 2 Hk Hin Hap Han Hs Hd Hc Hnz Hn Hn'
                  Hf Hf')
           Hlt).
Defined.

Lemma equal_reward_changes_nothing_witness :
  (1%float ==. _trust full_meter) = true
  /\ fst (observe 1%float 1%float full_meter) = Return tt
  /\ _betrayals (after 1%float 1%float full_meter) = _betrayals full_meter
  /\ (_trust (after 1%float 1%float full_meter) ==. _trust full_meter) = true.
Proof.
  assert (Hin : in_unit (_trust full_meter) = true) by reflexivity.
  assert (Heq : (1%float ==. _trust full_meter) = true) by reflexivity.
  assert (Hnz : (1%float ==. lit 0) = false) by reflexivity.
  assert (Hn : of_int (_betrayals full_meter) = Return 0%float) by reflexivity.
  assert (Hf : is_finite (delta_t 1%float 1%float 0%float full_meter) = true)
    by reflexivity.
  destruct (equal_reward_changes_nothing 1%float 1%float 0%float full_meter
              Hin Heq Hnz Hn Hf) as (Hret & _ & Hcount & Hsame).
  split; [exact Heq|]. split; [exact Hret|]. split; [exact Hcount|exact Hsame].
Defined.

Lemma clear_betrayal_lowers_trust_witness :
  fst (observe (-1)%float 1%float default_meter) = Return tt
  /\ _betrayals (after (-1)%float 1%float default_meter)
     = _betrayals default_meter + 1
  /\ (_trust (after (-1)%float 1%float default_meter) <. _trust default_meter)
     = true.
Proof.
  assert (Hin : in_unit (_trust default_meter) = true) by reflexivity.
  assert (Hpos : (lit 0 <. _trust default_meter) = true) by reflexivity.
  assert (Hr : ((-1)%float <=. lit (-1 # 1024)) = true) by reflexivity.
  assert (Ha : (lit (1 # 1024) <=. alpha_neg default_meter) = true)
    by reflexivity.
  assert (Hs : (lit 1 <=. 1%float) = true) by reflexivity.
  assert (Hd : (lit 0 <=. delta default_meter) = true) by reflexivity.
  assert (Hc : 0 <= _betrayals default_meter) by discriminate.
  assert (Hn : of_int (_betrayals default_meter + 1) = Return 1%float)
    by reflexivity.
  assert (Hf : is_finite (delta_t (-1)%float 1%float 1%float default_meter)
               = true) by reflexivity.
  exact (clear_betrayal_lowers_trust (-1)%float 1%float 1%float default_meter
           Hin Hpos Hr Ha Hs Hd Hc Hn Hf).
Defined.

Lemma run_trust_game_returns_witness :
  exists trust_vals payoffs,
    run_trust_game lib_init (fun _ => 0.5%float) 3 5%float 0.5%float 0%float
      0%float 0.05%float 0.5%float 0.55%float 0.45%float
    = Return (trust_vals, payoffs)
    /\ length trust_vals = Z.to_nat 3
    /\ length payoffs = Z.to_nat 3
    /\ Forall (fun t => in_unit t = true) trust_vals.
Proof.
  assert (Hr : 3 < 2 ^ 53) by reflexivity.
  exact (run_trust_game_returns lib_init (fun _ => 0.5%float) 3 5%float
           0.5%float 0%float 0%float 0.05%float 0.5%float 0.55%float
           0.45%float Hr).
Defined.

Lemma refused_round_is_a_profit_witness :
  (lit (6 # 10) <=. value (trust wary_investor)) = false
  /\ exists payoff,
       trust_game_round 5%float 0.5%float 0%float 0%float (lit (6 # 10))
         0.5%float wary_investor
       = (Return payoff,
          set_trust_of (after (lit 1) (lit 1) (trust wary_investor))
            wary_investor)
       /\ (payoff ==. lit 0) = true
       /\ _betrayals (after (lit 1) (lit 1) (trust wary_investor))
          = _betrayals (trust wary_investor).
Proof.
  assert (Hrefuse : (lit (6 # 10) <=. value (trust wary_investor)) = false)
    by reflexivity.
  assert (Hin : in_unit (value (trust wary_investor)) = true) by reflexivity.
  assert (Hg : is_finite 0.5%float = true) by reflexivity.
  assert (Hb : is_finite 0%float = true) by reflexivity.
  assert (Hn : 0 <= _betrayals (trust wary_investor) < 2 ^ 53 - 1)
    by (vm_compute; split; [discriminate|reflexivity]).
  split; [exact Hrefuse|].
  exact (refused_round_is_a_profit (list Action) 5%float 0.5%float 0%float
           0%float (lit (6 # 10)) 0.5%float wary_investor
           Hrefuse Hin Hg Hb Hn).
Defined.

Lemma round_counts_losses_witness :
  exists payoff agent',
    trust_game_round 5%float 0.5%float 1%float 0%float 0.45%float
      0.5%float default_UTMTFT
    = (Return payoff, agent')
    /\ in_unit (value (trust agent')) = true
    /\ _betrayals (trust agent')
       = if lit 0 <=. payoff then _betrayals (trust default_UTMTFT)
         else _betrayals (trust default_UTMTFT) + 1.
Proof.
  assert (Hin : in_unit (value (trust default_UTMTFT)) = true) by reflexivity.
  assert (Hn : 0 <= _betrayals (trust default_UTMTFT) < 2 ^ 53 - 1)
    by (vm_compute; split; [discriminate|reflexivity]).
  exact (round_counts_losses (list Action) 5%float 0.5%float 1%float 0%float
           0.45%float 0.5%float default_UTMTFT Hin Hn).
Defined.

Lemma nan_gives_full_trust_witness :
  not_nan nan = false
  /\ fst (observe nan 1%float default_meter) = Return tt
  /\ _trust (after nan 1%float default_meter) = lit 1
  /\ _betrayals (after nan 1%float default_meter) = _betrayals default_meter.
Proof.
  assert (Hnan : not_nan nan = false) by reflexivity.
  assert (Hnz : (nan ==. lit 0) = false) by reflexivity.
  assert (Hn : of_int (_betrayals (bump nan default_meter)) = Return 0%float)
    by reflexivity.
  destruct (nan_gives_full_trust nan 1%float 0%float default_meter
              (or_introl Hnan) Hnz Hn) as (Hret & Hfull & Hcount).
  split; [exact Hnan|]. split; [exact Hret|]. split; [exact Hfull|].
  exact (Hcount Hnan).
Defined.

Lemma clear_gain_raises_trust_witness :
  fst (observe 1%float 1%float default_meter) = Return tt
  /\ _betrayals (after 1%float 1%float default_meter)
     = _betrayals default_meter
  /\ (_trust default_meter <. _trust (after 1%float 1%float default_meter))
     = true.
Proof.
  assert (Hin : in_unit (_trust default_meter) = true) by reflexivity.
  assert (Hbelow : (_trust default_meter <. lit 1) = true) by reflexivity.
  assert (Hgap : (lit (1 # 1024) <=. 1%float -. _trust default_meter) = true)
    by reflexivity.
  assert (Ha : (lit (1 # 1024) <=. alpha_pos default_meter) = true)
    by reflexivity.
  assert (Hs : (lit 1 <=. 1%float) = true) by reflexivity.
  assert (Hd : (lit 0 <=. delta default_meter) = true) by reflexivity.
  assert (Hc : 0 <= _betrayals default_meter) by discriminate.
  assert (Hn : of_int (_betrayals default_meter) = Return 0%float)
    by reflexivity.
  assert (Hf : is_finite (delta_t 1%float 1%float 0%float default_meter)
               = true) by reflexivity.
  exact (clear_gain_raises_trust 1%float 1%float 0%float default_meter
           Hin Hbelow Hgap Ha Hs Hd Hc Hn Hf).
Defined.

Lemma threshold_outside_unit_witness :
  (lit 1 <. threshold unforgiving_player) = true
  /\ fst (UTMTFT_strategy lib_history lib_strategy [C] unforgiving_player)
     = Return D.
Proof.
  assert (Hh : history unforgiving_player = ([] ++ [C])%list) by reflexivity.
  assert (Ho : lib_history [C] = ([] ++ [C])%list) by reflexivity.
  assert (Hret : fst (observe (reward_of C C) (lit 1)
                        (trust unforgiving_player)) = Return tt)
    by (vm_compute; reflexivity).
  assert (Hin : inner_strategy lib_strategy [C] (inner unforgiving_player)
                = (Return C, axl_new lib_init TitForTat))
    by (vm_compute; reflexivity).
  assert (Hth : (lit 1 <. threshold unforgiving_player) = true)
    by reflexivity.
  split; [exact Hth|].
  exact (proj1 (proj1 (threshold_outside_unit (list Action) lib_history
                         (list Action) lib_strategy [C] unforgiving_player
                         [] C [] C C _ Hh Ho Hret Hin)
                  Hth)).
Defined.

Lemma directionality_binary64_witness :
  value default_meter = 0.5%float
  /\ (fst (observe 1%float (lit 1) default_meter) = Return tt
      /\ (value default_meter <. value (after 1%float (lit 1) default_meter))
         = true)
  /\ (fst (observe (-1)%float (lit 1) default_meter) = Return tt
      /\ (value (after (-1)%float (lit 1) default_meter) <. value default_meter)
         = true).
Proof.
  assert (Ht : value default_meter = 0.5%float) by reflexivity.
  assert (Hap : (lit (1 # 4503599627370496) <=. alpha_pos default_meter) = true)
    by reflexivity.
  assert (Han : (lit (1 # 4503599627370496) <=. alpha_neg default_meter) = true)
    by reflexivity.
  assert (Hd : (lit 0 <=. delta default_meter) = true) by reflexivity.
  assert (Hc : 0 <= _betrayals default_meter) by discriminate.
  assert (Hn : of_int (_betrayals default_meter) = Return 0%float)
    by reflexivity.
  assert (Hn' : of_int (_betrayals default_meter + 1) = Return 1%float)
    by reflexivity.
  assert (Hf : is_finite (delta_t 1%float (lit 1) 0%float default_meter) = true)
    by reflexivity.
  assert (Hf' : is_finite (delta_t (-1)%float (lit 1) 1%float default_meter)
                = true) by reflexivity.
  split; [exact Ht|].
  exact (directionality_binary64 default_meter 0%float 1%float
           Ht Hap Han Hd Hc Hn Hn' Hf Hf').
Defined.

